(** * epub3_to_2: the conversion engine [EpubConverter]

    A shallow embedding of [src/epub3_to_2.py], class [EpubConverter]
    (lines 17-125), and the properties of its navigation numbering,
    package patching and archive rewriting.

    Conventions of the embedding.
    - A Python [str] is a list of Unicode code points ([pystr]); a
      Python [bytes] is a list of octets ([bytes]).
    - String literals of the source are written with [py "..."], in
      which a backquote stands for the double quote of the source.
    - A Python exception is a value of [exn]; code that can raise
      returns [exn + A].
    - [pathlib.Path] is modelled in its POSIX flavour.
    - lxml's parser is a parameter of the development: it maps the
      bytes of a document to its element tree, or fails.
    - An archive is the list of its members.  A member that [zipfile]
      cannot read (wrong CRC, encrypted, unsupported compression
      method) is in the list with the exception that reading it
      raises.
    - The file system works: opening the output file and writing
      bytes to it do not fail. *)

From Stdlib Require Import Ascii String.
From Stdlib Require Import List NArith PeanoNat Bool Lia.
From Stdlib Require Import Permutation.
Import ListNotations.

Set Implicit Arguments.
Set Warnings "-register-all,-abstract-large-number".


(* ================================================================= *)
(** ** Python strings *)

Module Py.

Local Open Scope N_scope.

Definition pystr := list N.
Definition bytes := list N.

(** The code point of the double quote. *)
Definition DQ : N := 34.

(** A literal of the source; a backquote stands for a double quote. *)
Definition py (s : string) : pystr :=
  map (fun a => if Ascii.eqb a "`"%char then DQ else N_of_ascii a)
      (list_ascii_of_string s).

Fixpoint str_eqb (a b : pystr) : bool :=
  match a, b with
  | [], [] => true
  | x :: a', y :: b' => N.eqb x y && str_eqb a' b'
  | _, _ => false
  end.

(** [s.startswith(p)] *)
Fixpoint startswith (p s : pystr) : bool :=
  match p, s with
  | [], _ => true
  | x :: p', y :: s' => N.eqb x y && startswith p' s'
  | _ :: _, [] => false
  end.

(** [p in s] for strings *)
Fixpoint contains (s p : pystr) : bool :=
  startswith p s ||
  match s with
  | [] => false
  | _ :: s' => contains s' p
  end.

(** Unicode white space, as [str.isspace], [str.strip] and the [\s] of
    [re] on a [str] pattern know it. *)
Definition isspace (c : N) : bool :=
  ((9 <=? c) && (c <=? 13)) || ((28 <=? c) && (c <=? 32))
  || (c =? 133) || (c =? 160) || (c =? 5760)
  || ((8192 <=? c) && (c <=? 8202))
  || (c =? 8232) || (c =? 8233) || (c =? 8239) || (c =? 8287)
  || (c =? 12288).

Fixpoint lstrip (s : pystr) : pystr :=
  match s with
  | c :: s' => if isspace c then lstrip s' else s
  | [] => []
  end.

(** [s.strip()] *)
Definition strip (s : pystr) : pystr := rev (lstrip (rev (lstrip s))).

(** [sep.join(parts)] *)
Fixpoint join (sep : pystr) (parts : list pystr) : pystr :=
  match parts with
  | [] => []
  | [p] => p
  | p :: ps => p ++ sep ++ join sep ps
  end.

(** [s.split(sep)] for a one-character separator *)
Fixpoint split (sep : N) (s : pystr) : list pystr :=
  match s with
  | [] => [[]]
  | c :: s' =>
      if N.eqb c sep then [] :: split sep s'
      else match split sep s' with
           | w :: ws => (c :: w) :: ws
           | [] => [[c]]
           end
  end.

Fixpoint digits (u : Decimal.uint) : pystr :=
  match u with
  | Decimal.Nil => []
  | Decimal.D0 u => 48 :: digits u
  | Decimal.D1 u => 49 :: digits u
  | Decimal.D2 u => 50 :: digits u
  | Decimal.D3 u => 51 :: digits u
  | Decimal.D4 u => 52 :: digits u
  | Decimal.D5 u => 53 :: digits u
  | Decimal.D6 u => 54 :: digits u
  | Decimal.D7 u => 55 :: digits u
  | Decimal.D8 u => 56 :: digits u
  | Decimal.D9 u => 57 :: digits u
  end.

(** [str(n)] for a non-negative [int] *)
Definition str_of_int (n : nat) : pystr := digits (Nat.to_uint n).

End Py.
Import Py.




(* ================================================================= *)
(** ** Left-to-right substitution, and the fragment of [re] in use *)

Module Re.

Local Open Scope N_scope.

(** The scanning loop shared by [str.replace] and [re.sub].  At each
    position [find] looks for an occurrence starting there and answers
    with its length and its replacement; the occurrence is replaced and
    the scan goes on behind it; where there is none the character is
    copied.  An empty occurrence is replaced and the next character
    copied, as Python does. *)
Fixpoint scan (find : pystr -> option (nat * pystr)) (skip : nat)
         (s : pystr) : pystr :=
  match s with
  | [] =>
      match skip, find [] with
      | O, Some (_, new) => new
      | _, _ => []
      end
  | c :: s' =>
      match skip with
      | S k => scan find k s'
      | O =>
          match find s with
          | Some (O, new) => new ++ c :: scan find 0 s'
          | Some (S n, new) => new ++ scan find n s'
          | None => c :: scan find 0 s'
          end
      end
  end.

(** [s.replace(old, new)] *)
Definition find_str (old new : pystr) (s : pystr) : option (nat * pystr) :=
  if startswith old s then Some (length old, new) else None.

Definition replace (s old new : pystr) : pystr :=
  scan (find_str old new) 0 s.

(** The regular expressions of the source are sequences of literal
    characters and greedy starred character classes, with at most one
    group. *)
Inductive op : Type :=
| Chr (c : N)              (* a literal character *)
| Star (p : N -> bool)     (* [\s*], [[^x]*]: greedy, gives back on failure *)
| Open                     (* the opening parenthesis of group 1 *)
| Close.                   (* its closing parenthesis *)

Definition pattern := list op.

Definition lit (s : pystr) : pattern := map Chr s.

(** The text left at the two parentheses of the group. *)
Record marks : Type := Marks { m_open : pystr; m_close : pystr }.

(** Greedy star: as many characters of the class as possible, one less
    each time the rest of the pattern fails. *)
Fixpoint star (p : N -> bool) (k : pystr -> option (marks * pystr))
         (s : pystr) : option (marks * pystr) :=
  match s with
  | c :: s' =>
      if p c
      then match star p k s' with
           | Some r => Some r
           | None => k s
           end
      else k s
  | [] => k []
  end.

(** Match [pat] at the head of [s]; the answer is the text left behind
    the match, with the marks of the group. *)
Fixpoint exec (pat : pattern) (m : marks) (s : pystr)
  : option (marks * pystr) :=
  match pat with
  | [] => Some (m, s)
  | Chr c :: pat' =>
      match s with
      | x :: s' => if x =? c then exec pat' m s' else None
      | [] => None
      end
  | Star p :: pat' => star p (exec pat' m) s
  | Open :: pat' => exec pat' (Marks s (m_close m)) s
  | Close :: pat' => exec pat' (Marks (m_open m) s) s
  end.

(** The text of [a] in front of its suffix [b]. *)
Definition between (a b : pystr) : pystr :=
  firstn (length a - length b) a.

(** The match at the head of [s]: group 0 and group 1. *)
Definition match_at (pat : pattern) (s : pystr) : option (pystr * pystr) :=
  match exec pat (Marks s s) s with
  | Some (m, rest) => Some (between s rest, between (m_open m) (m_close m))
  | None => None
  end.

(** A replacement template: literal text and [\1]. *)
Inductive tpl : Type :=
| TLit (s : pystr)
| TGroup1.

Definition expand (repl : list tpl) (g1 : pystr) : pystr :=
  flat_map (fun t => match t with TLit s => s | TGroup1 => g1 end) repl.

Definition find_re (pat : pattern) (repl : list tpl) (s : pystr)
  : option (nat * pystr) :=
  match match_at pat s with
  | Some (g0, g1) => Some (length g0, expand repl g1)
  | None => None
  end.

(** [re.sub(pat, repl, s)] *)
Definition sub (pat : pattern) (repl : list tpl) (s : pystr) : pystr :=
  scan (find_re pat repl) 0 s.

End Re.

(* ================================================================= *)
(** ** The package patcher (lines 116-121 of [convert]) *)

Definition notdq (c : N) : bool := negb (N.eqb c DQ).
Definition notgt (c : N) : bool := negb (N.eqb c 62).

(** The pattern of line 117: white space, starred; [properties=`];
    any characters but the double quote, starred; [nav]; the same
    starred class again; the closing double quote. *)
Definition NAV_ATTR : Re.pattern :=
  Re.Star isspace :: Re.lit (py "properties=`")
  ++ Re.Star notdq :: Re.lit (py "nav")
  ++ Re.Star notdq :: Re.lit (py "`").

(** The pattern of line 121: [<spine]; as group 1, any characters but
    [>], starred; [>]. *)
Definition SPINE : Re.pattern :=
  Re.lit (py "<spine") ++ Re.Open :: Re.Star notgt :: Re.Close
  :: Re.lit (py ">").

(** Its replacement: [<spine], group 1, [ toc=`ncx`>]. *)
Definition SPINE_TOC : list Re.tpl :=
  [Re.TLit (py "<spine"); Re.TGroup1; Re.TLit (py " toc=`ncx`>")].

Definition item_ncx : pystr :=
  py "<item id=`ncx` href=`toc.ncx` media-type=`application/x-dtbncx+xml`/>".

Definition LF : N := 10.

(** Lines 116-117: the version and the navigation marker. *)
Definition downgrade (content : pystr) : pystr :=
  let content := Re.replace content (py "version=`3.0`") (py "version=`2.0`") in
  Re.sub NAV_ATTR [] content.

(** Lines 118-121: the manifest item and the spine attribute. *)
Definition register_ncx (content : pystr) : pystr :=
  if negb (contains content (py "toc.ncx")) then
    let content :=
      Re.replace content (py "</manifest>")
                 (item_ncx ++ LF :: py "</manifest>") in
    Re.sub SPINE SPINE_TOC content
  else content.

Definition patch_content (content : pystr) : pystr :=
  register_ncx (downgrade content).



(* ================================================================= *)
(** ** Exceptions *)

(** The Python exceptions that can escape [convert]. *)
Inductive exn : Type :=
| KeyError (name : pystr)            (* [ZipFile.read] of a name not in the archive *)
| XMLSyntaxError (data : bytes)      (* [etree.fromstring] on these bytes *)
| IndexError                         (* [[0]] on an empty list *)
| TypeError                          (* [Path / None] *)
| UnicodeDecodeError                 (* [bytes.decode('utf-8')] *)
| UnicodeEncodeError                 (* [str.encode('utf-8')] *)
| BadZipFile                         (* [zipfile]: a file that is no archive; a
                                        member with a damaged header or a
                                        wrong CRC *)
| RuntimeError                       (* [zipfile]: an encrypted member *)
| NotImplementedError                (* [zipfile]: a compression method that
                                        is not supported *)
| zlib_error                         (* [zlib.error]: a damaged deflate
                                        stream *)
| EOFError.                          (* [zipfile]: a truncated member *)

Definition result (A : Type) : Type := (exn + A)%type.

Definition ret {A} (a : A) : result A := inr a.
Definition raise {A} (e : exn) : result A := inl e.

Definition bind {A B} (m : result A) (k : A -> result B) : result B :=
  match m with
  | inl e => inl e
  | inr a => k a
  end.

Declare Scope exn_scope.
Delimit Scope exn_scope with exn.
Notation "x <- m ;; k" := (bind m (fun x => k))
  (at level 61, m at next level, right associativity) : exn_scope.
Notation "' p <- m ;; k" := (bind m (fun p => k))
  (at level 61, p pattern, m at next level, right associativity) : exn_scope.

(* ================================================================= *)
(** ** The UTF-8 codec *)

Module Utf8.

Local Open Scope N_scope.

Definition cont (b : N) : bool := (128 <=? b) && (b <=? 191).

(** [data.decode('utf-8')], strict: overlong forms, surrogates and code
    points above U+10FFFF are refused. *)
Fixpoint decode_opt (bs : bytes) : option pystr :=
  match bs with
  | [] => Some []
  | b0 :: r0 =>
      if b0 <? 128 then option_map (cons b0) (decode_opt r0)
      else if (194 <=? b0) && (b0 <=? 223) then
        match r0 with
        | b1 :: r1 =>
            if cont b1
            then option_map (cons ((b0 - 192) * 64 + (b1 - 128)))
                            (decode_opt r1)
            else None
        | _ => None
        end
      else if (224 <=? b0) && (b0 <=? 239) then
        match r0 with
        | b1 :: b2 :: r2 =>
            if cont b1 && cont b2
               && (negb (b0 =? 224) || (160 <=? b1))
               && (negb (b0 =? 237) || (b1 <=? 159))
            then option_map
                   (cons ((b0 - 224) * 4096 + (b1 - 128) * 64 + (b2 - 128)))
                   (decode_opt r2)
            else None
        | _ => None
        end
      else if (240 <=? b0) && (b0 <=? 244) then
        match r0 with
        | b1 :: b2 :: b3 :: r3 =>
            if cont b1 && cont b2 && cont b3
               && (negb (b0 =? 240) || (144 <=? b1))
               && (negb (b0 =? 244) || (b1 <=? 143))
            then option_map
                   (cons ((b0 - 240) * 262144 + (b1 - 128) * 4096
                          + (b2 - 128) * 64 + (b3 - 128)))
                   (decode_opt r3)
            else None
        | _ => None
        end
      else None
  end.

Definition decode (bs : bytes) : result pystr :=
  match decode_opt bs with
  | Some s => ret s
  | None => raise UnicodeDecodeError
  end.

Definition encode_char (c : N) : option bytes :=
  if c <? 128 then Some [c]
  else if c <? 2048 then Some [192 + c / 64; 128 + c mod 64]
  else if c <? 65536 then
    if (55296 <=? c) && (c <=? 57343) then None
    else Some [224 + c / 4096; 128 + (c / 64) mod 64; 128 + c mod 64]
  else if c <? 1114112 then
    Some [240 + c / 262144; 128 + (c / 4096) mod 64;
          128 + (c / 64) mod 64; 128 + c mod 64]
  else None.

Fixpoint encode_opt (s : pystr) : option bytes :=
  match s with
  | [] => Some []
  | c :: s' =>
      match encode_char c, encode_opt s' with
      | Some b, Some bs => Some (b ++ bs)
      | _, _ => None
      end
  end.

(** [s.encode('utf-8')] *)
Definition encode (s : pystr) : result bytes :=
  match encode_opt s with
  | Some b => ret b
  | None => raise UnicodeEncodeError
  end.

End Utf8.


(* ================================================================= *)
(** ** [pathlib.Path], POSIX flavour *)

Module Path.

Local Open Scope N_scope.

Definition SLASH : N := 47.

(** A path is its root ([], [/] or [//]) and its components, from
    which empty ones and [.] have been dropped. *)
Record t : Type := Make { root : pystr; parts : list pystr }.

Fixpoint leading_slashes (s : pystr) : nat :=
  match s with
  | c :: s' => if c =? SLASH then S (leading_slashes s') else O
  | [] => O
  end.

Definition splitroot (s : pystr) : pystr :=
  match leading_slashes s with
  | O => []
  | 2%nat => [SLASH; SLASH]
  | _ => [SLASH]
  end.

Definition is_part (x : pystr) : bool :=
  negb (str_eqb x []) && negb (str_eqb x (py ".")).

(** [Path(s)] *)
Definition of_str (s : pystr) : t :=
  Make (splitroot s) (filter is_part (split SLASH s)).

(** [p / s] for a string [s]: an absolute [s] replaces [p]. *)
Definition join_str (p : t) (s : pystr) : t :=
  let q := of_str s in
  match root q with
  | [] => Make (root p) (parts p ++ parts q)
  | _ => q
  end.

(** [p / s] where [s] may be [None] *)
Definition truediv (p : t) (s : option pystr) : result t :=
  match s with
  | Some s => ret (join_str p s)
  | None => raise TypeError
  end.

(** [p.name] *)
Definition name (p : t) : pystr := last (parts p) [].

(** [p.parent] *)
Definition parent (p : t) : t := Make (root p) (removelast (parts p)).

(** [p.as_posix()] *)
Definition as_posix (p : t) : pystr :=
  match root p, parts p with
  | [], [] => py "."
  | r, ps => r ++ join [SLASH] ps
  end.

End Path.


(* ================================================================= *)
(** ** Element trees and the XPath queries of the source *)

Module Xml.

(** A qualified name: namespace URI and local name. *)
Definition qname : Type := (pystr * pystr)%type.

Definition qname_eqb (a b : qname) : bool :=
  str_eqb (fst a) (fst b) && str_eqb (snd a) (snd b).

(** A parsed document: elements with their attributes and their child
    nodes in document order; text; comments and processing
    instructions. *)
Inductive Node : Type :=
| Element (tag : qname) (attrib : list (qname * pystr)) (children : list Node)
| Text (s : pystr)
| Comment (s : pystr).

Definition children_of (n : Node) : list Node :=
  match n with
  | Element _ _ cs => cs
  | _ => []
  end.

Definition is_tag (q : qname) (n : Node) : bool :=
  match n with
  | Element t _ _ => qname_eqb t q
  | _ => false
  end.

Fixpoint lookup (q : qname) (l : list (qname * pystr)) : option pystr :=
  match l with
  | [] => None
  | (k, v) :: l' => if qname_eqb k q then Some v else lookup q l'
  end.

(** The attribute [q] of a node, if it is an element that has it. *)
Definition attr (q : qname) (n : Node) : option pystr :=
  match n with
  | Element _ a _ => lookup q a
  | _ => None
  end.

(** [el.get(name)] for a name without namespace *)
Definition get (n : Node) (name : pystr) : option pystr := attr ([], name) n.

(** [el.xpath('./q')]: the child elements named [q] *)
Definition child (q : qname) (n : Node) : list Node :=
  filter (is_tag q) (children_of n).

(** [el.xpath('//q')]: the elements of the document named [q], in
    document order ([n] is the root element). *)
Fixpoint descendant (q : qname) (n : Node) : list Node :=
  match n with
  | Element _ _ cs =>
      (if is_tag q n then [n] else []) ++ flat_map (descendant q) cs
  | _ => []
  end.

(** [el.xpath('//q/text()')]: the text children of the elements named
    [q], in document order. *)
Fixpoint text_of (q : qname) (n : Node) : list pystr :=
  match n with
  | Element _ _ cs =>
      flat_map (fun c => match c with
                         | Text s => if is_tag q n then [s] else []
                         | _ => text_of q c
                         end) cs
  | _ => []
  end.

(** [''.join(el.itertext())]: the text inside an element. *)
Fixpoint itertext (n : Node) : pystr :=
  match n with
  | Element _ _ cs => flat_map itertext cs
  | Text s => s
  | Comment _ => []
  end.

(** [for x in el.xpath('./q'): ...], where the body gives an item,
    goes on to the next child ([None]) or raises. *)
Definition for_child {A} (q : qname) (body : Node -> result (option A))
           (n : Node) : result (list A) :=
  match n with
  | Element _ _ cs =>
      (fix loop (cs : list Node) : result (list A) :=
         match cs with
         | [] => ret []
         | x :: cs' =>
             if is_tag q x then
               match body x with
               | inl e => inl e
               | inr None => loop cs'
               | inr (Some a) =>
                   match loop cs' with
                   | inl e => inl e
                   | inr l => inr (a :: l)
                   end
               end
             else loop cs'
         end) cs
  | _ => ret []
  end.

(** [k(l[0]) if l else d] for [l = el.xpath('./q')] *)
Definition first_child {A} (q : qname) (k : Node -> A) (d : A) (n : Node) : A :=
  match n with
  | Element _ _ cs =>
      (fix find (cs : list Node) : A :=
         match cs with
         | [] => d
         | x :: cs' => if is_tag q x then k x else find cs'
         end) cs
  | _ => d
  end.

End Xml.
Import Xml.

(** [NAMESPACES] (lines 20-27) *)
Module NS.
Definition n := py "urn:oasis:names:tc:opendocument:xmlns:container".
Definition opf := py "http://www.idpf.org/2007/opf".
Definition xhtml := py "http://www.w3.org/1999/xhtml".
Definition epub := py "http://www.idpf.org/2007/ops".
Definition dc := py "http://purl.org/dc/elements/1.1/".
Definition ncx := py "http://www.daisy.org/z3986/2005/ncx/".
End NS.

(* ================================================================= *)
(** ** The navigation tree *)

(** An item of [_parse_nav_level]: the dictionary with the keys
    [text], [src] and [children].  [src] is [None] when the anchor has
    no [href] and the path is not joined. *)
Inductive NavItem : Type :=
| Item (text : pystr) (src : option pystr) (children : list NavItem).


(** Line 47: [(nav_rel_dir / href).as_posix() if nav_rel_dir.name else href] *)
Definition resolve_src (nav_rel_dir : Path.t) (href : option pystr)
  : result (option pystr) :=
  match Path.name nav_rel_dir with
  | _ :: _ =>
      (p <- Path.truediv nav_rel_dir href ;;
       ret (Some (Path.as_posix p)))%exn
  | [] => ret href
  end.

(** [_parse_nav_level] (lines 37-53) *)
Fixpoint _parse_nav_level (nav_rel_dir : Path.t) (element : Node)
  {struct element} : result (list NavItem) :=
  for_child (NS.xhtml, py "li")
    (fun li =>
       match child (NS.xhtml, py "a") li with
       | [] => ret None
       | anchor :: _ =>
           let text := strip (itertext anchor) in
           let href := get anchor (py "href") in
           (src <- resolve_src nav_rel_dir href ;;
            children <- first_child (NS.xhtml, py "ol")
                          (_parse_nav_level nav_rel_dir) (ret []) li ;;
            ret (Some (Item text src children)))%exn
       end)
    element.

(* ================================================================= *)
(** ** The NCX synthesizer *)

(** The converter object: its only attribute is the play-order counter
    (line 30). *)
Record EpubConverter : Type := Converter { _play_order : nat }.

(** [f"{x}"] for the [src] of an item *)
Definition format_src (src : option pystr) : pystr :=
  match src with
  | Some s => s
  | None => py "None"
  end.

(** The [for] loop of [_build_ncx_points] over a body [point]; the
    counter goes from one item to the next. *)
Definition build_loop (point : NavItem -> nat -> pystr * nat)
  : list NavItem -> nat -> pystr * nat :=
  fix loop (nav_items : list NavItem) (play_order : nat) : pystr * nat :=
    match nav_items with
    | [] => ([], play_order)
    | item :: rest =>
        let '(xml, play_order) := point item play_order in
        let '(xmls, play_order) := loop rest play_order in
        (xml ++ xmls, play_order)
    end.

(** The body of the loop (lines 59-67): one navigation point, with the
    points of its children inside. *)
Fixpoint build_point (item : NavItem) (play_order : nat) {struct item}
  : pystr * nat :=
  match item with
  | Item text src children =>
      let p_id := py "nav_" ++ str_of_int play_order in
      let xml := py "<navPoint id=`" ++ p_id ++ py "` playOrder=`"
                 ++ str_of_int play_order ++ py "`>" ++ [LF] in
      let xml := xml ++ py "  <navLabel><text>" ++ text
                 ++ py "</text></navLabel>" ++ [LF] in
      let xml := xml ++ py "  <content src=`" ++ format_src src
                 ++ py "`/>" ++ [LF] in
      let play_order := play_order + 1 in
      let '(xml, play_order) :=
        match children with
        | [] => (xml, play_order)
        | _ :: _ =>
            let '(sub, play_order) :=
              build_loop build_point children play_order in
            (xml ++ sub, play_order)
        end in
      (xml ++ py "</navPoint>" ++ [LF], play_order)
  end.

(** [_build_ncx_points] (lines 55-68): the XML of the points and the
    counter it leaves in [self._play_order]. *)
Definition _build_ncx_points (nav_items : list NavItem) (play_order : nat)
  : pystr * nat :=
  build_loop build_point nav_items play_order.

(** The example of the spec: Ch1, Ch2 with the child Ch2.1. *)
Definition spec_nav : list NavItem :=
  [Item (py "Ch1") (Some (py "c1.xhtml")) [];
   Item (py "Ch2") (Some (py "c2.xhtml"))
        [Item (py "Ch2.1") (Some (py "c2.xhtml#a")) []]].


(* ================================================================= *)
(** ** Archives *)

(** [ZipInfo.compress_type] is a number; [zipfile] supports four
    methods, and [ZIP_OTHER] stands for every other number. *)
Inductive Compression : Type :=
| ZIP_STORED | ZIP_DEFLATED | ZIP_BZIP2 | ZIP_LZMA
| ZIP_OTHER (method : N).

(** [zipfile._check_compression] *)
Definition supported (c : Compression) : bool :=
  match c with
  | ZIP_OTHER _ => false
  | _ => true
  end.

(** A member of an archive: its [ZipInfo] and its content.  [fault] is
    the exception that [zipfile] raises when the member is opened and
    read, if it raises one before it looks at the compression method
    or while it decompresses: among them [BadZipFile] (damaged header,
    wrong CRC), [RuntimeError] (encrypted member), [zlib.error],
    [EOFError]. *)
Record ZipInfo : Type := ZipMember {
  filename : pystr;
  data : bytes;
  compress_type : Compression;
  fault : option exn
}.

(** A member that can be read. *)
Abbreviation Entry n d c := (ZipMember n d c None).

(** An archive is the list of its entries, in the order of
    [infolist()]. *)
Definition ZipFile : Type := list ZipInfo.

Definition namelist (z : ZipFile) : list pystr := map filename z.

(** [name in z.namelist()] *)
Definition has_name (z : ZipFile) (name : pystr) : bool :=
  existsb (str_eqb name) (namelist z).

(** [getinfo]: of several entries of one name the last one is found. *)
Definition getinfo (z : ZipFile) (name : pystr) : option ZipInfo :=
  find (fun e => str_eqb (filename e) name) (rev z).

(** Opening a member and reading it to its end. *)
Definition read_entry (e : ZipInfo) : result bytes :=
  match fault e with
  | Some err => raise err
  | None =>
      if supported (compress_type e) then ret (data e)
      else raise NotImplementedError
  end.

(** [z.read(name)]: [KeyError] for a name that is not listed. *)
Definition read (z : ZipFile) (name : pystr) : result bytes :=
  match getinfo z name with
  | Some e => read_entry e
  | None => raise (KeyError name)
  end.

(** [zout.writestr(name, data)]: a new entry, compressed as the archive
    was opened ([ZIP_DEFLATED]) unless said otherwise. *)
Definition writestr (zout : ZipFile) (name : pystr) (d : bytes)
           (c : Compression) : ZipFile :=
  zout ++ [Entry name d c].

(** Writing to the output archive: the entries written so far are the
    state, and they stay when an exception escapes. *)
Definition W (A : Type) : Type := ZipFile -> result A * ZipFile.

Definition wret {A} (a : A) : W A := fun z => (inr a, z).

Definition wbind {A B} (m : W A) (k : A -> W B) : W B :=
  fun z => match m z with
           | (inl e, z') => (inl e, z')
           | (inr a, z') => k a z'
           end.

Definition lift {A} (r : result A) : W A := fun z => (r, z).

Definition emit (f : ZipFile -> ZipFile) : W unit := fun z => (inr tt, f z).

(** [zout.writestr(item, data)]: the [ZipInfo] of the input is kept,
    and [zipfile] refuses a compression method that it does not
    support, before it writes anything. *)
Definition writestr_info (item : ZipInfo) (d : bytes) : W unit :=
  fun zout =>
    if supported (compress_type item) then
      (inr tt, zout ++ [Entry (filename item) d (compress_type item)])
    else (inl NotImplementedError, zout).

Declare Scope w_scope.
Delimit Scope w_scope with W.
Notation "x <~ m ;; k" := (wbind m (fun x => k))
  (at level 61, m at next level, right associativity) : w_scope.
Notation "m ;;; k" := (wbind m (fun _ => k))
  (at level 61, right associativity) : w_scope.

(* ================================================================= *)
(** ** [convert] (lines 70-125) *)

Definition CONTAINER : pystr := py "META-INF/container.xml".
Definition MIMETYPE : pystr := py "mimetype".

(** Line 86: [contains(@properties, `nav`)] *)
Definition is_nav_item (e : Node) : bool :=
  contains (match get e (py "properties") with Some v => v | None => [] end)
           (py "nav").

(** Line 92: [@epub:type=`toc`] *)
Definition is_toc_nav (e : Node) : bool :=
  match attr (NS.epub, py "type") e with
  | Some v => str_eqb v (py "toc")
  | None => false
  end.

(** Lines 101-105 *)
Definition ncx_document (title doc_author ncx_content : pystr) : pystr :=
  py "<?xml version=`1.0` encoding=`UTF-8`?>" ++ LF ::
  py "<ncx xmlns=`http://www.daisy.org/z3986/2005/ncx/` version=`2005-1`>" ++ LF ::
  py "<head><meta name=`dtb:uid` content=`auto-gen`/><meta name=`dtb:depth` content=`3`/></head>" ++ LF ::
  py "<docTitle><text>" ++ title ++ py "</text></docTitle>" ++ doc_author ++ LF ::
  py "<navMap>" ++ LF :: ncx_content ++ py "</navMap></ncx>".

(** Lines 111-124: the loop over the entries of the input. *)
Fixpoint copy_items (zin : ZipFile) (opf_name : pystr) (items : list ZipInfo)
  : W unit :=
  match items with
  | [] => wret tt
  | item :: items' =>
      if str_eqb (filename item) MIMETYPE then copy_items zin opf_name items'
      else
        (d <~ lift (read zin (filename item)) ;;
         (if str_eqb (filename item) opf_name then
            (content <~ lift (Utf8.decode d) ;;
             b <~ lift (Utf8.encode (patch_content content)) ;;
             emit (fun z => writestr z (filename item) b ZIP_DEFLATED))
          else writestr_info item d) ;;;
         copy_items zin opf_name items')%W
  end.

(** Lines 109-125: what is written between the opening and the closing
    of the output archive. *)
Definition write_archive (zin : ZipFile) (opf_path : Path.t) (ncx_str : pystr)
  : W unit :=
  ((if has_name zin MIMETYPE then
      (d <~ lift (read zin MIMETYPE) ;;
       emit (fun z => writestr z MIMETYPE d ZIP_STORED))
    else wret tt) ;;;
   copy_items zin (Path.as_posix opf_path) zin ;;;
   b <~ lift (Utf8.encode ncx_str) ;;
   emit (fun z => writestr z
     (Path.as_posix (Path.join_str (Path.parent opf_path) (py "toc.ncx")))
     b ZIP_DEFLATED))%W.

Section Convert.

(** [etree.fromstring]: the element tree of a document, or [None] where
    lxml raises [XMLSyntaxError]. *)
Variable fromstring : bytes -> option Node.

Definition parse (b : bytes) : result Node :=
  match fromstring b with
  | Some n => ret n
  | None => raise (XMLSyntaxError b)
  end.

(** [_get_metadata] (lines 32-35) *)
Definition _get_metadata (opf_xml : Node) (tag : pystr) : pystr :=
  match text_of (NS.dc, tag) opf_xml with
  | r :: _ => strip r
  | [] => []
  end.

(** Line 77: the values of [//n:rootfile/@full-path] *)
Definition rootfile_paths (container_xml : Node) : list pystr :=
  flat_map (fun e => match get e (py "full-path") with
                     | Some v => [v]
                     | None => []
                     end)
           (descendant (NS.n, py "rootfile") container_xml).

(** Lines 74-78: the path of the package document. *)
Definition package_path (zin : ZipFile) : result Path.t :=
  (d <- read zin CONTAINER ;;
   container_xml <- parse d ;;
   match rootfile_paths container_xml with
   | [] => raise IndexError
   | opf_rel_path :: _ => ret (Path.of_str opf_rel_path)
   end)%exn.

(** Lines 85-96: the navigation tree. *)
Definition nav_points_of (zin : ZipFile) (opf_path : Path.t) (opf_xml : Node)
  : result (list NavItem) :=
  match filter is_nav_item (descendant (NS.opf, py "item") opf_xml) with
  | [] => ret []
  | nav_meta0 :: _ =>
      match get nav_meta0 (py "href") with
      | None => raise TypeError
      | Some nav_href =>
          let nav_full_path :=
            Path.as_posix (Path.join_str (Path.parent opf_path) nav_href) in
          (d <- read zin nav_full_path ;;
           nav_xml <- parse d ;;
           let navs := descendant (NS.xhtml, py "nav") nav_xml in
           let nav_node :=
             match filter is_toc_nav navs with
             | [] => navs
             | l => l
             end in
           match nav_node with
           | [] => ret []
           | nav0 :: _ =>
               match child (NS.xhtml, py "ol") nav0 with
               | [] => ret []
               | ol_node :: _ =>
                   _parse_nav_level (Path.parent (Path.of_str nav_href)) ol_node
               end
           end)%exn
      end
  end.

(** Lines 74-96: everything that is read before the output is opened. *)
Definition read_input (zin : ZipFile)
  : result (Path.t * pystr * pystr * list NavItem) :=
  (opf_path <- package_path zin ;;
   d <- read zin (Path.as_posix opf_path) ;;
   opf_xml <- parse d ;;
   let title := match _get_metadata opf_xml (py "title") with
                | [] => py "Untitled"
                | t => t
                end in
   let author := _get_metadata opf_xml (py "creator") in
   nav_points <- nav_points_of zin opf_path opf_xml ;;
   ret (opf_path, title, author, nav_points))%exn.

(** [convert(input_path, output_path)].  [zin] is the archive at
    [input_path]; [out] is what is at [output_path] before the call
    ([None]: no file), a different file from the input.  The answer is
    the outcome of the call, the converter after it, and what is at
    [output_path] after it. *)
Definition convert (self : EpubConverter) (zin : ZipFile) (out : option ZipFile)
  : result unit * EpubConverter * option ZipFile :=
  let self := Converter 1 in
  match read_input zin with
  | inl e => (inl e, self, out)
  | inr (opf_path, title, author, nav_points) =>
      let '(ncx_content, play_order) :=
        _build_ncx_points nav_points (_play_order self) in
      let self := Converter play_order in
      let doc_author :=
        match author with
        | [] => []
        | _ => py "<docAuthor><text>" ++ author ++ py "</text></docAuthor>"
        end in
      let ncx_str := ncx_document title doc_author ncx_content in
      let '(r, zout) := write_archive zin opf_path ncx_str [] in
      (r, self, Some zout)
  end.

End Convert.

(* ================================================================= *)
(** ** Play-order numbering *)

Section NavItemInduction.

Variable P : NavItem -> Prop.
Hypothesis P_item : forall text src children,
    Forall P children -> P (Item text src children).

Fixpoint NavItem_forall_ind (i : NavItem) : P i :=
  match i with
  | Item text src children =>
      P_item text src
        ((fix all (l : list NavItem) : Forall P l :=
            match l with
            | [] => Forall_nil P
            | x :: r => Forall_cons x (NavItem_forall_ind x) (all r)
            end) children)
  end.

End NavItemInduction.

(** A navigation point of the NCX: an item with the play order it was
    given. *)
Inductive NavPoint : Type :=
| Point (playOrder : nat) (label : pystr) (src : option pystr)
        (subs : list NavPoint).

Definition playOrder_of (p : NavPoint) := let 'Point n _ _ _ := p in n.
Definition subs_of (p : NavPoint) := let 'Point _ _ _ s := p in s.

Section NavPointInduction.

Variable P : NavPoint -> Prop.
Hypothesis P_point : forall n label src subs,
    Forall P subs -> P (Point n label src subs).

Fixpoint NavPoint_forall_ind (p : NavPoint) : P p :=
  match p with
  | Point n label src subs =>
      P_point n label src
        ((fix all (l : list NavPoint) : Forall P l :=
            match l with
            | [] => Forall_nil P
            | x :: r => Forall_cons x (NavPoint_forall_ind x) (all r)
            end) subs)
  end.

End NavPointInduction.

(** The numbering that [_build_ncx_points] performs while it writes:
    the same traversal with the same counter, keeping the numbers. *)
Definition number_loop (point : NavItem -> nat -> NavPoint * nat)
  : list NavItem -> nat -> list NavPoint * nat :=
  fix loop (nav_items : list NavItem) (play_order : nat) :=
    match nav_items with
    | [] => ([], play_order)
    | item :: rest =>
        let '(p, play_order) := point item play_order in
        let '(ps, play_order) := loop rest play_order in
        (p :: ps, play_order)
    end.

Fixpoint number_point (item : NavItem) (play_order : nat) {struct item}
  : NavPoint * nat :=
  match item with
  | Item text src children =>
      let '(subs, next) :=
        number_loop number_point children (play_order + 1) in
      (Point play_order text src subs, next)
  end.

Definition number_points : list NavItem -> nat -> list NavPoint * nat :=
  number_loop number_point.

(** The XML of numbered points. *)
Fixpoint render_point (p : NavPoint) : pystr :=
  match p with
  | Point n label src subs =>
      py "<navPoint id=`" ++ (py "nav_" ++ str_of_int n) ++ py "` playOrder=`"
      ++ str_of_int n ++ py "`>" ++ [LF]
      ++ py "  <navLabel><text>" ++ label ++ py "</text></navLabel>" ++ [LF]
      ++ py "  <content src=`" ++ format_src src ++ py "`/>" ++ [LF]
      ++ flat_map render_point subs
      ++ py "</navPoint>" ++ [LF]
  end.

Definition render (points : list NavPoint) : pystr :=
  flat_map render_point points.

(** Pre-order, depth first: an item, then its descendants, then the
    items after it. *)
Fixpoint preorder_item (i : NavItem) : list (pystr * option pystr) :=
  match i with
  | Item text src children => (text, src) :: flat_map preorder_item children
  end.

Definition preorder_items (l : list NavItem) := flat_map preorder_item l.

Definition count_items (l : list NavItem) : nat := length (preorder_items l).

Fixpoint preorder_point (p : NavPoint) : list (nat * (pystr * option pystr)) :=
  match p with
  | Point n label src subs => (n, (label, src)) :: flat_map preorder_point subs
  end.

Definition preorder_points (l : list NavPoint) := flat_map preorder_point l.

(** The play orders of a point and of its descendants. *)
Definition orders (p : NavPoint) : list nat := map fst (preorder_point p).

(** The points of a forest, at every depth. *)
Fixpoint points_of (p : NavPoint) : list NavPoint :=
  match p with
  | Point _ _ _ subs => p :: flat_map points_of subs
  end.

(** The sibling lists of a forest: the roots, and the children of each
    point. *)
Definition sibling_lists (roots : list NavPoint) : list (list NavPoint) :=
  roots :: map subs_of (flat_map points_of roots).

(** What [build_point] writes for an item is the rendering of its
    numbered point. *)
Definition renders (i : NavItem) : Prop :=
  forall n, build_point i n =
            (render_point (fst (number_point i n)), snd (number_point i n)).

(** The play orders of a forest are consecutive from [n], in
    pre-order. *)
Definition consecutive (n : nat) (points : list NavPoint) : Prop :=
  map fst (preorder_points points) = seq n (length (preorder_points points)).

(** The point of an item carries the numbers from [n] on, one for each
    item of its subtree in pre-order. *)
Definition numbers (i : NavItem) : Prop :=
  forall n,
    snd (number_point i n) = n + length (preorder_item i)
    /\ preorder_point (fst (number_point i n)) =
       combine (seq n (length (preorder_item i))) (preorder_item i).


(** In a point numbered consecutively every subtree is. *)
Definition points_consecutive (p : NavPoint) : Prop :=
  forall n, consecutive n [p] ->
  forall q, In q (points_of p) -> consecutive (playOrder_of q) [q].


(* ================================================================= *)
(** ** A small publication *)

(** The documents of a small EPUB 3 publication, each with the element
    tree that lxml builds for it, and the parser restricted to them. *)
Module Sample.

Definition A (name value : string) : qname * pystr := (([], py name), py value).

Definition container_xml : bytes :=
  py "<container xmlns=`urn:oasis:names:tc:opendocument:xmlns:container` version=`1.0`><rootfiles><rootfile full-path=`OEBPS/content.opf` media-type=`application/oebps-package+xml`/></rootfiles></container>".

Definition container_tree : Node :=
  Element (NS.n, py "container") [A "version" "1.0"]
    [Element (NS.n, py "rootfiles") []
       [Element (NS.n, py "rootfile")
          [A "full-path" "OEBPS/content.opf";
           A "media-type" "application/oebps-package+xml"] []]].

(** A descriptor that declares no root file. *)
Definition container_empty : bytes :=
  py "<container xmlns=`urn:oasis:names:tc:opendocument:xmlns:container` version=`1.0`><rootfiles/></container>".

Definition container_empty_tree : Node :=
  Element (NS.n, py "container") [A "version" "1.0"]
    [Element (NS.n, py "rootfiles") [] []].

Definition content_opf : bytes :=
  py "<package xmlns=`http://www.idpf.org/2007/opf` version=`3.0`><metadata xmlns:dc=`http://purl.org/dc/elements/1.1/`><dc:title>Book</dc:title></metadata><manifest><item id=`nav` href=`text/nav.xhtml` media-type=`application/xhtml+xml` properties=`nav`/><item id=`c1` href=`text/c1.xhtml` media-type=`application/xhtml+xml`/></manifest><spine><itemref idref=`c1`/></spine></package>".

Definition metadata_tree : Node :=
  Element (NS.opf, py "metadata") []
    [Element (NS.dc, py "title") [] [Text (py "Book")]].

Definition c1_item : Node :=
  Element (NS.opf, py "item")
    [A "id" "c1"; A "href" "text/c1.xhtml";
     A "media-type" "application/xhtml+xml"] [].

Definition itemref : Node :=
  Element (NS.opf, py "itemref") [A "idref" "c1"] [].

Definition content_tree : Node :=
  Element (NS.opf, py "package") [A "version" "3.0"]
    [metadata_tree;
     Element (NS.opf, py "manifest") []
       [Element (NS.opf, py "item")
          [A "id" "nav"; A "href" "text/nav.xhtml";
           A "media-type" "application/xhtml+xml"; A "properties" "nav"] [];
        c1_item];
     Element (NS.opf, py "spine") [] [itemref]].

Definition nav_xhtml : bytes :=
  py "<html xmlns=`http://www.w3.org/1999/xhtml` xmlns:epub=`http://www.idpf.org/2007/ops`><body><nav epub:type=`toc`><ol><li><a href=`c1.xhtml`>Ch1</a></li><li><a href=`c2.xhtml`>Ch2</a><a href=`notes.xhtml`>notes</a><ol><li><a href=`c2.xhtml#a`>Ch2.1</a></li></ol></li></ol></nav></body></html>".

Definition H (name : string) (attrib : list (qname * pystr))
           (children : list Node) : Node :=
  Element (NS.xhtml, py name) attrib children.

Definition anchor (href label : string) : Node :=
  H "a" [A "href" href] [Text (py label)].

(** The second list item has two anchors. *)
Definition li2 : Node :=
  H "li" [] [anchor "c2.xhtml" "Ch2"; anchor "notes.xhtml" "notes";
             H "ol" [] [H "li" [] [anchor "c2.xhtml#a" "Ch2.1"]]].

Definition toc_ol : Node :=
  H "ol" [] [H "li" [] [anchor "c1.xhtml" "Ch1"]; li2].

Definition nav_tree : Node :=
  H "html" []
    [H "body" [] [H "nav" [((NS.epub, py "type"), py "toc")] [toc_ol]]].

Definition c1_xhtml : bytes :=
  py "<html xmlns=`http://www.w3.org/1999/xhtml`><body><p>One</p></body></html>".

(** The package document as the first conversion leaves it. *)
Definition content_opf2 : bytes :=
  py "<package xmlns=`http://www.idpf.org/2007/opf` version=`2.0`><metadata xmlns:dc=`http://purl.org/dc/elements/1.1/`><dc:title>Book</dc:title></metadata><manifest><item id=`nav` href=`text/nav.xhtml` media-type=`application/xhtml+xml`/><item id=`c1` href=`text/c1.xhtml` media-type=`application/xhtml+xml`/><item id=`ncx` href=`toc.ncx` media-type=`application/x-dtbncx+xml`/>"
  ++ LF :: py "</manifest><spine toc=`ncx`><itemref idref=`c1`/></spine></package>".

Definition content_tree2 : Node :=
  Element (NS.opf, py "package") [A "version" "2.0"]
    [metadata_tree;
     Element (NS.opf, py "manifest") []
       [Element (NS.opf, py "item")
          [A "id" "nav"; A "href" "text/nav.xhtml";
           A "media-type" "application/xhtml+xml"] [];
        c1_item;
        Element (NS.opf, py "item")
          [A "id" "ncx"; A "href" "toc.ncx";
           A "media-type" "application/x-dtbncx+xml"] [];
        Text [LF]];
     Element (NS.opf, py "spine") [A "toc" "ncx"] [itemref]].

(** A package document in ISO-8859-1: the title is [Caf] and U+00E9,
    one byte in this encoding and not valid UTF-8. *)
Definition latin1_opf : bytes :=
  py "<?xml version=`1.0` encoding=`ISO-8859-1`?><package xmlns=`http://www.idpf.org/2007/opf` version=`3.0`><metadata xmlns:dc=`http://purl.org/dc/elements/1.1/`><dc:title>Caf"
  ++ 233%N :: py "</dc:title></metadata><manifest><item id=`c1` href=`text/c1.xhtml` media-type=`application/xhtml+xml`/></manifest><spine><itemref idref=`c1`/></spine></package>".

Definition latin1_tree : Node :=
  Element (NS.opf, py "package") [A "version" "3.0"]
    [Element (NS.opf, py "metadata") []
       [Element (NS.dc, py "title") [] [Text (py "Caf" ++ [233%N])]];
     Element (NS.opf, py "manifest") [] [c1_item];
     Element (NS.opf, py "spine") [] [itemref]].

(** A package document of version 3.0 that has an NCX already; the
    version and the navigation marker are written with single quotes. *)
Definition quoted_opf : bytes :=
  py "<package xmlns=`http://www.idpf.org/2007/opf` version='3.0'><manifest><item id=`nav` href=`nav.xhtml` media-type=`application/xhtml+xml` properties='nav'/><item id=`ncx` href=`toc.ncx` media-type=`application/x-dtbncx+xml`/></manifest><spine toc=`ncx`><itemref idref=`nav`/></spine></package>".

Definition quoted_tree : Node :=
  Element (NS.opf, py "package") [A "version" "3.0"]
    [Element (NS.opf, py "manifest") []
       [Element (NS.opf, py "item")
          [A "id" "nav"; A "href" "nav.xhtml";
           A "media-type" "application/xhtml+xml"; A "properties" "nav"] [];
        Element (NS.opf, py "item")
          [A "id" "ncx"; A "href" "toc.ncx";
           A "media-type" "application/x-dtbncx+xml"] []];
     Element (NS.opf, py "spine") [A "toc" "ncx"]
       [Element (NS.opf, py "itemref") [A "idref" "nav"] []]].

(** A package document without NCX, with a comment that mentions
    [toc.ncx]. *)
Definition commented_opf : bytes :=
  py "<package xmlns=`http://www.idpf.org/2007/opf` version=`3.0`><!-- toc.ncx is made by the build --><manifest><item id=`c1` href=`text/c1.xhtml` media-type=`application/xhtml+xml`/></manifest><spine><itemref idref=`c1`/></spine></package>".

Definition commented_tree : Node :=
  Element (NS.opf, py "package") [A "version" "3.0"]
    [Comment (py " toc.ncx is made by the build ");
     Element (NS.opf, py "manifest") [] [c1_item];
     Element (NS.opf, py "spine") [] [itemref]].

(** [etree.fromstring] on these documents; anything else is taken as
    not well formed. *)
Definition lxml (b : bytes) : option Node :=
  if str_eqb b container_xml then Some container_tree
  else if str_eqb b content_opf then Some content_tree
  else if str_eqb b nav_xhtml then Some nav_tree
  else if str_eqb b content_opf2 then Some content_tree2
  else if str_eqb b latin1_opf then Some latin1_tree
  else if str_eqb b container_empty then Some container_empty_tree
  else if str_eqb b quoted_opf then Some quoted_tree
  else if str_eqb b commented_opf then Some commented_tree
  else None.

Definition mimetype : bytes := py "application/epub+zip".

(** The publication; its [mimetype] entry is stored deflated. *)
Definition epub3 : ZipFile :=
  [Entry (py "META-INF/container.xml") container_xml ZIP_DEFLATED;
   Entry (py "mimetype") mimetype ZIP_DEFLATED;
   Entry (py "OEBPS/content.opf") content_opf ZIP_DEFLATED;
   Entry (py "OEBPS/text/nav.xhtml") nav_xhtml ZIP_DEFLATED;
   Entry (py "OEBPS/text/c1.xhtml") c1_xhtml ZIP_STORED].

(** The same with the package document in ISO-8859-1 and no navigation
    document. *)
Definition epub3_latin1 : ZipFile :=
  [Entry (py "mimetype") mimetype ZIP_STORED;
   Entry (py "META-INF/container.xml") container_xml ZIP_DEFLATED;
   Entry (py "OEBPS/content.opf") latin1_opf ZIP_DEFLATED;
   Entry (py "OEBPS/text/c1.xhtml") c1_xhtml ZIP_DEFLATED].

(** Three archives without a usable descriptor: none, one that is not
    XML, one without root file. *)
Definition no_container : ZipFile :=
  [Entry (py "mimetype") mimetype ZIP_STORED].

Definition bad_container : ZipFile :=
  [Entry (py "mimetype") mimetype ZIP_STORED;
   Entry (py "META-INF/container.xml") (py "<container") ZIP_DEFLATED].

Definition empty_container : ZipFile :=
  [Entry (py "mimetype") mimetype ZIP_STORED;
   Entry (py "META-INF/container.xml") container_empty ZIP_DEFLATED].

Definition toc_ncx : bytes :=
  py "<?xml version=`1.0` encoding=`UTF-8`?>" ++ LF ::
  py "<ncx xmlns=`http://www.daisy.org/z3986/2005/ncx/` version=`2005-1`>" ++ LF ::
  py "<head><meta name=`dtb:uid` content=`auto-gen`/><meta name=`dtb:depth` content=`3`/></head>" ++ LF ::
  py "<docTitle><text>Book</text></docTitle>" ++ LF ::
  py "<navMap>" ++ LF ::
  py "<navPoint id=`nav_1` playOrder=`1`>" ++ LF ::
  py "  <navLabel><text>Ch1</text></navLabel>" ++ LF ::
  py "  <content src=`text/c1.xhtml`/>" ++ LF ::
  py "</navPoint>" ++ LF ::
  py "<navPoint id=`nav_2` playOrder=`2`>" ++ LF ::
  py "  <navLabel><text>Ch2</text></navLabel>" ++ LF ::
  py "  <content src=`text/c2.xhtml`/>" ++ LF ::
  py "<navPoint id=`nav_3` playOrder=`3`>" ++ LF ::
  py "  <navLabel><text>Ch2.1</text></navLabel>" ++ LF ::
  py "  <content src=`text/c2.xhtml#a`/>" ++ LF ::
  py "</navPoint>" ++ LF ::
  py "</navPoint>" ++ LF ::
  py "</navMap></ncx>".

(** The NCX of the second conversion: the navigation marker is gone
    from the package document, and the map is empty. *)
Definition toc_ncx2 : bytes :=
  py "<?xml version=`1.0` encoding=`UTF-8`?>" ++ LF ::
  py "<ncx xmlns=`http://www.daisy.org/z3986/2005/ncx/` version=`2005-1`>" ++ LF ::
  py "<head><meta name=`dtb:uid` content=`auto-gen`/><meta name=`dtb:depth` content=`3`/></head>" ++ LF ::
  py "<docTitle><text>Book</text></docTitle>" ++ LF ::
  py "<navMap>" ++ LF ::
  py "</navMap></ncx>".

(** What the first conversion writes. *)
Definition epub2 : ZipFile :=
  [Entry (py "mimetype") mimetype ZIP_STORED;
   Entry (py "META-INF/container.xml") container_xml ZIP_DEFLATED;
   Entry (py "OEBPS/content.opf") content_opf2 ZIP_DEFLATED;
   Entry (py "OEBPS/text/nav.xhtml") nav_xhtml ZIP_DEFLATED;
   Entry (py "OEBPS/text/c1.xhtml") c1_xhtml ZIP_STORED;
   Entry (py "OEBPS/toc.ncx") toc_ncx ZIP_DEFLATED].

(** The publication with two entries named [OEBPS/text/c1.xhtml]: a
    first text, stored, and a later one, deflated. *)
Definition c1_later : bytes :=
  py "<html xmlns=`http://www.w3.org/1999/xhtml`><body><p>Later</p></body></html>".

Definition epub3_twice : ZipFile :=
  epub3 ++ [Entry (py "OEBPS/text/c1.xhtml") c1_later ZIP_DEFLATED].

(** The publication with a chapter whose CRC is wrong. *)
Definition epub3_damaged : ZipFile :=
  [Entry (py "mimetype") mimetype ZIP_STORED;
   Entry (py "META-INF/container.xml") container_xml ZIP_DEFLATED;
   Entry (py "OEBPS/text/nav.xhtml") nav_xhtml ZIP_DEFLATED;
   ZipMember (py "OEBPS/text/c1.xhtml") c1_xhtml ZIP_DEFLATED
             (Some BadZipFile);
   Entry (py "OEBPS/content.opf") content_opf ZIP_DEFLATED].

End Sample.

(** The navigation tree of the small publication. *)
Definition spec_nav_resolved : list NavItem :=
  [Item (py "Ch1") (Some (py "text/c1.xhtml")) [];
   Item (py "Ch2") (Some (py "text/c2.xhtml"))
        [Item (py "Ch2.1") (Some (py "text/c2.xhtml#a")) []]].

(* ================================================================= *)
(** ** Notions used in the statements *)

(** The entry that the loop of lines 111-124 writes for an entry of
    the input other than [mimetype]. *)
Definition written (zin : ZipFile) (opf_name : pystr) (item : ZipInfo)
  : result ZipInfo :=
  (d <- read zin (filename item) ;;
   if str_eqb (filename item) opf_name then
     (content <- Utf8.decode d ;;
      b <- Utf8.encode (patch_content content) ;;
      ret (Entry (filename item) b ZIP_DEFLATED))
   else if supported (compress_type item) then
     ret (Entry (filename item) d (compress_type item))
   else raise NotImplementedError)%exn.

Definition is_mimetype (item : ZipInfo) : bool :=
  str_eqb (filename item) MIMETYPE.

(** The name of the navigation file: [toc.ncx] beside the package
    document. *)
Definition toc_name (opf_path : Path.t) : pystr :=
  Path.as_posix (Path.join_str (Path.parent opf_path) (py "toc.ncx")).

(** The entry written first when the input has a [mimetype]. *)
Definition mimetype_head (zin : ZipFile) : ZipFile :=
  if has_name zin MIMETYPE then
    match read zin MIMETYPE with
    | inr d => [Entry MIMETYPE d ZIP_STORED]
    | inl _ => []
    end
  else [].


(** The NCX document of lines 99-105, for a counter that starts at 1. *)
Definition ncx_string (title author : pystr) (nav_points : list NavItem)
  : pystr :=
  ncx_document title
    (match author with
     | [] => []
     | _ => py "<docAuthor><text>" ++ author ++ py "</text></docAuthor>"
     end)
    (fst (_build_ncx_points nav_points 1)).

(** The number of entries of an archive under a name. *)
Definition count_name (z : ZipFile) (name : pystr) : nat :=
  length (filter (fun e => str_eqb (filename e) name) z).

(* ================================================================= *)
(** ** Substitution, declaratively *)

Section Rewriting.

(** [redex m new]: [m] is an occurrence and [new] what replaces it. *)
Variable redex : pystr -> pystr -> Prop.

(** [Rewritten s t]: [t] is [s] with the occurrences replaced, from
    left to right and without overlap.  A character is copied exactly
    where no occurrence starts; where one starts it is replaced whole,
    and the text goes on behind it. *)
Inductive Rewritten : pystr -> pystr -> Prop :=
| rw_nil : Rewritten [] []
| rw_keep c s t :
    (forall m new rest, redex m new -> c :: s <> m ++ rest) ->
    Rewritten s t ->
    Rewritten (c :: s) (c :: t)
| rw_step m new s t :
    redex m new -> m <> [] ->
    Rewritten s t ->
    Rewritten (m ++ s) (new ++ t).

End Rewriting.

(** The four substitutions of the patcher. *)

(** Line 116: the text [version=`3.0`] becomes [version=`2.0`]. *)
Definition version_redex (m new : pystr) : Prop :=
  m = py "version=`3.0`" /\ new = py "version=`2.0`".

(** Line 117: white space, then [properties=`v`] where [v] has no
    double quote and contains [nav], is deleted. *)
Definition nav_attr_redex (m new : pystr) : Prop :=
  exists ws v,
    m = ws ++ py "properties=`" ++ v ++ py "`"
    /\ forallb isspace ws = true
    /\ forallb notdq v = true
    /\ contains v (py "nav") = true
    /\ new = [].

(** Line 120: the item goes in front of [</manifest>]. *)
Definition manifest_redex (m new : pystr) : Prop :=
  m = py "</manifest>" /\ new = item_ncx ++ LF :: py "</manifest>".

(** Line 121: a tag [<spine attrs>] gets [ toc=`ncx`] at its end. *)
Definition spine_redex (m new : pystr) : Prop :=
  exists attrs,
    m = py "<spine" ++ attrs ++ py ">"
    /\ forallb notgt attrs = true
    /\ new = py "<spine" ++ attrs ++ py " toc=`ncx`>".

(** What [find] answers at a position is an occurrence at this
    position, and it answers wherever there is one. *)
Definition finds (redex : pystr -> pystr -> Prop)
           (find : pystr -> option (nat * pystr)) : Prop :=
  (forall s n new, find s = Some (n, new) ->
                   n <> 0 /\ n <= length s /\ redex (firstn n s) new)
  /\ (forall s, find s = None ->
                forall m new rest, redex m new -> s <> m ++ rest).

(** The manifest items of a package document whose [href] contains
    [name]. *)
Definition manifest_refs (opf_xml : Node) (name : pystr) : list Node :=
  filter (fun e => contains (match get e (py "href") with
                             | Some h => h
                             | None => []
                             end) name)
         (descendant (NS.opf, py "item") opf_xml).

(** The body of the loop of [_parse_nav_level] (lines 41-52), for one
    list item. *)
Definition parse_item (nav_rel_dir : Path.t) (li : Node)
  : result (option NavItem) :=
  match child (NS.xhtml, py "a") li with
  | [] => ret None
  | anchor :: _ =>
      let text := strip (itertext anchor) in
      let href := get anchor (py "href") in
      (src <- resolve_src nav_rel_dir href ;;
       children <- first_child (NS.xhtml, py "ol")
                     (_parse_nav_level nav_rel_dir) (ret []) li ;;
       ret (Some (Item text src children)))%exn
  end.




Section NodeInduction.

Variable P : Node -> Prop.
Hypothesis P_element : forall tag attrib children,
    Forall P children -> P (Element tag attrib children).
Hypothesis P_text : forall s, P (Text s).
Hypothesis P_comment : forall s, P (Comment s).

Fixpoint Node_forall_ind (n : Node) : P n :=
  match n with
  | Element tag attrib children =>
      P_element tag attrib
        ((fix all (l : list Node) : Forall P l :=
            match l with
            | [] => Forall_nil P
            | x :: r => Forall_cons x (Node_forall_ind x) (all r)
            end) children)
  | Text s => P_text s
  | Comment s => P_comment s
  end.

End NodeInduction.


(** The names of the elements of a navigation list. *)
Definition LI : qname := (NS.xhtml, py "li").
Definition ANCHOR : qname := (NS.xhtml, py "a").
Definition OL : qname := (NS.xhtml, py "ol").


(* ================================================================= *)
(** ** Notions for the further properties *)

(** A Unicode scalar value: a code point up to U+10FFFF that is not a
    surrogate.  These are the characters of a decoded text. *)
Definition is_scalar (c : N) : bool :=
  ((c <? 55296) || (57343 <? c))%N && (c <? 1114112)%N.

(** Boolean tests on numbers, as propositions. *)
Ltac btests :=
  repeat match goal with
    | H : (_ && _)%bool = true |- _ => apply andb_true_iff in H; destruct H
    | H : (_ || _)%bool = false |- _ => apply orb_false_iff in H; destruct H
    | H : negb _ = true |- _ => apply negb_true_iff in H
    | H : negb _ = false |- _ => apply negb_false_iff in H
    | H : (_ <? _)%N = true |- _ => apply N.ltb_lt in H
    | H : (_ <? _)%N = false |- _ => apply N.ltb_ge in H
    | H : (_ <=? _)%N = true |- _ => apply N.leb_le in H
    | H : (_ <=? _)%N = false |- _ => apply N.leb_gt in H
    | H : (_ =? _)%N = true |- _ => apply N.eqb_eq in H
    | H : (_ =? _)%N = false |- _ => apply N.eqb_neq in H
    end.

(** Decide the next test of the goal, by arithmetic where one of the
    two answers is impossible. *)
Ltac next_test :=
  match goal with
  | |- context [if ?b then _ else _] =>
      let E := fresh "E" in
      destruct b eqn:E;
      try (exfalso;
           repeat match goal with
             | H : (_ || _)%bool = true |- _ =>
                 apply orb_true_iff in H; destruct H
             | H : (_ && _)%bool = false |- _ =>
                 apply andb_false_iff in H; destruct H
             end;
           btests; lia)
  end.

(** The bound on the second byte that comes with a first byte. *)
Ltac bound_side :=
  intros ->;
  repeat match goal with
    | H : (_ || _)%bool = true |- _ => apply orb_true_iff in H; destruct H
    end;
  btests; lia.

(** An archive whose descriptor names a package document that is not
    there. *)
Definition no_package : ZipFile :=
  [Entry (py "mimetype") Sample.mimetype ZIP_STORED;
   Entry (py "META-INF/container.xml") Sample.container_xml ZIP_DEFLATED].

(** What is proved of a node by induction: parsed as a list, and parsed
    as a list item, it raises [TypeError] only, and only where line 47
    joins paths. *)
Definition raises_type_error (nav_rel_dir : Path.t) (n : Node) : Prop :=
  (forall e, _parse_nav_level nav_rel_dir n = inl e ->
             e = TypeError /\ Path.name nav_rel_dir <> [])
  /\ (forall e, parse_item nav_rel_dir n = inl e ->
                e = TypeError /\ Path.name nav_rel_dir <> []).

(** A list item whose anchor is inside a [span], with a nested list. *)
Definition li_span : Node :=
  Sample.H "li" []
    [Sample.H "span" [] [Sample.anchor "c3.xhtml" "Ch3"];
     Sample.H "ol" [] [Sample.H "li" [] [Sample.anchor "c3.xhtml#a" "Ch3.1"]]].

(** A text without white space at its ends. *)
Definition trimmed (s : pystr) : Prop :=
  lstrip s = s /\ lstrip (rev s) = rev s.

(* ================================================================= *)
(** ** The batch loop of [ModernGUI._run] (lines 221-237) *)

(** [self.converter.convert(epub_file, out_p / epub_file.name)] for a
    file that is an archive ([Some zin]) or not ([None]): then
    [zipfile.ZipFile] raises [BadZipFile] at line 73, after line 72 has
    run. *)
Definition convert_file (fromstring : bytes -> option Node)
           (self : EpubConverter) (file : option ZipFile)
           (out : option ZipFile)
  : result unit * EpubConverter * option ZipFile :=
  match file with
  | None => (inl BadZipFile, Converter 1, out)
  | Some zin => convert fromstring self zin out
  end.

(** The lines of the log: no file found (line 229), a file converted
    (line 234), a file that failed, with its exception (line 236), the
    end of the task (line 237). *)
Inductive LogLine : Type :=
| NoFiles
| Success (name : pystr)
| Failure (name : pystr) (err : exn)
| AllDone.

(** The output directory: what is under each file name.  It is another
    directory than the input directory. *)
Definition Dir : Type := pystr -> option ZipFile.

Definition put (dir : Dir) (name : pystr) (f : option ZipFile) : Dir :=
  fun n => if str_eqb n name then f else dir n.

Definition log_line (name : pystr) (r : result unit) : LogLine :=
  match r with
  | inr _ => Success name
  | inl err => Failure name err
  end.

(** Lines 231-236: the loop over the files, with [try] and [except
    Exception] around each conversion. *)
Fixpoint run_files (fromstring : bytes -> option Node)
         (files : list (pystr * option ZipFile))
         (self : EpubConverter) (out_p : Dir) (log : list LogLine)
  : EpubConverter * Dir * list LogLine :=
  match files with
  | [] => (self, out_p, log)
  | (name, epub_file) :: rest =>
      let '(r, self, out) :=
        convert_file fromstring self epub_file (out_p name) in
      run_files fromstring rest self (put out_p name out)
                (log ++ [log_line name r])
  end.

(** [_run] (lines 226-237), for the files that [glob] finds in the
    input directory, each with its name. *)
Definition _run (fromstring : bytes -> option Node)
           (files : list (pystr * option ZipFile))
           (self : EpubConverter) (out_p : Dir) (log : list LogLine)
  : EpubConverter * Dir * list LogLine :=
  match files with
  | [] => (self, out_p, log ++ [NoFiles])
  | _ :: _ =>
      let '(self, out_p, log) := run_files fromstring files self out_p log in
      (self, out_p, log ++ [AllDone])
  end.

(** The line of the log and the output for a file converted on its
    own, by a converter that has converted nothing yet. *)
Definition alone (fromstring : bytes -> option Node) (out_p : Dir)
           (f : pystr * option ZipFile) : LogLine * option ZipFile :=
  let '(r, _, out) :=
    convert_file fromstring (Converter 1) (snd f) (out_p (fst f)) in
  (log_line (fst f) r, out).

(** A directory with the small publication, a file that is no
    archive, and a publication without package document. *)
Definition some_files : list (pystr * option ZipFile) :=
  [(py "broken.epub", None);
   (py "book.epub", Some Sample.epub3);
   (py "empty.epub", Some no_package)].

(** A character that is neither [<] nor [>]. *)
Definition plain (c : N) : bool := negb (N.eqb c 60) && negb (N.eqb c 62).

(* ================================================================= *)
(** * Properties *)

Unset Implicit Arguments.

(** ** The embedding at work *)

Example py_quote : py "a=`b`" = [97; 61; 34; 98; 34]%N.
Proof. reflexivity. Qed.

Example split_ex :
  split 47%N (py "a//b/") = [py "a"; []; py "b"; []].
Proof. reflexivity. Qed.

Example str_of_int_ex : str_of_int 120 = py "120".
Proof. reflexivity. Qed.

Example patch_ex :
  patch_content
    (py "<package version=`3.0`><manifest><item href=`nav.xhtml`  properties=`nav`/></manifest><spine page=`x`><itemref/></spine></package>")
  = py "<package version=`2.0`><manifest><item href=`nav.xhtml`/><item id=`ncx` href=`toc.ncx` media-type=`application/x-dtbncx+xml`/>"
    ++ LF :: py "</manifest><spine page=`x` toc=`ncx`><itemref/></spine></package>".
Proof. vm_compute. reflexivity. Qed.

Example patch_twice_ex :
  let once := patch_content
    (py "<package version=`3.0`><manifest><item href=`nav.xhtml` properties=`nav`/></manifest><spine/></package>") in
  patch_content once = once.
Proof. vm_compute. reflexivity. Qed.

Example utf8_ex :
  Utf8.decode [195; 169; 226; 130; 172; 240; 159; 152; 128]%N
  = inr [233; 8364; 128512]%N
  /\ Utf8.encode [233; 8364; 128512]%N
     = inr [195; 169; 226; 130; 172; 240; 159; 152; 128]%N
  /\ Utf8.decode [233]%N = inl UnicodeDecodeError
  /\ Utf8.decode [192; 175]%N = inl UnicodeDecodeError.
Proof. repeat split; reflexivity. Qed.

Example path_ex :
  Path.as_posix (Path.of_str (py "OEBPS//./content.opf")) = py "OEBPS/content.opf"
  /\ Path.as_posix (Path.parent (Path.of_str (py "content.opf"))) = py "."
  /\ Path.name (Path.parent (Path.of_str (py "content.opf"))) = []
  /\ Path.as_posix (Path.join_str (Path.of_str (py "a/b")) (py "../c#x")) = py "a/b/../c#x"
  /\ Path.as_posix (Path.join_str (Path.of_str (py "a/b")) (py "/c")) = py "/c"
  /\ Path.as_posix (Path.of_str (py "//a")) = py "//a"
  /\ Path.as_posix (Path.of_str (py "///a/")) = py "/a"
  /\ Path.as_posix (Path.parent (Path.of_str (py "/"))) = py "/".
Proof. repeat split; reflexivity. Qed.

Example build_ex :
  _build_ncx_points spec_nav 1 =
  (py "<navPoint id=`nav_1` playOrder=`1`>" ++ LF ::
   py "  <navLabel><text>Ch1</text></navLabel>" ++ LF ::
   py "  <content src=`c1.xhtml`/>" ++ LF ::
   py "</navPoint>" ++ LF ::
   py "<navPoint id=`nav_2` playOrder=`2`>" ++ LF ::
   py "  <navLabel><text>Ch2</text></navLabel>" ++ LF ::
   py "  <content src=`c2.xhtml`/>" ++ LF ::
   py "<navPoint id=`nav_3` playOrder=`3`>" ++ LF ::
   py "  <navLabel><text>Ch2.1</text></navLabel>" ++ LF ::
   py "  <content src=`c2.xhtml#a`/>" ++ LF ::
   py "</navPoint>" ++ LF ::
   py "</navPoint>" ++ [LF], 4).
Proof. vm_compute. reflexivity. Qed.

(* ================================================================= *)
(** ** Play-order numbering (C1) *)

Section Numbering.

Lemma number_loop_cons point i r n :
  number_loop point (i :: r) n =
  let '(p, n1) := point i n in
  let '(ps, n2) := number_loop point r n1 in
  (p :: ps, n2).
Proof. reflexivity. Qed.

Lemma build_loop_cons point i r n :
  build_loop point (i :: r) n =
  let '(x, n1) := point i n in
  let '(xs, n2) := build_loop point r n1 in
  (x ++ xs, n2).
Proof. reflexivity. Qed.

Lemma build_loop_renders items :
  Forall renders items ->
  forall n, build_loop build_point items n =
            (render (fst (number_points items n)),
             snd (number_points items n)).
Proof.
  unfold number_points.
  induction 1 as [|i r Hi _ IH]; intro n; [reflexivity|].
  rewrite build_loop_cons, number_loop_cons, (Hi n).
  destruct (number_point i n) as [p n1]; cbn [fst snd].
  rewrite (IH n1).
  destruct (number_loop number_point r n1) as [ps n2]; cbn [fst snd].
  reflexivity.
Qed.

Lemma build_point_renders i : renders i.
Proof.
  induction i as [text src children IH] using NavItem_forall_ind.
  intro n. cbn [build_point number_point].
  pose proof (build_loop_renders _ IH (n + 1)) as E.
  unfold number_points in E.
  destruct children as [|c cs].
  - cbn [number_loop fst snd render_point flat_map].
    rewrite <- !app_assoc. reflexivity.
  - rewrite E.
    destruct (number_loop number_point (c :: cs) (n + 1)) as [subs n'].
    cbn [fst snd render_point]. unfold render.
    rewrite <- !app_assoc. reflexivity.
Qed.

(** [_build_ncx_points] writes the rendering of the numbered points and
    leaves the counter where the numbering leaves it. *)
Lemma _build_ncx_points_render nav_items n :
  _build_ncx_points nav_items n =
  (render (fst (number_points nav_items n)),
   snd (number_points nav_items n)).
Proof.
  apply build_loop_renders.
  apply Forall_forall. intros i _. apply build_point_renders.
Qed.

End Numbering.

Section Preorder.

Lemma combine_seq_app {A} (x y : list A) n :
  combine (seq n (length (x ++ y))) (x ++ y) =
  combine (seq n (length x)) x ++ combine (seq (n + length x) (length y)) y.
Proof.
  revert n. induction x as [|a x IH]; intro n; cbn [app length].
  - now rewrite Nat.add_0_r.
  - cbn [seq combine app]. f_equal.
    rewrite IH. do 3 f_equal. lia.
Qed.

Lemma number_loop_numbers items :
  Forall numbers items ->
  forall n,
    snd (number_points items n) = n + count_items items
    /\ preorder_points (fst (number_points items n)) =
       combine (seq n (count_items items)) (preorder_items items).
Proof.
  unfold number_points, count_items, preorder_items, preorder_points.
  induction 1 as [|i r Hi _ IH]; intro n.
  - cbn. split; [lia | reflexivity].
  - rewrite number_loop_cons.
    destruct (Hi n) as [Hn Hp].
    destruct (number_point i n) as [p n1]; cbn [fst snd] in *.
    destruct (IH n1) as [Hn' Hp'].
    destruct (number_loop number_point r n1) as [ps n2]; cbn [fst snd] in *.
    cbn [flat_map]. rewrite combine_seq_app, length_app.
    subst n1. split; [lia|]. now rewrite Hp, Hp'.
Qed.

Lemma number_point_numbers i : numbers i.
Proof.
  induction i as [text src children IH] using NavItem_forall_ind.
  intro n. cbn [number_point].
  destruct (number_loop_numbers _ IH (n + 1)) as [Hn Hp].
  unfold number_points, count_items, preorder_items, preorder_points in *.
  destruct (number_loop number_point children (n + 1)) as [subs n'].
  cbn [fst snd preorder_point preorder_item length seq combine] in *.
  split; [lia|]. rewrite Hp. do 3 f_equal. lia.
Qed.

Lemma number_points_preorder nav_items n :
  snd (number_points nav_items n) = n + count_items nav_items
  /\ preorder_points (fst (number_points nav_items n)) =
     combine (seq n (count_items nav_items)) (preorder_items nav_items).
Proof.
  apply number_loop_numbers, Forall_forall. intros i _.
  apply number_point_numbers.
Qed.

Lemma map_fst_combine_seq {A} (l : list A) n :
  map fst (combine (seq n (length l)) l) = seq n (length l).
Proof.
  revert n. induction l as [|a l IH]; intro n; cbn; [reflexivity|].
  now rewrite IH.
Qed.

Lemma number_points_consecutive nav_items n :
  consecutive n (fst (number_points nav_items n)).
Proof.
  unfold consecutive.
  destruct (number_points_preorder nav_items n) as [_ ->].
  unfold count_items.
  now rewrite map_fst_combine_seq, length_combine, length_seq, Nat.min_id.
Qed.

End Preorder.

Section Consecutive.

Lemma app_eq_length {A} (a a' b b' : list A) :
  a ++ b = a' ++ b' -> length a = length a' -> a = a' /\ b = b'.
Proof.
  revert a'. induction a as [|x a IH]; intros [|x' a'] E L;
    try discriminate; cbn in *.
  - now split.
  - injection E as -> E. destruct (IH a' E) as [-> ->]; [lia | now split].
Qed.

Lemma preorder_points_app l1 l2 :
  preorder_points (l1 ++ l2) = preorder_points l1 ++ preorder_points l2.
Proof. apply flat_map_app. Qed.

Lemma consecutive_app n l1 l2 :
  consecutive n (l1 ++ l2) ->
  consecutive n l1 /\ consecutive (n + length (preorder_points l1)) l2.
Proof.
  unfold consecutive. rewrite preorder_points_app, map_app, length_app, seq_app.
  intro E. apply app_eq_length in E; [exact E|].
  now rewrite length_map, length_seq.
Qed.

Lemma consecutive_cons n p rest :
  consecutive n (p :: rest) ->
  consecutive n [p] /\ consecutive (n + length (preorder_point p)) rest.
Proof.
  intro H. apply (consecutive_app n [p] rest) in H.
  unfold preorder_points in H. cbn [flat_map] in H.
  now rewrite app_nil_r in H.
Qed.

Lemma consecutive_point n k label src subs :
  consecutive n [Point k label src subs] ->
  k = n /\ consecutive (n + 1) subs.
Proof.
  unfold consecutive, preorder_points. cbn [flat_map preorder_point].
  rewrite app_nil_r. cbn [map fst length seq].
  intro E. injection E as -> E. split; [reflexivity|].
  now rewrite Nat.add_1_r.
Qed.

Lemma consecutive_orders n p :
  consecutive n [p] -> orders p = seq n (length (preorder_point p)).
Proof.
  unfold consecutive, orders, preorder_points. cbn [flat_map].
  now rewrite app_nil_r.
Qed.

Lemma forest_consecutive l :
  Forall points_consecutive l ->
  forall n, consecutive n l ->
  forall q, In q (flat_map points_of l) -> consecutive (playOrder_of q) [q].
Proof.
  induction 1 as [|p r Hp _ IH]; intros n Hn q Hq; [destruct Hq|].
  apply consecutive_cons in Hn as [H1 H2].
  cbn [flat_map] in Hq. apply in_app_or in Hq as [Hq|Hq].
  - exact (Hp n H1 q Hq).
  - exact (IH _ H2 q Hq).
Qed.

Lemma point_consecutive p : points_consecutive p.
Proof.
  induction p as [k label src subs IH] using NavPoint_forall_ind.
  intros n Hn q Hq. cbn [points_of] in Hq.
  destruct (consecutive_point _ _ _ _ _ Hn) as [-> Hs].
  destruct Hq as [<-|Hq]; [exact Hn|].
  exact (forest_consecutive _ IH _ Hs q Hq).
Qed.

Lemma points_of_consecutive n roots :
  consecutive n roots ->
  forall q, In q (flat_map points_of roots) -> consecutive (playOrder_of q) [q].
Proof.
  apply forest_consecutive, Forall_forall. intros p _. apply point_consecutive.
Qed.

Lemma flat_map_orders l :
  flat_map orders l = map fst (preorder_points l).
Proof.
  unfold preorder_points, orders.
  induction l as [|p l IH]; cbn [flat_map map]; [reflexivity|].
  now rewrite map_app, IH.
Qed.

(** In a forest numbered consecutively every sibling list is numbered
    consecutively. *)
Lemma sibling_lists_consecutive n roots :
  consecutive n roots ->
  forall L, In L (sibling_lists roots) -> exists m, consecutive m L.
Proof.
  intros Hn L [<-|HL]; [now exists n|].
  apply in_map_iff in HL as [[k label src subs] [<- Hq]].
  exists (k + 1).
  apply (points_of_consecutive _ _ Hn) in Hq.
  now apply consecutive_point in Hq.
Qed.

(** A parent comes before all its descendants. *)
Lemma parent_before_descendants n roots :
  consecutive n roots ->
  forall p, In p (flat_map points_of roots) ->
  forall k, In k (flat_map orders (subs_of p)) -> playOrder_of p < k.
Proof.
  intros Hn [j label src subs] Hp k Hk.
  apply (points_of_consecutive _ _ Hn) in Hp. cbn [playOrder_of subs_of] in *.
  apply consecutive_point in Hp as [_ Hs].
  rewrite flat_map_orders, Hs in Hk.
  apply in_seq in Hk. lia.
Qed.

(** The descendants of a point come before the siblings after it. *)
Lemma subtree_before_later_sibling m l1 q l2 r l3 :
  consecutive m (l1 ++ q :: l2 ++ r :: l3) ->
  forall k, In k (orders q) -> k < playOrder_of r.
Proof.
  intros H k Hk.
  apply consecutive_app in H as [_ H].
  apply consecutive_cons in H as [Hq H].
  apply consecutive_app in H as [_ H].
  apply consecutive_cons in H as [Hr _].
  destruct r as [j label src subs].
  apply consecutive_point in Hr as [-> _].
  rewrite (consecutive_orders _ _ Hq) in Hk. apply in_seq in Hk.
  cbn [playOrder_of]. lia.
Qed.

End Consecutive.

Example convert_sample self :
  convert Sample.lxml self Sample.epub3 None
  = (inr tt, Converter 4, Some Sample.epub2).
Proof. vm_compute. reflexivity. Qed.

Example convert_sample_again self :
  convert Sample.lxml self Sample.epub2 None
  = (inr tt, Converter 1,
     Some (Sample.epub2
           ++ [Entry (py "OEBPS/toc.ncx") Sample.toc_ncx2 ZIP_DEFLATED])).
Proof. vm_compute. reflexivity. Qed.

(** An entry with a compression method that [zipfile] does not
    support, in front of a later entry of the same name: line 114
    reads the later entry, and line 124 raises for the first. *)
Example convert_unsupported_method self :
  convert Sample.lxml self
    (Entry (py "OEBPS/text/c1.xhtml") Sample.c1_xhtml (ZIP_OTHER 99)
     :: Sample.epub3) None
  = (inl NotImplementedError, Converter 4,
     Some [Entry (py "mimetype") Sample.mimetype ZIP_STORED]).
Proof. vm_compute. reflexivity. Qed.

(* ================================================================= *)
(** ** Strings and archives *)

Section Archives.

Lemma str_eqb_eq a b : str_eqb a b = true <-> a = b.
Proof.
  revert b. induction a as [|x a IH]; intros [|y b]; cbn; split;
    try discriminate; try reflexivity.
  - intro H. apply andb_true_iff in H as [Hx Hr].
    apply N.eqb_eq in Hx. apply IH in Hr. now subst.
  - intro E. injection E as -> ->.
    apply andb_true_iff. split; [apply N.eqb_refl | now apply IH].
Qed.

Lemma str_eqb_refl a : str_eqb a a = true.
Proof. now apply str_eqb_eq. Qed.

Lemma str_eqb_neq a b : str_eqb a b = false <-> a <> b.
Proof.
  split.
  - intros H E. apply str_eqb_eq in E. congruence.
  - intro H. destruct (str_eqb a b) eqn:E; [|reflexivity].
    apply str_eqb_eq in E. contradiction.
Qed.

Lemma str_eqb_sym a b : str_eqb a b = str_eqb b a.
Proof.
  destruct (str_eqb a b) eqn:E; symmetry.
  - apply str_eqb_eq in E. subst. apply str_eqb_refl.
  - apply str_eqb_neq. apply str_eqb_neq in E. congruence.
Qed.

Lemma has_name_In z name : has_name z name = true <-> In name (namelist z).
Proof.
  unfold has_name. rewrite existsb_exists. split.
  - intros [x [Hx E]]. apply str_eqb_eq in E. now subst.
  - intro H. exists name. split; [exact H | apply str_eqb_refl].
Qed.

Lemma getinfo_None z name :
  getinfo z name = None <-> ~ In name (namelist z).
Proof.
  unfold getinfo, namelist. split.
  - intros H Hin. apply in_map_iff in Hin as [e [<- He]].
    apply in_rev in He. pose proof (find_none _ _ H e He) as F. cbn in F.
    now rewrite str_eqb_refl in F.
  - intro H. destruct (find _ _) as [e|] eqn:E; [|reflexivity].
    apply find_some in E as [He Hn]. apply str_eqb_eq in Hn.
    exfalso. apply H. apply in_map_iff. exists e.
    split; [exact Hn | now apply in_rev].
Qed.

(** A name that is not in the archive cannot be read. *)
Lemma read_absent z name :
  has_name z name = false -> read z name = inl (KeyError name).
Proof.
  intro H. unfold read.
  replace (getinfo z name) with (@None ZipInfo); [reflexivity|].
  symmetry. apply getinfo_None. intro Hin.
  apply has_name_In in Hin. congruence.
Qed.

(** A name that is in the archive is the name of the entry that
    [read] opens: the last one of that name. *)
Lemma read_listed z name :
  In name (namelist z) ->
  exists e, In e z /\ filename e = name /\ getinfo z name = Some e
            /\ read z name = read_entry e.
Proof.
  intro H. unfold read.
  destruct (getinfo z name) as [e|] eqn:E.
  - exists e. unfold getinfo in E. apply find_some in E as [He Hn].
    apply str_eqb_eq in Hn. apply in_rev in He. now repeat split.
  - apply getinfo_None in E. contradiction.
Qed.

(** An entry without fault and with a supported method can be read. *)
Lemma read_entry_ok e d :
  read_entry e = inr d <->
  fault e = None /\ supported (compress_type e) = true /\ data e = d.
Proof.
  unfold read_entry. destruct (fault e); [split; [discriminate|]|].
  - intros (H & _). discriminate.
  - destruct (supported (compress_type e)); split.
    + intro H. injection H as <-. now repeat split.
    + intros (_ & _ & <-). reflexivity.
    + discriminate.
    + intros (_ & H & _). discriminate.
Qed.

Lemma find_unique (f : ZipInfo -> bool) l e :
  In e l -> f e = true ->
  (forall e', In e' l -> f e' = true -> e' = e) ->
  find f l = Some e.
Proof.
  intros He Hf Hu. destruct (find f l) as [e'|] eqn:E.
  - apply find_some in E as [H1 H2]. now rewrite (Hu e' H1 H2).
  - now rewrite (find_none _ _ E e He) in Hf.
Qed.

Lemma NoDup_names_unique z e e' :
  NoDup (namelist z) -> In e z -> In e' z ->
  filename e' = filename e -> e' = e.
Proof.
  unfold namelist. induction z as [|x z IH]; intros Hn He He' E;
    [destruct He|].
  cbn in Hn. inversion Hn as [|? ? Hx Hz]; subst.
  destruct He as [->|He], He' as [->|He'].
  - reflexivity.
  - exfalso. apply Hx. rewrite <- E. now apply in_map.
  - exfalso. apply Hx. rewrite E. now apply in_map.
  - now apply IH.
Qed.

(** Where names are unique, reading the name of an entry opens that
    entry. *)
Lemma getinfo_unique z e :
  NoDup (namelist z) -> In e z -> getinfo z (filename e) = Some e.
Proof.
  intros Hn He. unfold getinfo.
  apply find_unique; [now rewrite <- in_rev | apply str_eqb_refl |].
  intros e' He' E. apply str_eqb_eq in E. apply in_rev in He'.
  now apply (NoDup_names_unique z).
Qed.

Lemma read_getinfo z e :
  getinfo z (filename e) = Some e -> read z (filename e) = read_entry e.
Proof. unfold read. now intros ->. Qed.

Lemma read_unique z e :
  NoDup (namelist z) -> In e z -> read z (filename e) = read_entry e.
Proof. intros Hn He. now apply read_getinfo, getinfo_unique. Qed.

End Archives.

(* ================================================================= *)
(** ** The write phase *)

Section Writing.

Variable zin : ZipFile.
Variable opf_name : pystr.

Lemma copy_items_cons item items z :
  copy_items zin opf_name (item :: items) z =
  if is_mimetype item then copy_items zin opf_name items z
  else match written zin opf_name item with
       | inl e => (inl e, z)
       | inr w => copy_items zin opf_name items (z ++ [w])
       end.
Proof.
  unfold is_mimetype, written. cbn [copy_items].
  destruct (str_eqb (filename item) MIMETYPE); [reflexivity|].
  unfold wbind, lift, emit, bind, ret, writestr, writestr_info.
  destruct (read zin (filename item)) as [e|d]; [reflexivity|].
  destruct (str_eqb (filename item) opf_name).
  - destruct (Utf8.decode d) as [e|content]; [reflexivity|].
    destruct (Utf8.encode (patch_content content)) as [e|b]; reflexivity.
  - unfold raise. destruct (supported (compress_type item)); reflexivity.
Qed.

(** A loop that ends has appended, in their order, the entries written
    for the entries of the input other than [mimetype]. *)
Lemma copy_items_ok items : forall z z',
  copy_items zin opf_name items z = (inr tt, z') ->
  exists ws,
    z' = z ++ ws
    /\ Forall2 (fun item w => written zin opf_name item = inr w)
               (filter (fun i => negb (is_mimetype i)) items) ws.
Proof.
  induction items as [|item items IH]; intros z z' H.
  - cbn in H. injection H as <-. exists []. now rewrite app_nil_r.
  - rewrite copy_items_cons in H. cbn [filter].
    destruct (is_mimetype item); cbn [negb]; [now apply IH|].
    destruct (written zin opf_name item) as [e|w] eqn:W; [discriminate|].
    apply IH in H as [ws [-> F]].
    exists (w :: ws). rewrite <- app_assoc. split; [reflexivity|].
    now constructor.
Qed.

(** A loop that raises has appended the entries written for the
    entries in front of the one that it could not write. *)
Lemma copy_items_raise items : forall z z' e,
  copy_items zin opf_name items z = (inl e, z') ->
  exists done item rest ws,
    filter (fun i => negb (is_mimetype i)) items = done ++ item :: rest
    /\ Forall2 (fun i w => written zin opf_name i = inr w) done ws
    /\ written zin opf_name item = inl e
    /\ z' = z ++ ws.
Proof.
  induction items as [|item items IH]; intros z z' e H.
  - discriminate.
  - rewrite copy_items_cons in H. cbn [filter].
    destruct (is_mimetype item); cbn [negb]; [now apply IH|].
    destruct (written zin opf_name item) as [e'|w] eqn:W.
    + injection H as <- <-.
      exists [], item, (filter (fun i => negb (is_mimetype i)) items), [].
      rewrite app_nil_r. repeat split; [constructor | exact W].
    + apply IH in H as (done & i & rest & ws & Hf & F & Hw & ->).
      exists (item :: done), i, rest, (w :: ws). rewrite Hf, <- app_assoc.
      repeat split; [now constructor | exact Hw].
Qed.

End Writing.

(** An archive whose [mimetype] cannot be read is opened for writing
    and nothing is written to it. *)
Lemma write_archive_mimetype_raise zin opf_path ncx_str e :
  has_name zin MIMETYPE = true -> read zin MIMETYPE = inl e ->
  write_archive zin opf_path ncx_str [] = (inl e, []).
Proof.
  intros Hm Hr. unfold write_archive, wbind, lift. now rewrite Hm, Hr.
Qed.

Lemma write_archive_unfold zin opf_path ncx_str :
  (has_name zin MIMETYPE = true -> exists d, read zin MIMETYPE = inr d) ->
  write_archive zin opf_path ncx_str [] =
  match copy_items zin (Path.as_posix opf_path) zin (mimetype_head zin) with
  | (inl e, z) => (inl e, z)
  | (inr _, z) =>
      match Utf8.encode ncx_str with
      | inl e => (inl e, z)
      | inr b => (inr tt, z ++ [Entry (toc_name opf_path) b ZIP_DEFLATED])
      end
  end.
Proof.
  intro Hr.
  unfold write_archive, mimetype_head, toc_name, wbind, lift, emit, wret,
    writestr.
  destruct (has_name zin MIMETYPE) eqn:Hm.
  - destruct (Hr eq_refl) as [d ->]. cbn [app].
    destruct (copy_items _ _ _ _) as [[e|[]] z]; [reflexivity|].
    destruct (Utf8.encode ncx_str); reflexivity.
  - destruct (copy_items _ _ _ _) as [[e|[]] z]; [reflexivity|].
    destruct (Utf8.encode ncx_str); reflexivity.
Qed.

(* ================================================================= *)
(** ** [convert] *)

Section ConvertFacts.

Variable fromstring : bytes -> option Node.

(** [convert] in two steps: what is read, then what is written. *)
Lemma convert_eq self zin out :
  convert fromstring self zin out =
  match read_input fromstring zin with
  | inl e => (inl e, Converter 1, out)
  | inr (opf_path, title, author, nav_points) =>
      let w := write_archive zin opf_path
                 (ncx_string title author nav_points) [] in
      (fst w, Converter (snd (_build_ncx_points nav_points 1)), Some (snd w))
  end.
Proof.
  unfold convert, ncx_string.
  destruct (read_input fromstring zin) as [e|[[[p t] a] nav]]; [reflexivity|].
  cbn [_play_order].
  destruct (_build_ncx_points nav 1) as [x n]. cbn [fst snd].
  destruct (write_archive _ _ _ _) as [r z]. reflexivity.
Qed.

Lemma read_input_package_path zin opf_path title author nav_points :
  read_input fromstring zin = inr (opf_path, title, author, nav_points) ->
  package_path fromstring zin = inr opf_path.
Proof.
  unfold read_input, bind.
  destruct (package_path fromstring zin) as [e|p]; [discriminate|].
  destruct (read zin (Path.as_posix p)); [discriminate|].
  destruct (parse fromstring b); [discriminate|].
  destruct (nav_points_of _ _ _ _); [discriminate|].
  intro H. now injection H as -> _ _ _.
Qed.

Lemma read_input_raise zin e :
  package_path fromstring zin = inl e -> read_input fromstring zin = inl e.
Proof. unfold read_input, bind. now intros ->. Qed.

(** A conversion that does not get through its reading leaves the
    output path as it was. *)
Lemma convert_read_raise self zin out e :
  read_input fromstring zin = inl e ->
  convert fromstring self zin out = (inl e, Converter 1, out).
Proof. intro H. now rewrite convert_eq, H. Qed.

(** The failures of the write phase: the [mimetype] cannot be read; an
    entry cannot be written; the NCX text cannot be encoded.  The
    archive then holds what was written before. *)
Lemma write_archive_raise zin opf_path ncx_str e z :
  write_archive zin opf_path ncx_str [] = (inl e, z) ->
  (has_name zin MIMETYPE = true /\ read zin MIMETYPE = inl e /\ z = [])
  \/ (exists done item rest ws,
        filter (fun i => negb (is_mimetype i)) zin = done ++ item :: rest
        /\ Forall2 (fun i w =>
                      written zin (Path.as_posix opf_path) i = inr w) done ws
        /\ written zin (Path.as_posix opf_path) item = inl e
        /\ z = mimetype_head zin ++ ws)
  \/ (exists ws,
        Forall2 (fun i w => written zin (Path.as_posix opf_path) i = inr w)
                (filter (fun i => negb (is_mimetype i)) zin) ws
        /\ e = UnicodeEncodeError
        /\ Utf8.encode ncx_str = inl UnicodeEncodeError
        /\ z = mimetype_head zin ++ ws).
Proof.
  destruct (has_name zin MIMETYPE) eqn:Hm.
  - destruct (read zin MIMETYPE) as [e'|d] eqn:Hr.
    + rewrite (write_archive_mimetype_raise _ _ _ _ Hm Hr).
      intro H. injection H as <- <-. now left.
    + rewrite write_archive_unfold; [|intros _; now exists d].
      destruct (copy_items _ _ _ _) as [[e'|[]] z1] eqn:C.
      * intro H. injection H as <- <-. right. left.
        apply copy_items_raise in C as (done & i & rest & ws & H). 
        now exists done, i, rest, ws.
      * apply copy_items_ok in C as [ws [-> F]].
        destruct (Utf8.encode ncx_str) as [e'|b] eqn:E; [|discriminate].
        intro H. injection H as <- <-. right. right. exists ws.
        unfold Utf8.encode in *. destruct (Utf8.encode_opt _); [discriminate|].
        injection E as <-. now repeat split.
  - rewrite write_archive_unfold; [|intro Hx; rewrite Hm in Hx; discriminate].
    destruct (copy_items _ _ _ _) as [[e'|[]] z1] eqn:C.
    + intro H. injection H as <- <-. right. left.
      apply copy_items_raise in C as (done & i & rest & ws & H). 
      now exists done, i, rest, ws.
    + apply copy_items_ok in C as [ws [-> F]].
      destruct (Utf8.encode ncx_str) as [e'|b] eqn:E; [|discriminate].
      intro H. injection H as <- <-. right. right. exists ws.
      unfold Utf8.encode in *. destruct (Utf8.encode_opt _); [discriminate|].
      injection E as <-. now repeat split.
Qed.

(** The outcome of the write phase. *)
Lemma write_archive_cases zin opf_path ncx_str r z :
  write_archive zin opf_path ncx_str [] = (r, z) ->
  (exists e ws, r = inl e /\ z = mimetype_head zin ++ ws)
  \/ (exists ws b,
        r = inr tt
        /\ z = (mimetype_head zin ++ ws)
               ++ [Entry (toc_name opf_path) b ZIP_DEFLATED]
        /\ Utf8.encode ncx_str = inr b
        /\ Forall2 (fun item w =>
                      written zin (Path.as_posix opf_path) item = inr w)
                   (filter (fun i => negb (is_mimetype i)) zin) ws).
Proof.
  destruct r as [e|[]].
  - intro H. left. exists e.
    apply write_archive_raise in H
      as [(Hm & Hr & ->)|[(done & i & rest & ws & _ & _ & _ & ->)
                         |(ws & _ & _ & _ & ->)]].
    + exists []. unfold mimetype_head. now rewrite Hm, Hr.
    + now exists ws.
    + now exists ws.
  - intro H. right.
    assert (Hr : has_name zin MIMETYPE = true ->
                 exists d, read zin MIMETYPE = inr d).
    { intro Hm. destruct (read zin MIMETYPE) as [e|d] eqn:Hr;
        [|now exists d].
      rewrite (write_archive_mimetype_raise _ _ _ _ Hm Hr) in H.
      discriminate. }
    rewrite (write_archive_unfold _ _ _ Hr) in H.
    destruct (copy_items _ _ _ _) as [[e|[]] z1] eqn:C; [discriminate|].
    apply copy_items_ok in C as [ws [-> F]].
    destruct (Utf8.encode ncx_str) as [e|b] eqn:E; [discriminate|].
    injection H as <-. now exists ws, b.
Qed.

End ConvertFacts.

(* ================================================================= *)
(** ** The claims on numbering, failures and the archive *)

(** C1.  For every navigation tree the synthesizer writes the points
    with the play orders 1..N, N the number of items at all levels: the
    k-th item in pre-order, depth first, gets the number k, without gap
    or repeat; so the play order of a parent is smaller than those of
    all its descendants, and the descendants of a point are numbered
    before every sibling after it.  [convert] puts the counter back to
    1 when it starts: its outcome does not depend on the counter left
    by an earlier call, and it leaves the counter at N + 1. *)
Theorem play_order_numbering (nav_items : list NavItem) :
  let points := fst (number_points nav_items 1) in
  let N := count_items nav_items in
  _build_ncx_points nav_items 1 = (render points, N + 1)
  /\ preorder_points points = combine (seq 1 N) (preorder_items nav_items)
  /\ map fst (preorder_points points) = seq 1 N
  /\ (forall p, In p (flat_map points_of points) ->
      forall k, In k (flat_map orders (subs_of p)) -> playOrder_of p < k)
  /\ (forall L l1 q l2 r l3,
        In L (sibling_lists points) -> L = l1 ++ q :: l2 ++ r :: l3 ->
        forall k, In k (orders q) -> k < playOrder_of r)
  /\ (forall fromstring self zin out,
        convert fromstring self zin out
        = convert fromstring (Converter 1) zin out)
  /\ (forall fromstring self zin out opf_path title author,
        read_input fromstring zin = inr (opf_path, title, author, nav_items) ->
        snd (fst (convert fromstring self zin out)) = Converter (N + 1)).
Proof.
  intros points N.
  pose proof (number_points_preorder nav_items 1) as [Hn Hp].
  pose proof (number_points_consecutive nav_items 1) as Hc.
  fold points in Hp, Hc. fold N in Hn, Hp.
  assert (Hb : _build_ncx_points nav_items 1 = (render points, N + 1)).
  { rewrite _build_ncx_points_render, Hn. unfold points.
    f_equal. apply Nat.add_comm. }
  split; [exact Hb|]. split; [exact Hp|]. split.
  { rewrite Hp. unfold N, count_items. apply map_fst_combine_seq. }
  split; [exact (parent_before_descendants 1 points Hc)|]. split.
  { intros L l1 q l2 r l3 HL E k Hk.
    destruct (sibling_lists_consecutive 1 points Hc L HL) as [m Hm].
    rewrite E in Hm.
    exact (subtree_before_later_sibling m l1 q l2 r l3 Hm k Hk). }
  split; [reflexivity|].
  intros fromstring self zin out opf_path title author H.
  rewrite convert_eq, H. cbn [fst snd]. now rewrite Hb.
Qed.

Lemma play_order_numbering_witness :
  map fst (preorder_points (fst (number_points spec_nav 1))) = [1; 2; 3]
  /\ 2 < 3.
Proof.
  destruct (play_order_numbering spec_nav) as (_ & _ & H & Hp & _).
  split; [exact H|].
  apply (Hp (Point 2 (py "Ch2") (Some (py "c2.xhtml"))
               [Point 3 (py "Ch2.1") (Some (py "c2.xhtml#a")) []])).
  - cbn. right. left. reflexivity.
  - cbn. left. reflexivity.
Defined.

(** C9 (as stated, not so).  The source declares no exception class:
    there is no [MalformedContainerError].  What escapes from [convert]
    is the Python exception of the step that fails, a different one in
    each of the three cases: [KeyError] where the descriptor is
    absent, the [XMLSyntaxError] of lxml where it is not XML,
    [IndexError] where it declares no root file.  These are not proper
    to the descriptor: a package document that is absent gives
    [KeyError] as well. *)
Lemma container_failures_are_plain_exceptions :
  convert Sample.lxml (Converter 1) Sample.no_container None
  = (inl (KeyError (py "META-INF/container.xml")), Converter 1, None)
  /\ convert Sample.lxml (Converter 1) Sample.bad_container None
     = (inl (XMLSyntaxError (py "<container")), Converter 1, None)
  /\ convert Sample.lxml (Converter 1) Sample.empty_container None
     = (inl IndexError, Converter 1, None)
  /\ convert Sample.lxml (Converter 1) no_package None
     = (inl (KeyError (py "OEBPS/content.opf")), Converter 1, None).
Proof. repeat split; vm_compute; reflexivity. Qed.

(** C9, amended.  When the container descriptor is absent, cannot be
    read, is not parsable, or declares no root file, [convert] fails:
    the exception of the failing step ([KeyError] for the name of the
    descriptor, the exception of [ZipFile.read], [XMLSyntaxError],
    [IndexError]) is the outcome of the call, so it reaches the
    caller; nothing has been written, and the counter is at 1. *)
Theorem malformed_container_raises
        (fromstring : bytes -> option Node) (self : EpubConverter)
        (zin : ZipFile) (out : option ZipFile) :
  (has_name zin CONTAINER = false ->
   convert fromstring self zin out
   = (inl (KeyError CONTAINER), Converter 1, out))
  /\ (forall e, read zin CONTAINER = inl e ->
      convert fromstring self zin out = (inl e, Converter 1, out))
  /\ (forall d, read zin CONTAINER = inr d -> fromstring d = None ->
      convert fromstring self zin out
      = (inl (XMLSyntaxError d), Converter 1, out))
  /\ (forall d container_xml,
        read zin CONTAINER = inr d -> fromstring d = Some container_xml ->
        rootfile_paths container_xml = [] ->
        convert fromstring self zin out = (inl IndexError, Converter 1, out)).
Proof.
  split; [|split; [|split]].
  - intro H. apply convert_read_raise, read_input_raise.
    unfold package_path, bind. now rewrite (read_absent zin CONTAINER H).
  - intros e He. apply convert_read_raise, read_input_raise.
    unfold package_path, bind. now rewrite He.
  - intros d Hd Hp. apply convert_read_raise, read_input_raise.
    unfold package_path, bind, parse. now rewrite Hd, Hp.
  - intros d t Hd Hp Hr. apply convert_read_raise, read_input_raise.
    unfold package_path, bind, parse. rewrite Hd, Hp.
    cbv beta iota delta [ret]. now rewrite Hr.
Qed.

Lemma malformed_container_raises_witness :
  convert Sample.lxml (Converter 7) Sample.no_container None
  = (inl (KeyError CONTAINER), Converter 1, None)
  /\ convert Sample.lxml (Converter 7)
       [ZipMember CONTAINER Sample.container_xml ZIP_DEFLATED
                  (Some RuntimeError)] None
     = (inl RuntimeError, Converter 1, None)
  /\ convert Sample.lxml (Converter 7) Sample.bad_container None
     = (inl (XMLSyntaxError (py "<container")), Converter 1, None)
  /\ convert Sample.lxml (Converter 7) Sample.empty_container None
     = (inl IndexError, Converter 1, None).
Proof.
  split; [|split; [|split]].
  - apply (proj1 (malformed_container_raises Sample.lxml (Converter 7)
                    Sample.no_container None)).
    reflexivity.
  - apply (proj1 (proj2 (malformed_container_raises Sample.lxml (Converter 7)
                           _ None))).
    reflexivity.
  - apply (proj1 (proj2 (proj2 (malformed_container_raises Sample.lxml
                                  (Converter 7) Sample.bad_container None))));
      reflexivity.
  - apply (proj2 (proj2 (proj2 (malformed_container_raises Sample.lxml
                                  (Converter 7) Sample.empty_container None))))
      with (d := Sample.container_empty)
           (container_xml := Sample.container_empty_tree); reflexivity.
Defined.

(** C8 (as stated, not so).  The package document of this archive is in
    ISO-8859-1: lxml reads it, its decoding as UTF-8 at line 116 fails.
    By then the output archive has been opened and two entries have
    been written: the failed conversion leaves an archive of two
    entries at the output path, where there was no file. *)
Lemma failed_conversion_leaves_partial_archive :
  convert Sample.lxml (Converter 1) Sample.epub3_latin1 None
  = (inl UnicodeDecodeError, Converter 1,
     Some [Entry (py "mimetype") Sample.mimetype ZIP_STORED;
           Entry (py "META-INF/container.xml") Sample.container_xml
                 ZIP_DEFLATED])
  /\ Some [Entry (py "mimetype") Sample.mimetype ZIP_STORED;
           Entry (py "META-INF/container.xml") Sample.container_xml
                 ZIP_DEFLATED] <> @None ZipFile.
Proof. split; [vm_compute; reflexivity | discriminate]. Qed.

(** C8, amended.  A conversion that fails while it reads (container
    descriptor, package document, navigation document: lines 73-96)
    leaves the output path as it was.  A conversion that fails later
    has opened the output archive: the output path then holds an
    archive with what was written before the failure, which is the
    [mimetype] entry, if the input has one that could be read, and
    the entries written for the first entries of the input, in their
    order; [toc.ncx], which is written last, is not in it. *)
Theorem failed_conversion_output
        (fromstring : bytes -> option Node) (self : EpubConverter)
        (zin : ZipFile) (out : option ZipFile) :
  (forall e, read_input fromstring zin = inl e ->
             convert fromstring self zin out = (inl e, Converter 1, out))
  /\ (forall e self' out',
        convert fromstring self zin out = (inl e, self', out') ->
        (read_input fromstring zin = inl e /\ out' = out)
        \/ (exists opf_path title author nav_points done rest ws,
              read_input fromstring zin
              = inr (opf_path, title, author, nav_points)
              /\ filter (fun i => negb (is_mimetype i)) zin = done ++ rest
              /\ Forall2 (fun item w =>
                            written zin (Path.as_posix opf_path) item = inr w)
                         done ws
              /\ out' = Some (mimetype_head zin ++ ws))).
Proof.
  split; [intros e H; now apply convert_read_raise|].
  intros e self' out'. rewrite convert_eq.
  destruct (read_input fromstring zin) as [e'|[[[p t] a] nav]].
  - intro H. injection H as <- _ <-. now left.
  - cbn zeta.
    destruct (write_archive zin p (ncx_string t a nav) []) as [r z] eqn:W.
    cbn [fst snd]. intro H. injection H as -> _ <-. right.
    exists p, t, a, nav.
    apply write_archive_raise in W
      as [(Hm & Hr & ->)|[(done & i & rest & ws & Hf & F & _ & ->)
                         |(ws & F & _ & _ & ->)]].
    + exists [], (filter (fun i => negb (is_mimetype i)) zin), [].
      unfold mimetype_head. rewrite Hm, Hr.
      repeat split. constructor.
    + exists done, (i :: rest), ws. now repeat split.
    + exists (filter (fun i => negb (is_mimetype i)) zin), [], ws.
      rewrite app_nil_r. now repeat split.
Qed.

Lemma failed_conversion_output_witness :
  convert Sample.lxml (Converter 7) Sample.no_container None
  = (inl (KeyError CONTAINER), Converter 1, None)
  /\ ((read_input Sample.lxml Sample.epub3_damaged = inl BadZipFile
       /\ Some [Entry (py "mimetype") Sample.mimetype ZIP_STORED;
                Entry (py "META-INF/container.xml") Sample.container_xml
                      ZIP_DEFLATED;
                Entry (py "OEBPS/text/nav.xhtml") Sample.nav_xhtml
                      ZIP_DEFLATED] = @None ZipFile)
      \/ (exists opf_path title author nav_points done rest ws,
            read_input Sample.lxml Sample.epub3_damaged
            = inr (opf_path, title, author, nav_points)
            /\ filter (fun i => negb (is_mimetype i)) Sample.epub3_damaged
               = done ++ rest
            /\ Forall2 (fun item w =>
                          written Sample.epub3_damaged
                                  (Path.as_posix opf_path) item = inr w)
                       done ws
            /\ Some [Entry (py "mimetype") Sample.mimetype ZIP_STORED;
                     Entry (py "META-INF/container.xml") Sample.container_xml
                           ZIP_DEFLATED;
                     Entry (py "OEBPS/text/nav.xhtml") Sample.nav_xhtml
                           ZIP_DEFLATED]
               = Some (mimetype_head Sample.epub3_damaged ++ ws))).
Proof.
  split.
  - apply (proj1 (failed_conversion_output Sample.lxml (Converter 7)
                    Sample.no_container None)).
    reflexivity.
  - apply (proj2 (failed_conversion_output Sample.lxml (Converter 7)
                    Sample.epub3_damaged None)
             BadZipFile (Converter 4)).
    vm_compute. reflexivity.
Defined.

(** C4.  If the input has an entry named [mimetype], the output archive
    begins with the entry [mimetype], stored without compression,
    whatever its storage in the input; its content is the one read
    from the input.  This holds as soon as the [mimetype] has been
    read and written, so for every conversion that succeeds, and also
    for one that fails later.  Where the [mimetype] cannot be read the
    conversion fails with the exception of [ZipFile.read], and the
    output archive is empty: no output begins with another entry. *)
Theorem mimetype_first_and_stored
        (fromstring : bytes -> option Node) (self : EpubConverter)
        (zin : ZipFile) (out : option ZipFile) :
  has_name zin MIMETYPE = true ->
  (forall x d, read_input fromstring zin = inr x ->
     read zin MIMETYPE = inr d ->
     exists r self' rest,
       convert fromstring self zin out
       = (r, self', Some (Entry MIMETYPE d ZIP_STORED :: rest)))
  /\ (forall self' zout,
        convert fromstring self zin out = (inr tt, self', Some zout) ->
        exists d rest,
          zout = Entry MIMETYPE d ZIP_STORED :: rest
          /\ read zin MIMETYPE = inr d)
  /\ (forall x e, read_input fromstring zin = inr x ->
        read zin MIMETYPE = inl e ->
        exists self',
          convert fromstring self zin out = (inl e, self', Some [])).
Proof.
  intro Hm.
  assert (Hw : forall d p s r z,
             read zin MIMETYPE = inr d ->
             write_archive zin p s [] = (r, z) ->
             exists rest, z = Entry MIMETYPE d ZIP_STORED :: rest).
  { intros d p s r z Hd W.
    assert (Hh : mimetype_head zin = [Entry MIMETYPE d ZIP_STORED]).
    { unfold mimetype_head. now rewrite Hm, Hd. }
    apply write_archive_cases in W
      as [(e & ws & _ & ->)|(ws & b & _ & -> & _)]; rewrite Hh; cbn;
      eexists; reflexivity. }
  split; [|split].
  - intros [[[p t] a] nav] d H Hd. rewrite convert_eq, H. cbn zeta.
    destruct (write_archive zin p (ncx_string t a nav) []) as [r z] eqn:W.
    destruct (Hw _ _ _ _ _ Hd W) as [rest ->]. cbn [fst snd].
    now exists r, (Converter (snd (_build_ncx_points nav 1))), rest.
  - intros self' zout. rewrite convert_eq.
    destruct (read_input fromstring zin) as [e|[[[p t] a] nav]];
      [discriminate|].
    cbn zeta.
    destruct (write_archive zin p (ncx_string t a nav) []) as [r z] eqn:W.
    cbn [fst snd]. intro H. injection H as -> _ <-.
    destruct (read zin MIMETYPE) as [e|d] eqn:Hd.
    + rewrite (write_archive_mimetype_raise _ _ _ _ Hm Hd) in W.
      discriminate.
    + destruct (Hw _ _ _ _ _ eq_refl W) as [rest ->]. now exists d, rest.
  - intros [[[p t] a] nav] e H He. rewrite convert_eq, H. cbn zeta.
    rewrite (write_archive_mimetype_raise _ _ _ _ Hm He). cbn [fst snd].
    now exists (Converter (snd (_build_ncx_points nav 1))).
Qed.

Lemma mimetype_first_and_stored_witness :
  exists d rest,
    Sample.epub2 = Entry MIMETYPE d ZIP_STORED :: rest
    /\ read Sample.epub3 MIMETYPE = inr d.
Proof.
  apply (proj1 (proj2 (mimetype_first_and_stored Sample.lxml (Converter 1)
                         Sample.epub3 None eq_refl)) (Converter 4)).
  vm_compute. reflexivity.
Defined.

Section Copying.

Lemma Forall2_In_left {A B} (R : A -> B -> Prop) l ws x :
  Forall2 R l ws -> In x l -> exists w, In w ws /\ R x w.
Proof.
  induction 1 as [|a w l ws Ha _ IH]; intros Hx; [destruct Hx|].
  destruct Hx as [->|Hx].
  - exists w. split; [now left | exact Ha].
  - destruct (IH Hx) as [w' [Hw Hr]]. exists w'. split; [now right | exact Hr].
Qed.

Lemma written_filename zin opf_name item w :
  written zin opf_name item = inr w -> filename w = filename item.
Proof.
  unfold written, bind, ret, raise.
  destruct (read zin (filename item)); [discriminate|].
  destruct (str_eqb (filename item) opf_name).
  - destruct (Utf8.decode b); [discriminate|].
    destruct (Utf8.encode _); [discriminate|].
    intro H. now injection H as <-.
  - destruct (supported (compress_type item)); [|discriminate].
    intro H. now injection H as <-.
Qed.

Lemma written_names zin opf_name l ws :
  Forall2 (fun item w => written zin opf_name item = inr w) l ws ->
  namelist ws = namelist l.
Proof.
  unfold namelist.
  induction 1 as [|a w l ws Ha _ IH]; [reflexivity|].
  cbn [map]. now rewrite IH, (written_filename _ _ _ _ Ha).
Qed.

(** An entry that is not the package document is written with the
    bytes read under its name, and with its compression. *)
Lemma written_other zin opf_name item w :
  filename item <> opf_name ->
  written zin opf_name item = inr w ->
  filename w = filename item
  /\ compress_type w = compress_type item
  /\ read zin (filename item) = inr (data w).
Proof.
  intros Ho. unfold written, bind, ret, raise.
  destruct (read zin (filename item)) as [e|d]; [discriminate|].
  apply str_eqb_neq in Ho. rewrite Ho.
  destruct (supported (compress_type item)); [|discriminate].
  intro H. injection H as <-. now repeat split.
Qed.

Lemma filter_names_perm (f : ZipInfo -> bool) z :
  Permutation (namelist (filter f z)
               ++ namelist (filter (fun i => negb (f i)) z))
              (namelist z).
Proof.
  induction z as [|x z IH]; [constructor|].
  cbn [filter]. destruct (f x); cbn [negb namelist map app].
  - now constructor.
  - fold (namelist (filter f z)).
    fold (namelist (filter (fun i => negb (f i)) z)).
    fold (namelist z).
    apply Permutation_sym, Permutation_cons_app, Permutation_sym, IH.
Qed.

Lemma no_mimetype_names l :
  ~ In MIMETYPE (namelist l) -> namelist (filter is_mimetype l) = [].
Proof.
  induction l as [|y l IHl]; [reflexivity|]. intro H.
  cbn [filter]. unfold is_mimetype at 1.
  destruct (str_eqb (filename y) MIMETYPE) eqn:Ey.
  - apply str_eqb_eq in Ey. exfalso. apply H. now left.
  - apply IHl. intro H'. apply H. now right.
Qed.

(** With unique names the entries named [mimetype] are the one that is
    written first. *)
Lemma mimetype_head_names z :
  NoDup (namelist z) ->
  (has_name z MIMETYPE = true -> exists d, read z MIMETYPE = inr d) ->
  namelist (mimetype_head z) = namelist (filter is_mimetype z).
Proof.
  intros Hn Hr. unfold mimetype_head.
  destruct (has_name z MIMETYPE) eqn:Hm.
  - destruct (Hr eq_refl) as [d ->]. cbn. clear Hr d.
    apply has_name_In in Hm.
    induction z as [|x z IH]; [destruct Hm|].
    cbn in Hn. inversion Hn as [|? ? Hx Hz]; subst.
    cbn [filter]. unfold is_mimetype at 1.
    destruct (str_eqb (filename x) MIMETYPE) eqn:E.
    + apply str_eqb_eq in E. cbn. rewrite E. f_equal.
      symmetry. apply no_mimetype_names. now rewrite <- E.
    + apply IH; [exact Hz|].
      destruct Hm as [Hm|Hm]; [|exact Hm].
      apply str_eqb_neq in E. contradiction.
  - symmetry. apply no_mimetype_names.
    intro H. apply has_name_In in H. congruence.
Qed.

(** The names written are the names of the input. *)
Lemma written_all_names zin opf_name ws n :
  (has_name zin MIMETYPE = true -> exists d, read zin MIMETYPE = inr d) ->
  Forall2 (fun item w => written zin opf_name item = inr w)
          (filter (fun i => negb (is_mimetype i)) zin) ws ->
  In n (namelist (mimetype_head zin ++ ws)) <-> In n (namelist zin).
Proof.
  intros Hr F. unfold namelist at 1. rewrite map_app.
  fold (namelist (mimetype_head zin)). fold (namelist ws).
  rewrite (written_names _ _ _ _ F), in_app_iff.
  assert (Hf : In n (namelist (filter (fun i => negb (is_mimetype i)) zin))
               <-> In n (namelist zin) /\ n <> MIMETYPE).
  { unfold namelist. rewrite !in_map_iff. split.
    - intros (e & <- & He). apply filter_In in He as [He Hm].
      split; [now exists e|].
      unfold is_mimetype in Hm. apply negb_true_iff, str_eqb_neq in Hm.
      exact Hm.
    - intros [(e & <- & He) Hm]. exists e. split; [reflexivity|].
      apply filter_In. split; [exact He|].
      unfold is_mimetype. apply negb_true_iff. now apply str_eqb_neq. }
  rewrite Hf. unfold mimetype_head.
  destruct (has_name zin MIMETYPE) eqn:Hm.
  - destruct (Hr eq_refl) as [d ->]. cbn. apply has_name_In in Hm. split.
    + intros [[<-|[]]|[H _]]; assumption.
    + intro H. destruct (str_eqb n MIMETYPE) eqn:E.
      * apply str_eqb_eq in E. left. left. now symmetry.
      * apply str_eqb_neq in E. right. now split.
  - split.
    + intros [[]|[H _]]. exact H.
    + intro H. right. split; [exact H|]. intros ->.
      apply has_name_In in H. congruence.
Qed.

End Copying.

(** A write phase that succeeds has read the [mimetype]. *)
Lemma write_archive_ok_mimetype zin opf_path ncx_str z :
  write_archive zin opf_path ncx_str [] = (inr tt, z) ->
  has_name zin MIMETYPE = true -> exists d, read zin MIMETYPE = inr d.
Proof.
  intros W Hm. destruct (read zin MIMETYPE) as [e|d] eqn:Hr; [|now exists d].
  rewrite (write_archive_mimetype_raise _ _ _ _ Hm Hr) in W. discriminate.
Qed.

(** C3 (as stated, not so).  This archive has two entries named
    [OEBPS/text/c1.xhtml].  It converts; [ZipFile.read] gives for a
    name the bytes of the last entry of this name, so that both
    entries are written with the bytes of the second: the bytes of
    the first, which is not the package document, are nowhere in the
    output. *)
Lemma earlier_entry_of_a_name_not_copied :
  convert Sample.lxml (Converter 1) Sample.epub3_twice None
  = (inr tt, Converter 4,
     Some [Entry (py "mimetype") Sample.mimetype ZIP_STORED;
           Entry (py "META-INF/container.xml") Sample.container_xml
                 ZIP_DEFLATED;
           Entry (py "OEBPS/content.opf") Sample.content_opf2 ZIP_DEFLATED;
           Entry (py "OEBPS/text/nav.xhtml") Sample.nav_xhtml ZIP_DEFLATED;
           Entry (py "OEBPS/text/c1.xhtml") Sample.c1_later ZIP_STORED;
           Entry (py "OEBPS/text/c1.xhtml") Sample.c1_later ZIP_DEFLATED;
           Entry (py "OEBPS/toc.ncx") Sample.toc_ncx ZIP_DEFLATED])
  /\ In (Entry (py "OEBPS/text/c1.xhtml") Sample.c1_xhtml ZIP_STORED)
        Sample.epub3_twice
  /\ py "OEBPS/text/c1.xhtml" <> py "OEBPS/content.opf"
  /\ ~ exists e',
         In e' [Entry (py "mimetype") Sample.mimetype ZIP_STORED;
                Entry (py "META-INF/container.xml") Sample.container_xml
                      ZIP_DEFLATED;
                Entry (py "OEBPS/content.opf") Sample.content_opf2
                      ZIP_DEFLATED;
                Entry (py "OEBPS/text/nav.xhtml") Sample.nav_xhtml
                      ZIP_DEFLATED;
                Entry (py "OEBPS/text/c1.xhtml") Sample.c1_later ZIP_STORED;
                Entry (py "OEBPS/text/c1.xhtml") Sample.c1_later
                      ZIP_DEFLATED;
                Entry (py "OEBPS/toc.ncx") Sample.toc_ncx ZIP_DEFLATED]
         /\ filename e' = py "OEBPS/text/c1.xhtml"
         /\ data e' = Sample.c1_xhtml.
Proof.
  split; [vm_compute; reflexivity|].
  split; [unfold Sample.epub3_twice, Sample.epub3; cbn; tauto|].
  split; [vm_compute; discriminate|].
  intros (e' & Hin & Hn & Hd).
  cbn [In] in Hin.
  repeat (destruct Hin as [<-|Hin]; [vm_compute in Hn, Hd; discriminate|]).
  destruct Hin.
Qed.

(** C3, amended.  For every input archive that converts successfully,
    the output is a body and behind it one new entry: [toc.ncx] beside
    the package document.  The names of the body are the names of the
    input.  Every entry of the input whose name is not the path of the
    package document has an entry of its name in the body, with the
    bytes that the input gives for this name: its own bytes if it is
    the entry that [ZipFile.read] finds under its name (the last of
    that name).  So where the names of the input are unique, the body
    has the names of the input, each once, and every entry other than
    the package document is there with its bytes. *)
Theorem other_entries_copied
        (fromstring : bytes -> option Node) (self self' : EpubConverter)
        (zin zout : ZipFile) (out : option ZipFile) :
  convert fromstring self zin out = (inr tt, self', Some zout) ->
  exists opf_path body ncx,
    package_path fromstring zin = inr opf_path
    /\ zout = body ++ [Entry (toc_name opf_path) ncx ZIP_DEFLATED]
    /\ (forall n, In n (namelist body) <-> In n (namelist zin))
    /\ (forall e, In e zin -> filename e <> Path.as_posix opf_path ->
          exists e', In e' body
                     /\ filename e' = filename e
                     /\ read zin (filename e) = inr (data e')
                     /\ (getinfo zin (filename e) = Some e ->
                         data e' = data e))
    /\ (NoDup (namelist zin) ->
        Permutation (namelist body) (namelist zin)
        /\ forall e, In e zin -> filename e <> Path.as_posix opf_path ->
             exists e', In e' body
                        /\ filename e' = filename e /\ data e' = data e).
Proof.
  rewrite convert_eq.
  destruct (read_input fromstring zin) as [e|[[[p t] a] nav]] eqn:R;
    [discriminate|].
  cbn zeta.
  destruct (write_archive zin p (ncx_string t a nav) []) as [r z] eqn:W.
  cbn [fst snd]. intro H. injection H as -> _ <-.
  pose proof (write_archive_ok_mimetype _ _ _ _ W) as Hr.
  apply write_archive_cases in W
    as [(e & ws & E & _)|(ws & b & _ & -> & _ & F)]; [discriminate|].
  assert (Hc : forall e, In e zin -> filename e <> Path.as_posix p ->
                 exists e', In e' (mimetype_head zin ++ ws)
                            /\ filename e' = filename e
                            /\ read zin (filename e) = inr (data e')
                            /\ (getinfo zin (filename e) = Some e ->
                                data e' = data e)).
  { intros e He Ho.
    assert (Hg : forall d, read zin (filename e) = inr d ->
                           getinfo zin (filename e) = Some e -> d = data e).
    { intros d Hd G. rewrite (read_getinfo _ _ G) in Hd.
      apply read_entry_ok in Hd as (_ & _ & <-). reflexivity. }
    destruct (is_mimetype e) eqn:M.
    - unfold is_mimetype in M. apply str_eqb_eq in M.
      assert (Hm : has_name zin MIMETYPE = true).
      { apply has_name_In. rewrite <- M. now apply in_map. }
      destruct (Hr Hm) as [d Hd].
      exists (Entry MIMETYPE d ZIP_STORED). split.
      + apply in_or_app. left. unfold mimetype_head. rewrite Hm, Hd.
        now left.
      + rewrite M. cbn [filename data]. repeat split; [exact Hd|].
        intro G. apply Hg; rewrite M; assumption.
    - assert (Hf : In e (filter (fun i => negb (is_mimetype i)) zin)).
      { apply filter_In. split; [exact He | now rewrite M]. }
      destruct (Forall2_In_left _ _ _ _ F Hf) as [w [Hw Hx]].
      destruct (written_other _ _ _ _ Ho Hx) as (Hn & _ & Hd).
      exists w. split; [apply in_or_app; now right|].
      repeat split; [exact Hn | exact Hd | now apply Hg]. }
  exists p, (mimetype_head zin ++ ws), b.
  split; [exact (read_input_package_path _ _ _ _ _ _ R)|].
  split; [reflexivity|]. split; [|split].
  - intro n. now apply (written_all_names zin (Path.as_posix p)).
  - exact Hc.
  - intro Hn. split.
    + unfold namelist at 1. rewrite map_app.
      fold (namelist (mimetype_head zin)). fold (namelist ws).
      rewrite (mimetype_head_names zin Hn Hr), (written_names _ _ _ _ F).
      apply filter_names_perm.
    + intros e He Ho. destruct (Hc e He Ho) as (e' & Hi & Hf & _ & Hd).
      exists e'. repeat split; [exact Hi | exact Hf|].
      apply Hd. now apply getinfo_unique.
Qed.

Lemma other_entries_copied_witness :
  exists opf_path body ncx,
    package_path Sample.lxml Sample.epub3 = inr opf_path
    /\ Sample.epub2 = body ++ [Entry (toc_name opf_path) ncx ZIP_DEFLATED]
    /\ (forall n, In n (namelist body) <-> In n (namelist Sample.epub3))
    /\ (forall e, In e Sample.epub3 ->
          filename e <> Path.as_posix opf_path ->
          exists e', In e' body
                     /\ filename e' = filename e
                     /\ read Sample.epub3 (filename e) = inr (data e')
                     /\ (getinfo Sample.epub3 (filename e) = Some e ->
                         data e' = data e))
    /\ (NoDup (namelist Sample.epub3) ->
        Permutation (namelist body) (namelist Sample.epub3)
        /\ forall e, In e Sample.epub3 ->
             filename e <> Path.as_posix opf_path ->
             exists e', In e' body
                        /\ filename e' = filename e /\ data e' = data e).
Proof.
  apply (other_entries_copied Sample.lxml (Converter 1) (Converter 4)
           Sample.epub3 Sample.epub2 None).
  vm_compute. reflexivity.
Defined.

(** C2 (the code does not do it).  The small publication is converted,
    and the output is converted again.  The second run reads the
    package document patched by the first: it adds no manifest item
    and no spine attribute, but line 125 writes [OEBPS/toc.ncx] once
    more, behind the entry of that name copied from its input.  The
    output of the second run has two entries named [OEBPS/toc.ncx];
    the second, which [ZipFile.read] finds, has an empty map, as the
    navigation marker is gone from the package document. *)
Theorem second_conversion_adds_second_toc :
  convert Sample.lxml (Converter 1) Sample.epub3 None
  = (inr tt, Converter 4, Some Sample.epub2)
  /\ convert Sample.lxml (Converter 4) Sample.epub2 None
     = (inr tt, Converter 1,
        Some (Sample.epub2
              ++ [Entry (py "OEBPS/toc.ncx") Sample.toc_ncx2 ZIP_DEFLATED]))
  /\ count_name Sample.epub2 (py "OEBPS/toc.ncx") = 1
  /\ count_name (Sample.epub2
                 ++ [Entry (py "OEBPS/toc.ncx") Sample.toc_ncx2 ZIP_DEFLATED])
                (py "OEBPS/toc.ncx") = 2
  /\ read (Sample.epub2
           ++ [Entry (py "OEBPS/toc.ncx") Sample.toc_ncx2 ZIP_DEFLATED])
          (py "OEBPS/toc.ncx") = inr Sample.toc_ncx2
  /\ read Sample.epub2 (py "OEBPS/content.opf") = inr Sample.content_opf2
  /\ (content <- Utf8.decode Sample.content_opf2 ;;
      Utf8.encode (patch_content content))%exn = inr Sample.content_opf2.
Proof. repeat split; vm_compute; reflexivity. Qed.

(* ================================================================= *)
(** ** The scanning loop *)

Section Scan.

Variable redex : pystr -> pystr -> Prop.
Variable find : pystr -> option (nat * pystr).
Hypothesis find_ok : finds redex find.

Lemma find_nil : find [] = None.
Proof.
  destruct (find []) as [[n new]|] eqn:E; [|reflexivity].
  destruct (proj1 find_ok _ _ _ E) as (H0 & Hl & _). cbn in Hl. lia.
Qed.

Lemma scan_skip k : forall s,
  Re.scan find k s = Re.scan find 0 (skipn k s).
Proof.
  induction k as [|k IH]; intro s; [reflexivity|].
  destruct s as [|c s]; cbn [Re.scan skipn].
  - now rewrite find_nil.
  - apply IH.
Qed.

Lemma scan_Rewritten_length n : forall s,
  length s <= n -> Rewritten redex s (Re.scan find 0 s).
Proof.
  induction n as [|n IH]; intros s Hs.
  - destruct s; [|cbn in Hs; lia]. cbn. rewrite find_nil. constructor.
  - destruct s as [|c s]; [cbn; rewrite find_nil; constructor|].
    cbn [Re.scan]. cbn in Hs.
    destruct (find (c :: s)) as [[k new]|] eqn:E.
    + destruct (proj1 find_ok _ _ _ E) as (H0 & Hl & Hr).
      destruct k as [|k]; [contradiction|].
      rewrite scan_skip.
      rewrite <- (firstn_skipn (S k) (c :: s)) at 1.
      cbn [skipn]. apply rw_step.
      * exact Hr.
      * cbn. discriminate.
      * apply IH. rewrite length_skipn. lia.
    + apply rw_keep.
      * exact (proj2 find_ok _ E).
      * apply IH. lia.
Qed.

(** The loop replaces the occurrences from left to right. *)
Lemma scan_Rewritten s : Rewritten redex s (Re.scan find 0 s).
Proof. now apply (scan_Rewritten_length (length s)). Qed.

End Scan.

Section Prefixes.

Lemma startswith_app p s : startswith p (p ++ s) = true.
Proof.
  induction p as [|x p IH]; [reflexivity|].
  cbn. now rewrite N.eqb_refl, IH.
Qed.

Lemma startswith_split p s :
  startswith p s = true -> s = p ++ skipn (length p) s.
Proof.
  revert s. induction p as [|x p IH]; intros [|y s] H;
    try reflexivity; try discriminate.
  cbn in H. apply andb_true_iff in H as [Hx Hs].
  apply N.eqb_eq in Hx. subst y. cbn. f_equal. now apply IH.
Qed.

Lemma startswith_iff p s :
  startswith p s = true <-> exists r, s = p ++ r.
Proof.
  split.
  - intro H. eexists. now apply startswith_split.
  - intros [r ->]. apply startswith_app.
Qed.

Lemma contains_iff s p :
  contains s p = true <-> exists a b, s = a ++ p ++ b.
Proof.
  split.
  - induction s as [|c s IH]; cbn [contains]; intro H.
    + rewrite orb_false_r in H. apply startswith_iff in H as [r Hr].
      now exists [], r.
    + apply orb_true_iff in H as [H|H].
      * apply startswith_iff in H as [r Hr]. now exists [], r.
      * destruct (IH H) as (a & b & ->). now exists (c :: a), b.
  - intros (a & b & ->). induction a as [|c a IH].
    + cbn [app]. destruct (p ++ b) eqn:E; cbn [contains];
        rewrite <- E, startswith_app; reflexivity.
    + cbn [app contains]. rewrite IH. apply orb_true_r.
Qed.

Lemma firstn_app_exact {A} (a b : list A) : firstn (length a) (a ++ b) = a.
Proof.
  rewrite firstn_app, Nat.sub_diag, firstn_all. cbn. apply app_nil_r.
Qed.

Lemma between_app a b : Re.between (a ++ b) b = a.
Proof.
  unfold Re.between. rewrite length_app.
  replace (length a + length b - length b) with (length a) by lia.
  apply firstn_app_exact.
Qed.

End Prefixes.

(** [str.replace] with a non-empty [old] finds the occurrences of
    [old]. *)
Lemma find_str_finds old new :
  old <> [] ->
  finds (fun m n => m = old /\ n = new) (Re.find_str old new).
Proof.
  intro Ho. unfold Re.find_str. split.
  - intros s n new' H.
    destruct (startswith old s) eqn:E; [|discriminate].
    injection H as <- <-. apply startswith_iff in E as [r ->].
    rewrite firstn_app_exact, length_app. repeat split; [|lia].
    destruct old; [contradiction | discriminate].
  - intros s H m new' rest [-> _] ->.
    now rewrite startswith_app in H.
Qed.

(* ================================================================= *)
(** ** The matcher *)

Section Engine.

Lemma skipn_app_exact {A} (a b : list A) : skipn (length a) (a ++ b) = b.
Proof. induction a; [reflexivity | assumption]. Qed.

Lemma exec_star p pat m s :
  Re.exec (Re.Star p :: pat) m s = Re.star p (Re.exec pat m) s.
Proof. reflexivity. Qed.

(** Literal characters match the text they spell. *)
Lemma exec_lit l pat m s :
  Re.exec (Re.lit l ++ pat) m s =
  if startswith l s then Re.exec pat m (skipn (length l) s) else None.
Proof.
  revert s. induction l as [|x l IH]; intro s; [reflexivity|].
  cbn [Re.lit map app Re.exec startswith length skipn].
  destruct s as [|y s]; [reflexivity|].
  rewrite (N.eqb_sym x y). destruct (N.eqb y x); [|reflexivity].
  apply IH.
Qed.

Lemma exec_lit_app l pat m rest :
  Re.exec (Re.lit l ++ pat) m (l ++ rest) = Re.exec pat m rest.
Proof. now rewrite exec_lit, startswith_app, skipn_app_exact. Qed.

(** A starred class takes characters of the class, and the rest of the
    pattern matches behind them. *)
Lemma star_sound p k s r :
  Re.star p k s = Some r ->
  exists w s2, s = w ++ s2 /\ forallb p w = true /\ k s2 = Some r.
Proof.
  revert r. induction s as [|c s IH]; intros r H; cbn [Re.star] in H.
  - now exists [], [].
  - destruct (p c) eqn:Hc; [|now exists [], (c :: s)].
    destruct (Re.star p k s) as [r'|] eqn:E; [|now exists [], (c :: s)].
    injection H as <-.
    destruct (IH r' eq_refl) as (w & s2 & -> & Hw & Hk).
    exists (c :: w), s2. cbn. now rewrite Hc, Hw.
Qed.

(** It finds a match whenever there is a way to match. *)
Lemma star_complete p k w s2 r :
  forallb p w = true -> k s2 = Some r ->
  exists r', Re.star p k (w ++ s2) = Some r'.
Proof.
  intros Hw Hk. induction w as [|c w IH]; cbn [app].
  - destruct s2 as [|c s]; cbn [Re.star]; [now exists r|].
    destruct (p c); [|now exists r].
    destruct (Re.star p k s) as [r'|]; [now exists r' | now exists r].
  - cbn in Hw. apply andb_true_iff in Hw as [Hc Hw].
    destruct (IH Hw) as [r' Hr]. cbn [Re.star]. rewrite Hc, Hr.
    now exists r'.
Qed.

Lemma nav_attr_sound m s r :
  Re.exec NAV_ATTR m s = Some r ->
  fst r = m
  /\ exists ws v,
       s = (ws ++ py "properties=`" ++ v ++ py "`") ++ snd r
       /\ forallb isspace ws = true
       /\ forallb notdq v = true
       /\ contains v (py "nav") = true.
Proof.
  unfold NAV_ATTR. rewrite exec_star. intro H.
  apply star_sound in H as (ws & s2 & -> & Hws & H).
  rewrite exec_lit in H.
  destruct (startswith _ s2) eqn:E2; [|discriminate].
  apply startswith_split in E2. rewrite E2. clear E2.
  rewrite exec_star in H.
  apply star_sound in H as (v1 & s4 & -> & Hv1 & H).
  rewrite exec_lit in H.
  destruct (startswith _ s4) eqn:E4; [|discriminate].
  apply startswith_split in E4. rewrite E4. clear E4.
  rewrite exec_star in H.
  apply star_sound in H as (v2 & s6 & -> & Hv2 & H).
  rewrite <- (app_nil_r (Re.lit _)), exec_lit in H.
  destruct (startswith _ s6) eqn:E6; [|discriminate].
  apply startswith_split in E6. rewrite E6. clear E6.
  cbn [Re.exec] in H. injection H as <-. cbn [fst snd].
  split; [reflexivity|].
  exists ws, (v1 ++ py "nav" ++ v2). repeat split.
  - now rewrite <- !app_assoc.
  - exact Hws.
  - rewrite !forallb_app, Hv1, Hv2. reflexivity.
  - apply contains_iff. now exists v1, v2.
Qed.

Lemma nav_attr_complete m ws v rest :
  forallb isspace ws = true -> forallb notdq v = true ->
  contains v (py "nav") = true ->
  exists r,
    Re.exec NAV_ATTR m ((ws ++ py "properties=`" ++ v ++ py "`") ++ rest)
    = Some r.
Proof.
  intros Hws Hv Hc.
  apply contains_iff in Hc as (v1 & v2 & ->).
  rewrite !forallb_app in Hv.
  apply andb_true_iff in Hv as [Hv1 Hv].
  apply andb_true_iff in Hv as [_ Hv2].
  unfold NAV_ATTR. rewrite <- !app_assoc.
  destruct (star_complete notdq (Re.exec (Re.lit (py "`")) m)
              v2 (py "`" ++ rest) (m, rest) Hv2) as [r1 H1].
  { now rewrite <- (app_nil_r (Re.lit _)), exec_lit_app. }
  destruct (star_complete notdq
              (Re.exec (Re.lit (py "nav")
                        ++ Re.Star notdq :: Re.lit (py "`")) m)
              v1 (py "nav" ++ v2 ++ py "`" ++ rest) r1 Hv1) as [r2 H2].
  { now rewrite exec_lit_app, exec_star. }
  rewrite exec_star.
  apply (star_complete _ _ ws _ r2 Hws).
  now rewrite exec_lit_app, exec_star.
Qed.

Lemma spine_sound m s r :
  Re.exec SPINE m s = Some r ->
  exists attrs,
    s = (py "<spine" ++ attrs ++ py ">") ++ snd r
    /\ forallb notgt attrs = true
    /\ Re.between (Re.m_open (fst r)) (Re.m_close (fst r)) = attrs.
Proof.
  unfold SPINE. rewrite exec_lit. intro H.
  destruct (startswith _ s) eqn:E; [|discriminate].
  apply startswith_split in E. rewrite E. clear E.
  set (s1 := skipn _ s) in *. clearbody s1.
  cbn [Re.exec] in H.
  apply star_sound in H as (attrs & s2 & -> & Ha & H).
  cbn [Re.exec Re.m_open Re.m_close] in H.
  rewrite <- (app_nil_r (Re.lit _)), exec_lit in H.
  destruct (startswith _ s2) eqn:E; [|discriminate].
  apply startswith_split in E.
  cbn [Re.exec] in H. injection H as <-. cbn [fst snd Re.m_open Re.m_close].
  exists attrs. repeat split.
  - rewrite E at 1. now rewrite <- !app_assoc.
  - exact Ha.
  - apply between_app.
Qed.

Lemma spine_complete m attrs rest :
  forallb notgt attrs = true ->
  exists r,
    Re.exec SPINE m ((py "<spine" ++ attrs ++ py ">") ++ rest) = Some r.
Proof.
  intro Ha. unfold SPINE. rewrite <- !app_assoc, exec_lit_app.
  cbn [Re.exec].
  set (m1 := Re.Marks _ _).
  apply (star_complete notgt _ attrs (py ">" ++ rest)
           (Re.Marks (Re.m_open m1) (py ">" ++ rest), rest) Ha).
  cbn [Re.exec].
  now rewrite <- (app_nil_r (Re.lit _)), exec_lit_app.
Qed.

(** [re.sub] with the pattern of line 117 finds the navigation
    attributes. *)
Lemma find_nav_attr_finds :
  finds nav_attr_redex (Re.find_re NAV_ATTR []).
Proof.
  unfold Re.find_re, Re.match_at. split.
  - intros s n new H.
    destruct (Re.exec NAV_ATTR _ s) as [[m rest]|] eqn:E; [|discriminate].
    injection H as <- <-.
    apply nav_attr_sound in E as [_ (ws & v & -> & Hws & Hv & Hc)].
    cbn [snd]. rewrite between_app, firstn_app_exact.
    split; [|split].
    + rewrite !length_app. cbn. lia.
    + rewrite (length_app _ rest). lia.
    + now exists ws, v.
  - intros s H m new rest (ws & v & -> & Hws & Hv & Hc & _) ->.
    destruct (nav_attr_complete
                (Re.Marks ((ws ++ py "properties=`" ++ v ++ py "`") ++ rest)
                          ((ws ++ py "properties=`" ++ v ++ py "`") ++ rest))
                ws v rest Hws Hv Hc) as [[m r] Hr].
    now rewrite Hr in H.
Qed.

(** [re.sub] with the pattern of line 121 finds the spine tags. *)
Lemma find_spine_finds :
  finds spine_redex (Re.find_re SPINE SPINE_TOC).
Proof.
  unfold Re.find_re, Re.match_at. split.
  - intros s n new H.
    destruct (Re.exec SPINE _ s) as [[m rest]|] eqn:E; [|discriminate].
    injection H as <- <-.
    apply spine_sound in E as (attrs & -> & Ha & Hg).
    cbn [fst snd] in *. rewrite Hg, between_app, firstn_app_exact.
    split; [|split].
    + rewrite !length_app. cbn. lia.
    + rewrite (length_app _ rest). lia.
    + exists attrs. split; [reflexivity|]. split; [exact Ha|].
      reflexivity.
  - intros s H m new rest (attrs & -> & Ha & _) ->.
    destruct (spine_complete
                (Re.Marks ((py "<spine" ++ attrs ++ py ">") ++ rest)
                          ((py "<spine" ++ attrs ++ py ">") ++ rest))
                attrs rest Ha) as [[m r] Hr].
    now rewrite Hr in H.
Qed.


(** Where no occurrence starts, nothing changes. *)
Lemma Rewritten_id redex s t :
  Rewritten redex s t ->
  (forall a m new b, redex m new -> m <> [] -> s <> a ++ m ++ b) ->
  t = s.
Proof.
  induction 1 as [|c s t Hk _ IH|m new s t Hr Hm _ _]; intro Hno.
  - reflexivity.
  - f_equal. apply IH. intros a m new b Hr Hm ->.
    exact (Hno (c :: a) m new b Hr Hm eq_refl).
  - exfalso. exact (Hno [] m new s Hr Hm eq_refl).
Qed.

End Engine.

(* ================================================================= *)
(** ** The claims on the package patcher *)

Lemma downgrade_Rewritten content :
  exists c1,
    Rewritten version_redex content c1
    /\ Rewritten nav_attr_redex c1 (downgrade content).
Proof.
  exists (Re.replace content (py "version=`3.0`") (py "version=`2.0`")).
  split.
  - apply (scan_Rewritten version_redex).
    apply find_str_finds. discriminate.
  - apply (scan_Rewritten nav_attr_redex), find_nav_attr_finds.
Qed.

Lemma downgrade_id content :
  contains content (py "version=`3.0`") = false ->
  contains content (py "properties=`") = false ->
  downgrade content = content.
Proof.
  intros Hv Hp.
  destruct (downgrade_Rewritten content) as (c1 & H1 & H2).
  assert (E1 : c1 = content).
  { apply (Rewritten_id _ _ _ H1). intros a m new b [-> _] _ ->.
    enough (contains (a ++ py "version=`3.0`" ++ b) (py "version=`3.0`") = true)
      by congruence.
    apply contains_iff. now exists a, b. }
  subst c1.
  apply (Rewritten_id _ _ _ H2).
  intros a m new b (ws & v & -> & _) _ ->.
  enough (contains (a ++ (ws ++ py "properties=`" ++ v ++ py "`") ++ b)
                   (py "properties=`") = true) by congruence.
  apply contains_iff. exists (a ++ ws), (v ++ py "`" ++ b).
  now rewrite <- !app_assoc.
Qed.

(** C5 (as stated, not so).  In this package document the version and
    the navigation marker are written with single quotes, as XML
    allows: lxml reads the version 3.0 and the marker [nav], the
    patcher changes nothing. *)
Lemma single_quoted_attributes_kept :
  Sample.lxml Sample.quoted_opf = Some Sample.quoted_tree
  /\ get Sample.quoted_tree (py "version") = Some (py "3.0")
  /\ length (filter is_nav_item
               (descendant (NS.opf, py "item") Sample.quoted_tree)) = 1
  /\ (content <- Utf8.decode Sample.quoted_opf ;;
      Utf8.encode (patch_content content))%exn = inr Sample.quoted_opf.
Proof. repeat split; vm_compute; reflexivity. Qed.

(** C5, amended.  The patcher replaces each occurrence of the text
    [version=`3.0`] by [version=`2.0`]; then it deletes each
    occurrence of [properties=`v`], [v] without double quote and with
    [nav] in it, together with the white space before it: the whole
    attribute.  Every other character is copied (then comes the
    conditional insertion of lines 118-121): a text without
    [version=`3.0`] and without [properties=`] comes out unchanged, and
    so does an attribute written with single quotes. *)
Theorem patcher_substitutions (content : pystr) :
  (exists c1,
      Rewritten version_redex content c1
      /\ Rewritten nav_attr_redex c1 (downgrade content))
  /\ patch_content content = register_ncx (downgrade content)
  /\ (contains content (py "version=`3.0`") = false ->
      contains content (py "properties=`") = false ->
      downgrade content = content
      /\ (contains content (py "toc.ncx") = true ->
          patch_content content = content)).
Proof.
  split; [apply downgrade_Rewritten|]. split; [reflexivity|].
  intros Hv Hp. pose proof (downgrade_id content Hv Hp) as E.
  split; [exact E|].
  intro Ht. unfold patch_content, register_ncx. now rewrite E, Ht.
Qed.

Lemma patcher_substitutions_witness :
  downgrade Sample.quoted_opf = Sample.quoted_opf
  /\ (contains Sample.quoted_opf (py "toc.ncx") = true ->
      patch_content Sample.quoted_opf = Sample.quoted_opf).
Proof.
  apply (proj2 (proj2 (patcher_substitutions Sample.quoted_opf)));
    vm_compute; reflexivity.
Defined.

(** C6 (as stated, not so).  This package document has one manifest
    item, for [text/c1.xhtml], and none for a file named [toc.ncx]; a
    comment mentions [toc.ncx].  The patcher downgrades the version and
    inserts neither manifest item nor spine attribute. *)
Lemma comment_blocks_registration :
  Sample.lxml Sample.commented_opf = Some Sample.commented_tree
  /\ manifest_refs Sample.commented_tree (py "toc.ncx") = []
  /\ patch_content Sample.commented_opf
     = py "<package xmlns=`http://www.idpf.org/2007/opf` version=`2.0`><!-- toc.ncx is made by the build --><manifest><item id=`c1` href=`text/c1.xhtml` media-type=`application/xhtml+xml`/></manifest><spine><itemref idref=`c1`/></spine></package>"
  /\ contains (patch_content Sample.commented_opf) (py "<item id=`ncx`") = false
  /\ contains (patch_content Sample.commented_opf) (py "toc=`ncx`") = false.
Proof. repeat split; vm_compute; reflexivity. Qed.

(** C6, amended.  Let [c] be the text after the substitutions of lines
    116-117.  If [c] does not contain the text [toc.ncx], the patcher
    puts the new manifest item, for an NCX at [toc.ncx], immediately in
    front of each [</manifest>], and then adds [ toc=`ncx`] at the end
    of each tag [<spine ...>].  If [c] contains [toc.ncx] anywhere, in
    a manifest item or not, it inserts nothing. *)
Theorem ncx_registration (content : pystr) :
  (contains (downgrade content) (py "toc.ncx") = true ->
   patch_content content = downgrade content)
  /\ (contains (downgrade content) (py "toc.ncx") = false ->
      exists c',
        Rewritten manifest_redex (downgrade content) c'
        /\ Rewritten spine_redex c' (patch_content content)).
Proof.
  unfold patch_content, register_ncx. split; intros ->; cbn [negb].
  - reflexivity.
  - eexists. split.
    + apply (scan_Rewritten manifest_redex).
      apply find_str_finds. discriminate.
    + apply (scan_Rewritten spine_redex), find_spine_finds.
Qed.

Lemma ncx_registration_witness :
  patch_content Sample.content_opf2 = downgrade Sample.content_opf2
  /\ exists c',
       Rewritten manifest_redex (downgrade Sample.content_opf) c'
       /\ Rewritten spine_redex c' (patch_content Sample.content_opf).
Proof.
  split.
  - apply (proj1 (ncx_registration Sample.content_opf2)).
    vm_compute. reflexivity.
  - apply (proj2 (ncx_registration Sample.content_opf)).
    vm_compute. reflexivity.
Defined.

(* ================================================================= *)
(** ** Paths *)

Section Paths.

Import Path.















End Paths.

(* ================================================================= *)
(** ** The navigation parser *)

Section Parser.

Variable nav_rel_dir : Path.t.

(** [_parse_nav_level] is the loop over the list items with the body
    [parse_item]. *)
Lemma _parse_nav_level_eq element :
  _parse_nav_level nav_rel_dir element
  = for_child LI (parse_item nav_rel_dir) element.
Proof. destruct element; reflexivity. Qed.

Lemma for_child_nil {A} q (body : Node -> result (option A)) tag attrib :
  for_child q body (Element tag attrib []) = inr [].
Proof. reflexivity. Qed.

Lemma for_child_cons {A} q (body : Node -> result (option A))
      tag attrib x cs :
  for_child q body (Element tag attrib (x :: cs)) =
  if is_tag q x then
    match body x with
    | inl e => inl e
    | inr None => for_child q body (Element tag attrib cs)
    | inr (Some a) =>
        match for_child q body (Element tag attrib cs) with
        | inl e => inl e
        | inr l => inr (a :: l)
        end
    end
  else for_child q body (Element tag attrib cs).
Proof. reflexivity. Qed.

(** The loop over a list of children is the loop over its front, then
    the loop over its back. *)
Lemma for_child_app {A} q (body : Node -> result (option A))
      tag attrib pre post :
  for_child q body (Element tag attrib (pre ++ post)) =
  (x <- for_child q body (Element tag attrib pre) ;;
   y <- for_child q body (Element tag attrib post) ;;
   ret (x ++ y))%exn.
Proof.
  induction pre as [|c pre IH]; cbn [app].
  - rewrite for_child_nil. unfold bind, ret. cbn [app].
    now destruct (for_child q body (Element tag attrib post)).
  - rewrite !for_child_cons, IH. unfold bind, ret.
    destruct (is_tag q c); [|reflexivity].
    destruct (body c) as [e|[a|]]; try reflexivity.
    destruct (for_child q body (Element tag attrib pre)) as [e|x];
      [reflexivity|].
    now destruct (for_child q body (Element tag attrib post)).
Qed.

(** [first_child] is the first of the children of that name. *)
Lemma first_child_eq {A} q (k : Node -> A) (d : A) n :
  first_child q k d n =
  match child q n with
  | [] => d
  | x :: _ => k x
  end.
Proof.
  destruct n as [tag attrib cs| |]; try reflexivity.
  unfold child. cbn [first_child children_of].
  induction cs as [|c cs IH]; [reflexivity|].
  cbn [filter]. now destruct (is_tag q c).
Qed.

Lemma first_child_In {A} q (k : Node -> A) (d : A) tag attrib cs :
  first_child q k d (Element tag attrib cs) = d
  \/ exists x, In x cs /\ first_child q k d (Element tag attrib cs) = k x.
Proof.
  cbn [first_child]. induction cs as [|c cs IH]; [now left|].
  destruct (is_tag q c).
  - right. exists c. split; [now left | reflexivity].
  - destruct IH as [IH|[x [Hx IH]]]; [now left|].
    right. exists x. split; [now right | exact IH].
Qed.




End Parser.

(* ================================================================= *)
(** ** The claims on the navigation parser *)





(** C10.  A list item with more than one anchor gives exactly one
    navigation item, made of its first anchor: the label is the text
    of the first anchor, the target comes from its [href]; the other
    anchors do not occur in the outcome.  The items of the list in
    front of it come before, those behind it after; that there are
    several anchors raises nothing. *)
Theorem first_anchor_only
        (nav_rel_dir : Path.t) (tag : qname) (attrib : list (qname * pystr))
        (pre post : list Node) (li a b : Node) (more : list Node) :
  is_tag LI li = true ->
  child ANCHOR li = a :: b :: more ->
  _parse_nav_level nav_rel_dir (Element tag attrib (pre ++ li :: post)) =
  (x <- _parse_nav_level nav_rel_dir (Element tag attrib pre) ;;
   src <- resolve_src nav_rel_dir (get a (py "href")) ;;
   children <- match child OL li with
               | [] => ret []
               | ol :: _ => _parse_nav_level nav_rel_dir ol
               end ;;
   y <- _parse_nav_level nav_rel_dir (Element tag attrib post) ;;
   ret (x ++ Item (strip (itertext a)) src children :: y))%exn.
Proof.
  intros Hli Ha.
  rewrite !_parse_nav_level_eq, for_child_app, for_child_cons, Hli.
  unfold parse_item at 2. fold ANCHOR. fold OL. rewrite Ha.
  rewrite first_child_eq. unfold bind, ret.
  destruct (for_child LI (parse_item nav_rel_dir) (Element tag attrib pre))
    as [e|x]; [reflexivity|].
  destruct (resolve_src nav_rel_dir (get a (py "href"))) as [e|src];
    [reflexivity|].
  destruct (child OL li) as [|ol ols].
  - now destruct (for_child LI (parse_item nav_rel_dir)
                    (Element tag attrib post)).
  - destruct (_parse_nav_level nav_rel_dir ol) as [e|children];
      [reflexivity|].
    now destruct (for_child LI (parse_item nav_rel_dir)
                    (Element tag attrib post)).
Qed.

Lemma first_anchor_only_witness :
  _parse_nav_level (Path.of_str (py "text")) Sample.toc_ol
  = inr [Item (py "Ch1") (Some (py "text/c1.xhtml")) [];
         Item (py "Ch2") (Some (py "text/c2.xhtml"))
              [Item (py "Ch2.1") (Some (py "text/c2.xhtml#a")) []]].
Proof.
  etransitivity.
  - exact (first_anchor_only (Path.of_str (py "text"))
             (NS.xhtml, py "ol") []
             [Sample.H "li" [] [Sample.anchor "c1.xhtml" "Ch1"]]
             [] Sample.li2
             (Sample.anchor "c2.xhtml" "Ch2")
             (Sample.anchor "notes.xhtml" "notes") []
             eq_refl eq_refl).
  - vm_compute. reflexivity.
Defined.

(* ================================================================= *)
(** ** Every conversion adds an entry [toc.ncx] *)

Section TocEntry.

Lemma join_last sep l x : exists front, join sep (l ++ [x]) = front ++ x.
Proof.
  induction l as [|y l [front IH]].
  - now exists [].
  - cbn [app]. destruct (l ++ [x]) as [|z r] eqn:E.
    + now destruct l.
    + change (join sep (y :: z :: r)) with (y ++ sep ++ join sep (z :: r)).
      rewrite IH. exists (y ++ sep ++ front). now rewrite <- !app_assoc.
Qed.

Lemma toc_name_ends opf_path :
  exists front, toc_name opf_path = front ++ py "toc.ncx".
Proof.
  unfold toc_name, Path.join_str.
  change (Path.of_str (py "toc.ncx")) with (Path.Make [] [py "toc.ncx"]).
  cbn [Path.root Path.parts Path.parent]. unfold Path.as_posix.
  cbn [Path.root Path.parts].
  destruct (join_last [Path.SLASH] (removelast (Path.parts opf_path))
              (py "toc.ncx")) as [front E].
  destruct (Path.root opf_path) as [|c r].
  - destruct (removelast (Path.parts opf_path) ++ [py "toc.ncx"]) eqn:L.
    + now destruct (removelast (Path.parts opf_path)).
    + exists front. exact E.
  - exists ((c :: r) ++ front). now rewrite E, <- app_assoc.
Qed.

Lemma toc_name_not_mimetype opf_path : toc_name opf_path <> MIMETYPE.
Proof.
  destruct (toc_name_ends opf_path) as [front ->]. intro E.
  apply (f_equal (@rev N)) in E. rewrite rev_app_distr in E.
  vm_compute in E. discriminate.
Qed.

Lemma count_name_app z1 z2 name :
  count_name (z1 ++ z2) name = count_name z1 name + count_name z2 name.
Proof. unfold count_name. now rewrite filter_app, length_app. Qed.

Lemma count_name_names z1 z2 name :
  namelist z1 = namelist z2 -> count_name z1 name = count_name z2 name.
Proof.
  unfold count_name, namelist. revert z2.
  induction z1 as [|e z1 IH]; intros [|e' z2] E; try discriminate;
    [reflexivity|].
  cbn in E. injection E as E1 E2. cbn [filter]. rewrite E1.
  destruct (str_eqb (filename e') name); cbn [length];
    now rewrite (IH z2 E2).
Qed.

Lemma count_name_without_mimetype z name :
  name <> MIMETYPE ->
  count_name (filter (fun i => negb (is_mimetype i)) z) name
  = count_name z name.
Proof.
  intro Hn. unfold count_name.
  induction z as [|e z IH]; [reflexivity|].
  cbn [filter]. unfold is_mimetype at 1.
  destruct (str_eqb (filename e) MIMETYPE) eqn:M; cbn [negb filter].
  - apply str_eqb_eq in M.
    replace (str_eqb (filename e) name) with false; [exact IH|].
    symmetry. apply str_eqb_neq. congruence.
  - destruct (str_eqb (filename e) name); cbn [length]; now rewrite IH.
Qed.

Lemma count_name_mimetype_head z name :
  name <> MIMETYPE -> count_name (mimetype_head z) name = 0.
Proof.
  intro Hn. unfold mimetype_head.
  destruct (has_name z MIMETYPE); [|reflexivity].
  destruct (read z MIMETYPE); [reflexivity|].
  unfold count_name. cbn [filter filename].
  replace (str_eqb MIMETYPE name) with false; [reflexivity|].
  symmetry. apply str_eqb_neq. congruence.
Qed.

(** A conversion that succeeds leaves one more entry under the name of
    the navigation file than its input has, whether the input has one
    or not. *)
Lemma convert_adds_toc fromstring self self' zin zout out :
  convert fromstring self zin out = (inr tt, self', Some zout) ->
  exists opf_path,
    package_path fromstring zin = inr opf_path
    /\ count_name zout (toc_name opf_path)
       = count_name zin (toc_name opf_path) + 1.
Proof.
  rewrite convert_eq.
  destruct (read_input fromstring zin) as [e|[[[p t] a] nav]] eqn:R;
    [discriminate|].
  cbn zeta.
  destruct (write_archive zin p (ncx_string t a nav) []) as [r z] eqn:W.
  cbn [fst snd]. intro H. injection H as -> _ <-.
  apply write_archive_cases in W
    as [(e & ws & E & _)|(ws & b & _ & -> & _ & F)]; [discriminate|].
  exists p. split; [exact (read_input_package_path _ _ _ _ _ _ R)|].
  pose proof (toc_name_not_mimetype p) as Hn.
  rewrite !count_name_app, (count_name_mimetype_head zin _ Hn).
  rewrite (count_name_names ws _ _ (written_names _ _ _ _ F)).
  rewrite (count_name_without_mimetype zin _ Hn).
  unfold count_name at 2. cbn [filter filename].
  now rewrite str_eqb_refl.
Qed.

(** So the output of a second conversion, of the output of a first one
    with the same package path, has at least two. *)
Lemma second_conversion_duplicates
      fromstring self1 self1' self2 self2' zin z1 z2 out1 out2 opf_path :
  convert fromstring self1 zin out1 = (inr tt, self1', Some z1) ->
  convert fromstring self2 z1 out2 = (inr tt, self2', Some z2) ->
  package_path fromstring zin = inr opf_path ->
  package_path fromstring z1 = inr opf_path ->
  2 <= count_name z2 (toc_name opf_path).
Proof.
  intros H1 H2 P0 P1.
  apply convert_adds_toc in H1 as (p & Hp & C1).
  apply convert_adds_toc in H2 as (p' & Hp' & C2).
  rewrite P0 in Hp. rewrite P1 in Hp'.
  injection Hp as <-. injection Hp' as <-. lia.
Qed.

End TocEntry.

(* ================================================================= *)
(** * Further properties *)

(** ** The UTF-8 codec *)

Section Codec.

Local Open Scope N_scope.

Lemma divmod64 q r :
  r < 64 -> (q * 64 + r) / 64 = q /\ (q * 64 + r) mod 64 = r.
Proof.
  intro H. split.
  - symmetry. apply (N.div_unique _ 64 q r); lia.
  - symmetry. apply (N.mod_unique _ 64 q r); lia.
Qed.

Lemma is_scalar_iff c :
  is_scalar c = true <-> (c < 55296 \/ 57343 < c) /\ c < 1114112.
Proof.
  unfold is_scalar.
  rewrite andb_true_iff, orb_true_iff, !N.ltb_lt. reflexivity.
Qed.

Lemma encode_char_1 b0 : b0 < 128 -> Utf8.encode_char b0 = Some [b0].
Proof. intro H. unfold Utf8.encode_char. now next_test. Qed.

Lemma encode_char_2 b0 b1 :
  194 <= b0 -> b0 <= 223 -> 128 <= b1 -> b1 <= 191 ->
  Utf8.encode_char ((b0 - 192) * 64 + (b1 - 128)) = Some [b0; b1]
  /\ is_scalar ((b0 - 192) * 64 + (b1 - 128)) = true.
Proof.
  intros. unfold Utf8.encode_char, is_scalar.
  destruct (divmod64 (b0 - 192) (b1 - 128)) as [Ed Em]; [lia|].
  set (c := (b0 - 192) * 64 + (b1 - 128)) in *.
  assert (128 <= c /\ c < 2048) by (subst c; lia).
  split.
  - do 2 next_test. rewrite Ed, Em. do 2 f_equal; [lia|]. f_equal. lia.
  - apply is_scalar_iff. lia.
Qed.

Lemma encode_char_3 b0 b1 b2 :
  224 <= b0 -> b0 <= 239 -> 128 <= b1 -> b1 <= 191 ->
  128 <= b2 -> b2 <= 191 ->
  (b0 = 224 -> 160 <= b1) -> (b0 = 237 -> b1 <= 159) ->
  Utf8.encode_char ((b0 - 224) * 4096 + (b1 - 128) * 64 + (b2 - 128))
  = Some [b0; b1; b2]
  /\ is_scalar ((b0 - 224) * 4096 + (b1 - 128) * 64 + (b2 - 128)) = true.
Proof.
  intros. unfold Utf8.encode_char.
  set (q := (b0 - 224) * 64 + (b1 - 128)).
  replace ((b0 - 224) * 4096 + (b1 - 128) * 64 + (b2 - 128))
    with (q * 64 + (b2 - 128)) by (subst q; lia).
  destruct (divmod64 q (b2 - 128)) as [Ed Em]; [lia|].
  destruct (divmod64 (b0 - 224) (b1 - 128)) as [Ed' Em']; [lia|].
  fold q in Ed', Em'.
  assert (Hq : 32 <= q /\ q < 1024 /\ (q < 864 \/ 896 <= q))
    by (subst q; lia).
  set (c := q * 64 + (b2 - 128)) in *.
  assert (2048 <= c /\ c < 65536 /\ (c < 55296 \/ 57343 < c)) by (subst c; lia).
  split.
  - do 4 next_test.
    change 4096 with (64 * 64). rewrite <- N.Div0.div_div, Ed, Ed', Em', Em.
    do 2 f_equal; [lia|]. f_equal; [lia|]. f_equal. lia.
  - apply is_scalar_iff. lia.
Qed.

Lemma encode_char_4 b0 b1 b2 b3 :
  240 <= b0 -> b0 <= 244 -> 128 <= b1 -> b1 <= 191 ->
  128 <= b2 -> b2 <= 191 -> 128 <= b3 -> b3 <= 191 ->
  (b0 = 240 -> 144 <= b1) -> (b0 = 244 -> b1 <= 143) ->
  Utf8.encode_char ((b0 - 240) * 262144 + (b1 - 128) * 4096
                    + (b2 - 128) * 64 + (b3 - 128))
  = Some [b0; b1; b2; b3]
  /\ is_scalar ((b0 - 240) * 262144 + (b1 - 128) * 4096
                + (b2 - 128) * 64 + (b3 - 128)) = true.
Proof.
  intros. unfold Utf8.encode_char.
  set (p := (b0 - 240) * 64 + (b1 - 128)).
  set (q := p * 64 + (b2 - 128)).
  replace ((b0 - 240) * 262144 + (b1 - 128) * 4096
           + (b2 - 128) * 64 + (b3 - 128))
    with (q * 64 + (b3 - 128)) by (subst q p; lia).
  destruct (divmod64 q (b3 - 128)) as [Ed Em]; [lia|].
  destruct (divmod64 p (b2 - 128)) as [Ed' Em']; [lia|].
  destruct (divmod64 (b0 - 240) (b1 - 128)) as [Ed2 Em2]; [lia|].
  fold p in Ed2, Em2. fold q in Ed', Em'.
  assert (Hp : 16 <= p /\ p < 272) by (subst p; lia).
  assert (Hq : 1024 <= q /\ q < 17408) by (subst q; lia).
  set (c := q * 64 + (b3 - 128)) in *.
  assert (65536 <= c /\ c < 1114112) by (subst c; lia).
  split.
  - do 4 next_test.
    change 262144 with (64 * (64 * 64)). change 4096 with (64 * 64).
    rewrite <- !N.Div0.div_div, Ed, Ed', Ed2, Em2, Em', Em.
    do 2 f_equal; [lia|]. f_equal; [lia|]. f_equal; [lia|]. f_equal. lia.
  - apply is_scalar_iff. lia.
Qed.

Lemma encode_opt_cons c s b bs :
  Utf8.encode_char c = Some b -> Utf8.encode_opt s = Some bs ->
  Utf8.encode_opt (c :: s) = Some (b ++ bs).
Proof. intros H1 H2. cbn [Utf8.encode_opt]. now rewrite H1, H2. Qed.

Lemma decode_encode_length n : forall bs s,
  (length bs <= n)%nat ->
  Utf8.decode_opt bs = Some s ->
  Utf8.encode_opt s = Some bs /\ forallb is_scalar s = true.
Proof.
  induction n as [|n IH]; intros bs s Hl H.
  { destruct bs; [|cbn in Hl; lia]. cbn in H. injection H as <-. now split. }
  destruct bs as [|b0 r0];
    [cbn in H; injection H as <-; now split|].
  cbn [length] in Hl. cbn [Utf8.decode_opt] in H.
  destruct (b0 <? 128) eqn:T1.
  { destruct (Utf8.decode_opt r0) as [s'|] eqn:D; [|discriminate].
    cbn in H. injection H as <-.
    destruct (IH r0 s') as [E F]; [lia|exact D|]. btests.
    split.
    - now rewrite (encode_opt_cons b0 s' [b0] r0 (encode_char_1 b0 T1) E).
    - cbn [forallb]. rewrite F, andb_true_r. apply is_scalar_iff. lia. }
  destruct ((194 <=? b0) && (b0 <=? 223)) eqn:T2.
  { destruct r0 as [|b1 r1]; [discriminate|].
    unfold Utf8.cont in H.
    destruct ((128 <=? b1) && (b1 <=? 191)) eqn:C1; [|discriminate].
    destruct (Utf8.decode_opt r1) as [s'|] eqn:D; [|discriminate].
    cbn in H. injection H as <-. cbn [length] in Hl.
    destruct (IH r1 s') as [E F]; [lia|exact D|]. btests.
    destruct (encode_char_2 b0 b1) as [Ec Es]; try assumption.
    split.
    - now rewrite (encode_opt_cons _ s' _ r1 Ec E).
    - cbn [forallb]. now rewrite Es, F. }
  destruct ((224 <=? b0) && (b0 <=? 239)) eqn:T3.
  { destruct r0 as [|b1 [|b2 r2]]; try discriminate.
    unfold Utf8.cont in H.
    destruct (_ && _ && _ && _) eqn:C; [|discriminate].
    destruct (Utf8.decode_opt r2) as [s'|] eqn:D; [|discriminate].
    cbn in H. injection H as <-. cbn [length] in Hl.
    destruct (IH r2 s') as [E F]; [lia|exact D|]. btests.
    destruct (encode_char_3 b0 b1 b2) as [Ec Es]; try assumption.
    - bound_side.
    - bound_side.
    - split.
      + now rewrite (encode_opt_cons _ s' _ r2 Ec E).
      + cbn [forallb]. now rewrite Es, F. }
  destruct ((240 <=? b0) && (b0 <=? 244)) eqn:T4; [|discriminate].
  destruct r0 as [|b1 [|b2 [|b3 r3]]]; try discriminate.
  unfold Utf8.cont in H.
  destruct (_ && _ && _ && _ && _) eqn:C; [|discriminate].
  destruct (Utf8.decode_opt r3) as [s'|] eqn:D; [|discriminate].
  cbn in H. injection H as <-. cbn [length] in Hl.
  destruct (IH r3 s') as [E F]; [lia|exact D|]. btests.
  destruct (encode_char_4 b0 b1 b2 b3) as [Ec Es]; try assumption.
  - bound_side.
  - bound_side.
  - split.
    + now rewrite (encode_opt_cons _ s' _ r3 Ec E).
    + cbn [forallb]. now rewrite Es, F.
Qed.

Lemma decode_encode bs s :
  Utf8.decode_opt bs = Some s ->
  Utf8.encode_opt s = Some bs /\ forallb is_scalar s = true.
Proof. apply (decode_encode_length (length bs)). lia. Qed.

Lemma decode_opt_cons b0 r0 :
  Utf8.decode_opt (b0 :: r0) =
  if b0 <? 128 then option_map (cons b0) (Utf8.decode_opt r0)
  else if (194 <=? b0) && (b0 <=? 223) then
    match r0 with
    | b1 :: r1 =>
        if Utf8.cont b1
        then option_map (cons ((b0 - 192) * 64 + (b1 - 128)))
                        (Utf8.decode_opt r1)
        else None
    | _ => None
    end
  else if (224 <=? b0) && (b0 <=? 239) then
    match r0 with
    | b1 :: b2 :: r2 =>
        if Utf8.cont b1 && Utf8.cont b2
           && (negb (b0 =? 224) || (160 <=? b1))
           && (negb (b0 =? 237) || (b1 <=? 159))
        then option_map
               (cons ((b0 - 224) * 4096 + (b1 - 128) * 64 + (b2 - 128)))
               (Utf8.decode_opt r2)
        else None
    | _ => None
    end
  else if (240 <=? b0) && (b0 <=? 244) then
    match r0 with
    | b1 :: b2 :: b3 :: r3 =>
        if Utf8.cont b1 && Utf8.cont b2 && Utf8.cont b3
           && (negb (b0 =? 240) || (144 <=? b1))
           && (negb (b0 =? 244) || (b1 <=? 143))
        then option_map
               (cons ((b0 - 240) * 262144 + (b1 - 128) * 4096
                      + (b2 - 128) * 64 + (b3 - 128)))
               (Utf8.decode_opt r3)
        else None
    | _ => None
    end
  else None.
Proof. reflexivity. Qed.

Lemma Some_inj {A} (x y : A) : Some x = Some y -> x = y.
Proof. congruence. Qed.

(** The bytes of a character are read back as this character. *)
Lemma decode_encode_char c b rest :
  Utf8.encode_char c = Some b ->
  Utf8.decode_opt (b ++ rest) = option_map (cons c) (Utf8.decode_opt rest).
Proof.
  unfold Utf8.encode_char.
  pose proof (N.div_mod c 64 ltac:(lia)) as H1.
  pose proof (N.mod_lt c 64 ltac:(lia)) as L1.
  pose proof (N.div_mod (c / 64) 64 ltac:(lia)) as H2.
  pose proof (N.mod_lt (c / 64) 64 ltac:(lia)) as L2.
  pose proof (N.div_mod (c / 64 / 64) 64 ltac:(lia)) as H3.
  pose proof (N.mod_lt (c / 64 / 64) 64 ltac:(lia)) as L3.
  replace (c / 262144) with (c / 64 / 64 / 64)
    by (rewrite !N.Div0.div_div; reflexivity).
  replace (c / 4096) with (c / 64 / 64)
    by (rewrite !N.Div0.div_div; reflexivity).
  set (q1 := c / 64) in *. set (r1 := c mod 64) in *.
  set (q2 := q1 / 64) in *. set (r2 := q1 mod 64) in *.
  set (q3 := q2 / 64) in *. set (r3 := q2 mod 64) in *.
  clearbody q1 r1 q2 r2 q3 r3.
  destruct (c <? 128) eqn:T1.
  { intro H. apply Some_inj in H. subst b. cbv [app].
    now rewrite decode_opt_cons, T1. }
  destruct (c <? 2048) eqn:T2.
  { intro H. apply Some_inj in H. subst b. btests.
    cbv [app]. rewrite decode_opt_cons. unfold Utf8.cont.
    repeat next_test. do 2 f_equal. lia. }
  destruct (c <? 65536) eqn:T3.
  { destruct ((55296 <=? c) && (c <=? 57343)) eqn:T4; [discriminate|].
    intro H. apply Some_inj in H. subst b. btests.
    apply andb_false_iff in T4.
    cbv [app]. rewrite decode_opt_cons. unfold Utf8.cont.
    repeat next_test; try (do 2 f_equal; lia).
    all: exfalso; destruct T4;
      repeat match goal with
             | H : (_ && _)%bool = false |- _ =>
                 apply andb_false_iff in H; destruct H
             end;
      btests; lia. }
  destruct (c <? 1114112) eqn:T4; [|discriminate].
  intro H. apply Some_inj in H. subst b. btests.
  cbv [app]. rewrite decode_opt_cons. unfold Utf8.cont.
  repeat next_test. do 2 f_equal. lia.
Qed.

Lemma encode_decode s : forall bs,
  Utf8.encode_opt s = Some bs -> Utf8.decode_opt bs = Some s.
Proof.
  induction s as [|c s IH]; intros bs H; cbn [Utf8.encode_opt] in H.
  - now injection H as <-.
  - destruct (Utf8.encode_char c) as [b|] eqn:Ec; [|discriminate].
    destruct (Utf8.encode_opt s) as [bs'|] eqn:Es; [|discriminate].
    injection H as <-.
    now rewrite (decode_encode_char c b bs' Ec), (IH bs' eq_refl).
Qed.

(** A text of scalar values can be encoded. *)
Lemma encode_scalars s :
  forallb is_scalar s = true -> exists bs, Utf8.encode_opt s = Some bs.
Proof.
  induction s as [|c s IH]; intro H; [now exists []|].
  cbn [forallb] in H. apply andb_true_iff in H as [Hc Hs].
  destruct (IH Hs) as [bs E]. cbn [Utf8.encode_opt]. rewrite E.
  apply is_scalar_iff in Hc. unfold Utf8.encode_char.
  repeat next_test; eexists; reflexivity.
Qed.

End Codec.

(** ** The package document in the write phase *)

Section PackageWrite.

(** Substitution keeps a property of the characters that the
    replacements keep. *)
Lemma Rewritten_forallb (Q : N -> bool) redex s t :
  (forall m new, redex m new ->
                 forallb Q m = true -> forallb Q new = true) ->
  Rewritten redex s t -> forallb Q s = true -> forallb Q t = true.
Proof.
  intros Hr. induction 1 as [|c s t _ _ IH|m new s t Hm _ _ IH]; intro H.
  - reflexivity.
  - cbn [forallb] in *. apply andb_true_iff in H as [Hc Hs].
    now rewrite Hc, (IH Hs).
  - rewrite forallb_app in *. apply andb_true_iff in H as [H1 H2].
    now rewrite (Hr m new Hm H1), (IH H2).
Qed.

(** Lines 118-121, on the text that reaches them. *)
Lemma register_ncx_Rewritten c :
  (contains c (py "toc.ncx") = true -> register_ncx c = c)
  /\ (contains c (py "toc.ncx") = false ->
      exists c',
        Rewritten manifest_redex c c'
        /\ Rewritten spine_redex c' (register_ncx c)).
Proof.
  unfold register_ncx. split; intros ->; cbn [negb].
  - reflexivity.
  - eexists. split.
    + apply (scan_Rewritten manifest_redex).
      apply find_str_finds. discriminate.
    + apply (scan_Rewritten spine_redex), find_spine_finds.
Qed.

(** The patcher adds characters of its literals only. *)
Lemma patch_content_scalars content :
  forallb is_scalar content = true ->
  forallb is_scalar (patch_content content) = true.
Proof.
  intro H.
  destruct (downgrade_Rewritten content) as (c1 & R1 & R2).
  assert (H1 : forallb is_scalar c1 = true).
  { apply (Rewritten_forallb is_scalar _ _ _) with (3 := H) (2 := R1).
    intros m new [_ ->] _. reflexivity. }
  assert (H2 : forallb is_scalar (downgrade content) = true).
  { apply (Rewritten_forallb is_scalar _ _ _) with (3 := H1) (2 := R2).
    intros m new (ws & v & _ & _ & _ & _ & ->) _. reflexivity. }
  destruct (register_ncx_Rewritten (downgrade content)) as [Ht Hf].
  unfold patch_content.
  destruct (contains (downgrade content) (py "toc.ncx")) eqn:E.
  - now rewrite (Ht eq_refl).
  - destruct (Hf eq_refl) as (c' & R3 & R4).
    apply (Rewritten_forallb is_scalar _ _ _) with (2 := R4).
    + intros m new (attrs & -> & _ & ->) Hm.
      rewrite !forallb_app in *.
      apply andb_true_iff in Hm as [Ha Hm].
      apply andb_true_iff in Hm as [Hb _].
      now rewrite Ha, Hb.
    + apply (Rewritten_forallb is_scalar _ _ _) with (3 := H2) (2 := R3).
      intros m new [_ ->] _. reflexivity.
Qed.

(** Line 122 raises nothing: the patched text of a package document
    that could be decoded can be encoded. *)
Lemma patched_package_encodes d content :
  Utf8.decode d = inr content ->
  exists b, Utf8.encode (patch_content content) = inr b.
Proof.
  unfold Utf8.decode, Utf8.encode.
  destruct (Utf8.decode_opt d) as [s|] eqn:D; [|discriminate].
  intro H. injection H as <-.
  destruct (decode_encode d s D) as [_ Hs].
  destruct (encode_scalars _ (patch_content_scalars s Hs)) as [b ->].
  now exists b.
Qed.

(** A text that the patcher leaves as it is goes back to its bytes. *)
Lemma unpatched_package_bytes d content :
  Utf8.decode d = inr content ->
  patch_content content = content ->
  Utf8.encode (patch_content content) = inr d.
Proof.
  unfold Utf8.decode, Utf8.encode.
  destruct (Utf8.decode_opt d) as [s|] eqn:D; [|discriminate].
  intro H. injection H as <-. intros ->.
  destruct (decode_encode d s D) as [-> _]. reflexivity.
Qed.

End PackageWrite.

(** ** When [convert] succeeds, and what it writes *)

Section ConvertOutcome.

Variable fromstring : bytes -> option Node.

Lemma read_In z name d :
  read z name = inr d -> exists e, In e z /\ filename e = name /\ data e = d.
Proof.
  unfold read, getinfo.
  destruct (find _ (rev z)) as [e|] eqn:F; [|discriminate].
  intro H. apply read_entry_ok in H as (_ & _ & <-).
  apply find_some in F as [He Hn]. apply str_eqb_eq in Hn.
  exists e. split; [now apply in_rev | now split].
Qed.

Lemma read_input_opf_data zin opf_path title author nav_points :
  read_input fromstring zin = inr (opf_path, title, author, nav_points) ->
  exists d, read zin (Path.as_posix opf_path) = inr d.
Proof.
  unfold read_input, bind.
  destruct (package_path fromstring zin) as [e|p]; [discriminate|].
  destruct (read zin (Path.as_posix p)) as [e|d] eqn:R; [discriminate|].
  destruct (parse fromstring d); [discriminate|].
  destruct (nav_points_of _ _ _ _); [discriminate|].
  intro H. injection H as <- _ _ _. now exists d.
Qed.

Lemma copy_items_total zin opf_name items : forall z,
  (forall item, In item items -> is_mimetype item = false ->
                exists w, written zin opf_name item = inr w) ->
  exists z', copy_items zin opf_name items z = (inr tt, z').
Proof.
  induction items as [|item items IH]; intros z H.
  - now exists z.
  - rewrite copy_items_cons.
    destruct (is_mimetype item) eqn:M.
    + apply IH. intros i Hi. apply H. now right.
    + destruct (H item (or_introl eq_refl) M) as [w ->].
      apply IH. intros i Hi. apply H. now right.
Qed.

(** The writing of an entry of the input: the entry is read; the
    package document is decoded, patched and encoded, and fails only
    if its bytes are not UTF-8; another entry is copied, and fails
    only if its compression method is not supported. *)
Lemma written_cases zin opf_name item :
  (exists e, read zin (filename item) = inl e
             /\ written zin opf_name item = inl e)
  \/ exists d, read zin (filename item) = inr d
    /\ ((filename item <> opf_name
         /\ supported (compress_type item) = true
         /\ written zin opf_name item
            = inr (Entry (filename item) d (compress_type item)))
        \/ (filename item <> opf_name
            /\ supported (compress_type item) = false
            /\ written zin opf_name item = inl NotImplementedError)
        \/ (filename item = opf_name
            /\ Utf8.decode d = inl UnicodeDecodeError
            /\ written zin opf_name item = inl UnicodeDecodeError)
        \/ (filename item = opf_name
            /\ exists content b,
                 Utf8.decode d = inr content
                 /\ Utf8.encode (patch_content content) = inr b
                 /\ written zin opf_name item
                    = inr (Entry (filename item) b ZIP_DEFLATED))).
Proof.
  unfold written, bind, ret, raise.
  destruct (read zin (filename item)) as [e|d]; [left; now exists e|].
  right. exists d. split; [reflexivity|].
  destruct (str_eqb (filename item) opf_name) eqn:E.
  - apply str_eqb_eq in E. right. right.
    destruct (Utf8.decode d) as [e|content] eqn:D.
    + left. unfold Utf8.decode in D.
      destruct (Utf8.decode_opt d); [discriminate|].
      injection D as <-. now repeat split.
    + right. destruct (patched_package_encodes d content D) as [b Hb].
      rewrite Hb. split; [exact E|]. now exists content, b.
  - apply str_eqb_neq in E.
    destruct (supported (compress_type item)); [left | right; left];
      now repeat split.
Qed.

End ConvertOutcome.

(** X1.  Once the input has been read, [convert] succeeds exactly when
    every entry that the write phase reads can be read (the
    [mimetype], and under its name every other entry), the bytes of
    the package document are valid UTF-8, the entries to copy have a
    compression method that [zipfile] supports, and the NCX text can
    be encoded.  Nothing else fails in the write phase; the patched
    text of the package document can always be encoded. *)
Theorem convert_succeeds_iff
        (fromstring : bytes -> option Node)
        (self : EpubConverter) (zin : ZipFile) (out : option ZipFile)
        (opf_path : Path.t) (title author : pystr)
        (nav_points : list NavItem) :
  read_input fromstring zin = inr (opf_path, title, author, nav_points) ->
  (exists self' zout,
      convert fromstring self zin out = (inr tt, self', Some zout))
  <-> ((has_name zin MIMETYPE = true -> exists d, read zin MIMETYPE = inr d)
       /\ (forall item, In item zin -> filename item <> MIMETYPE ->
             exists d,
               read zin (filename item) = inr d
               /\ (filename item = Path.as_posix opf_path ->
                   exists content, Utf8.decode d = inr content)
               /\ (filename item <> Path.as_posix opf_path ->
                   supported (compress_type item) = true))
       /\ exists b, Utf8.encode (ncx_string title author nav_points) = inr b).
Proof.
  intros R. rewrite convert_eq, R. cbn zeta. split.
  - intros (self' & zout & H).
    destruct (write_archive zin opf_path _ []) as [r z] eqn:W.
    cbn [fst snd] in H. injection H as -> _ _.
    pose proof (write_archive_ok_mimetype _ _ _ _ W) as Hr.
    apply write_archive_cases in W
      as [(e & ws & E & _)|(ws & b & _ & _ & Eb & F)]; [discriminate|].
    split; [exact Hr|]. split; [|now exists b].
    intros item Hi Hm.
    assert (Hf : In item (filter (fun i => negb (is_mimetype i)) zin)).
    { apply filter_In. split; [exact Hi|].
      unfold is_mimetype. apply negb_true_iff. now apply str_eqb_neq. }
    destruct (Forall2_In_left _ _ _ _ F Hf) as [w [_ Hw]].
    destruct (written_cases zin (Path.as_posix opf_path) item)
      as [(e & _ & Hw')
         |(d & Hd & [(Hne & Hs & _)
                    |[(_ & _ & Hw')
                     |[(_ & _ & Hw')|(Hn & c & b' & Hc & _)]]])];
      try (rewrite Hw' in Hw; discriminate).
    + exists d. split; [exact Hd|]. split; [contradiction | now intros _].
    + exists d. split; [exact Hd|]. split; [now exists c | contradiction].
  - intros (Hr & Hitems & b & Hb).
    rewrite (write_archive_unfold _ _ _ Hr).
    destruct (copy_items_total zin (Path.as_posix opf_path) zin
                (mimetype_head zin)) as [z' Hz].
    { intros item Hi Hm.
      assert (Hne : filename item <> MIMETYPE).
      { unfold is_mimetype in Hm. now apply str_eqb_neq. }
      destruct (Hitems item Hi Hne) as (d & Hd & Hopf & Hoth).
      destruct (written_cases zin (Path.as_posix opf_path) item)
        as [(e & He & _)
           |(d' & Hd' & [(_ & _ & Hw)
                        |[(Hn & Hs & _)
                         |[(Hn & Hdec & _)|(_ & c & b' & _ & _ & Hw)]]])].
      - rewrite Hd in He. discriminate.
      - eexists. exact Hw.
      - rewrite (Hoth Hn) in Hs. discriminate.
      - rewrite Hd in Hd'. injection Hd' as <-.
        destruct (Hopf Hn) as [c Hc]. rewrite Hc in Hdec. discriminate.
      - eexists. exact Hw. }
    rewrite Hz, Hb. cbn [fst snd]. eexists. eexists. reflexivity.
Qed.

Lemma convert_succeeds_iff_witness :
  exists self' zout,
    convert Sample.lxml (Converter 9) Sample.epub3 None
    = (inr tt, self', Some zout).
Proof.
  apply (proj2 (convert_succeeds_iff Sample.lxml (Converter 9) Sample.epub3
                  None (Path.of_str (py "OEBPS/content.opf")) (py "Book") []
                  spec_nav_resolved eq_refl)).
  split; [|split].
  - intros _. exists Sample.mimetype. reflexivity.
  - intros item Hi Hm. unfold Sample.epub3 in Hi. cbn [In] in Hi.
    destruct Hi as [<-|[<-|[<-|[<-|[<-|[]]]]]].
    + exists Sample.container_xml. split; [reflexivity|].
      split; [intro H; vm_compute in H; discriminate | reflexivity].
    + exfalso. now apply Hm.
    + exists Sample.content_opf. split; [reflexivity|].
      split; [intros _; exists Sample.content_opf; reflexivity
             | intro H; exfalso; now apply H].
    + exists Sample.nav_xhtml. split; [reflexivity|].
      split; [intro H; vm_compute in H; discriminate | reflexivity].
    + exists Sample.c1_xhtml. split; [reflexivity|].
      split; [intro H; vm_compute in H; discriminate | reflexivity].
  - eexists. vm_compute. reflexivity.
Defined.


(** X2.  The output of a successful conversion, entry by entry: the
    [mimetype] entry if the input has one; then one entry for each
    entry of the input not named [mimetype], in the order of the
    input and under the same name; then [toc.ncx].  An entry other
    than the package document keeps its compression, and its bytes
    are those that the input gives for its name (of several entries
    of one name, the bytes of the last); the package document is
    written deflated. *)
Theorem output_order_and_storage
        (fromstring : bytes -> option Node) (self self' : EpubConverter)
        (zin zout : ZipFile) (out : option ZipFile) :
  convert fromstring self zin out = (inr tt, self', Some zout) ->
  exists opf_path ws ncx,
    package_path fromstring zin = inr opf_path
    /\ zout = mimetype_head zin ++ ws
              ++ [Entry (toc_name opf_path) ncx ZIP_DEFLATED]
    /\ Forall2
         (fun item w =>
            filename w = filename item
            /\ (filename item <> Path.as_posix opf_path ->
                compress_type w = compress_type item
                /\ read zin (filename item) = inr (data w))
            /\ (filename item = Path.as_posix opf_path ->
                compress_type w = ZIP_DEFLATED))
         (filter (fun i => negb (is_mimetype i)) zin) ws.
Proof.
  rewrite convert_eq.
  destruct (read_input fromstring zin) as [e|[[[p t] a] nav]] eqn:R;
    [discriminate|].
  cbn zeta.
  destruct (write_archive zin p (ncx_string t a nav) []) as [r z] eqn:W.
  cbn [fst snd]. intro H. injection H as -> _ <-.
  apply write_archive_cases in W
    as [(e & ws & E & _)|(ws & b & _ & -> & _ & F)]; [discriminate|].
  exists p, ws, b.
  split; [exact (read_input_package_path _ _ _ _ _ _ R)|].
  split; [now rewrite <- app_assoc|].
  induction F as [|item w l ws' Hw _ IH]; constructor; [|exact IH].
  destruct (written_cases zin (Path.as_posix p) item)
    as [(e & _ & Hw')
       |(d & Hd & [(Hne & _ & Hw')
                  |[(_ & _ & Hw')
                   |[(_ & _ & Hw')|(Hn & c & b' & _ & _ & Hw')]]])];
    rewrite Hw' in Hw; try discriminate; injection Hw as <-;
    cbn [filename data compress_type].
  - split; [reflexivity|]. split; [now split | contradiction].
  - split; [reflexivity|]. split; [contradiction | reflexivity].
Qed.

Lemma output_order_and_storage_witness :
  exists opf_path ws ncx,
    package_path Sample.lxml Sample.epub3 = inr opf_path
    /\ Sample.epub2 = mimetype_head Sample.epub3 ++ ws
                      ++ [Entry (toc_name opf_path) ncx ZIP_DEFLATED]
    /\ Forall2
         (fun item w =>
            filename w = filename item
            /\ (filename item <> Path.as_posix opf_path ->
                compress_type w = compress_type item
                /\ read Sample.epub3 (filename item) = inr (data w))
            /\ (filename item = Path.as_posix opf_path ->
                compress_type w = ZIP_DEFLATED))
         (filter (fun i => negb (is_mimetype i)) Sample.epub3) ws.
Proof.
  apply (output_order_and_storage Sample.lxml (Converter 1) (Converter 4)
           Sample.epub3 Sample.epub2 None).
  vm_compute. reflexivity.
Defined.

(** X3.  A package document that is valid UTF-8 and that the patcher
    has no reason to touch (no [version=`3.0`], no [properties=`], and
    [toc.ncx] mentioned) is written with the bytes it has in the
    input: decoding and encoding give them back. *)
Theorem untouched_package_document_kept
        (fromstring : bytes -> option Node) (self self' : EpubConverter)
        (zin zout : ZipFile) (out : option ZipFile)
        (opf_path : Path.t) (d : bytes) (content : pystr) :
  convert fromstring self zin out = (inr tt, self', Some zout) ->
  package_path fromstring zin = inr opf_path ->
  Path.as_posix opf_path <> MIMETYPE ->
  read zin (Path.as_posix opf_path) = inr d ->
  Utf8.decode d = inr content ->
  contains content (py "version=`3.0`") = false ->
  contains content (py "properties=`") = false ->
  contains content (py "toc.ncx") = true ->
  In (Entry (Path.as_posix opf_path) d ZIP_DEFLATED) zout.
Proof.
  intros H P Hm Hd Hdec Hv Hp Ht.
  rewrite convert_eq in H.
  destruct (read_input fromstring zin) as [e|[[[p t] a] nav]] eqn:R;
    [discriminate|].
  rewrite (read_input_package_path _ _ _ _ _ _ R) in P. injection P as ->.
  cbn zeta in H.
  destruct (write_archive zin opf_path (ncx_string t a nav) [])
    as [r z] eqn:W.
  cbn [fst snd] in H. injection H as -> _ <-.
  apply write_archive_cases in W
    as [(e & ws & E & _)|(ws & b & _ & -> & _ & F)]; [discriminate|].
  destruct (read_In _ _ _ Hd) as (e & He & Hn & _).
  assert (Hf : In e (filter (fun i => negb (is_mimetype i)) zin)).
  { apply filter_In. split; [exact He|].
    unfold is_mimetype. rewrite Hn.
    apply str_eqb_neq in Hm. now rewrite Hm. }
  destruct (Forall2_In_left _ _ _ _ F Hf) as [w [Hw Hr]].
  apply in_or_app. left. apply in_or_app. right.
  replace (Entry (Path.as_posix opf_path) d ZIP_DEFLATED) with w;
    [exact Hw|].
  unfold written, bind, ret in Hr.
  rewrite Hn, Hd, str_eqb_refl, Hdec in Hr.
  assert (E : patch_content content = content).
  { unfold patch_content, register_ncx.
    now rewrite (downgrade_id content Hv Hp), Ht. }
  rewrite (unpatched_package_bytes d content Hdec E) in Hr.
  now injection Hr as <-.
Qed.

Lemma untouched_package_document_kept_witness :
  In (Entry (py "OEBPS/content.opf") Sample.content_opf2 ZIP_DEFLATED)
     (Sample.epub2
      ++ [Entry (py "OEBPS/toc.ncx") Sample.toc_ncx2 ZIP_DEFLATED]).
Proof.
  apply (untouched_package_document_kept Sample.lxml (Converter 4)
           (Converter 1) Sample.epub2 _ None
           (Path.of_str (py "OEBPS/content.opf")) Sample.content_opf2
           Sample.content_opf2);
    try (vm_compute; reflexivity).
  vm_compute. discriminate.
Defined.

(** X4.  A conversion that succeeds leaves exactly one more entry under
    the name of the navigation file than the input has, whether the
    input has such an entry or not.  This name ends in [toc.ncx] and is
    never [mimetype]. *)
Theorem conversion_adds_toc_entry
        (fromstring : bytes -> option Node) (self self' : EpubConverter)
        (zin zout : ZipFile) (out : option ZipFile) :
  convert fromstring self zin out = (inr tt, self', Some zout) ->
  exists opf_path front,
    package_path fromstring zin = inr opf_path
    /\ toc_name opf_path = front ++ py "toc.ncx"
    /\ toc_name opf_path <> MIMETYPE
    /\ count_name zout (toc_name opf_path)
       = count_name zin (toc_name opf_path) + 1.
Proof.
  intro H. apply convert_adds_toc in H as (p & Hp & Hc).
  destruct (toc_name_ends p) as [front Hf].
  exists p, front. repeat split; try assumption.
  apply toc_name_not_mimetype.
Qed.

Lemma conversion_adds_toc_entry_witness :
  exists opf_path front,
    package_path Sample.lxml Sample.epub2 = inr opf_path
    /\ toc_name opf_path = front ++ py "toc.ncx"
    /\ toc_name opf_path <> MIMETYPE
    /\ count_name (Sample.epub2
                   ++ [Entry (py "OEBPS/toc.ncx") Sample.toc_ncx2
                             ZIP_DEFLATED])
                  (toc_name opf_path)
       = count_name Sample.epub2 (toc_name opf_path) + 1.
Proof.
  apply (conversion_adds_toc_entry Sample.lxml (Converter 4) (Converter 1)
           Sample.epub2 _ None).
  vm_compute. reflexivity.
Defined.

(** X5.  Once the package path is known, what fails while the package
    and navigation documents are read reaches the caller as the
    exception of the failing step, with nothing written: a package
    path that names no entry gives [KeyError] for it; a package
    document that is not XML gives [XMLSyntaxError]; a navigation item
    without [href] gives [TypeError]; a navigation document that is
    not in the archive, at the path taken from the directory of the
    package document, gives [KeyError]; one that is not XML gives
    [XMLSyntaxError]. *)
Theorem package_and_navigation_failures
        (fromstring : bytes -> option Node) (self : EpubConverter)
        (zin : ZipFile) (out : option ZipFile) (opf_path : Path.t) :
  package_path fromstring zin = inr opf_path ->
  (has_name zin (Path.as_posix opf_path) = false ->
   convert fromstring self zin out
   = (inl (KeyError (Path.as_posix opf_path)), Converter 1, out))
  /\ (forall d,
        read zin (Path.as_posix opf_path) = inr d -> fromstring d = None ->
        convert fromstring self zin out
        = (inl (XMLSyntaxError d), Converter 1, out))
  /\ (forall d opf_xml nav_meta others,
        read zin (Path.as_posix opf_path) = inr d ->
        fromstring d = Some opf_xml ->
        filter is_nav_item (descendant (NS.opf, py "item") opf_xml)
        = nav_meta :: others ->
        (get nav_meta (py "href") = None ->
         convert fromstring self zin out = (inl TypeError, Converter 1, out))
        /\ (forall nav_href,
              get nav_meta (py "href") = Some nav_href ->
              let nav_path :=
                Path.as_posix
                  (Path.join_str (Path.parent opf_path) nav_href) in
              (has_name zin nav_path = false ->
               convert fromstring self zin out
               = (inl (KeyError nav_path), Converter 1, out))
              /\ (forall nd,
                    read zin nav_path = inr nd -> fromstring nd = None ->
                    convert fromstring self zin out
                    = (inl (XMLSyntaxError nd), Converter 1, out)))).
Proof.
  intro P.
  assert (R : forall e,
             (d <- read zin (Path.as_posix opf_path) ;;
              opf_xml <- parse fromstring d ;;
              nav_points_of fromstring zin opf_path opf_xml)%exn = inl e ->
             convert fromstring self zin out = (inl e, Converter 1, out)).
  { intros e H. apply convert_read_raise.
    unfold read_input, bind in *. rewrite P.
    destruct (read zin (Path.as_posix opf_path)) as [e'|d];
      [congruence|].
    destruct (parse fromstring d) as [e'|x]; [congruence|].
    now rewrite H. }
  split; [|split].
  - intro H. apply R. unfold bind. now rewrite (read_absent _ _ H).
  - intros d Hd Hp. apply R. unfold bind, parse. now rewrite Hd, Hp.
  - intros d opf_xml nav_meta others Hd Hp Hn. split.
    + intro Hh. apply R. unfold bind, parse, nav_points_of.
      rewrite Hd, Hp. cbv beta iota delta [ret]. now rewrite Hn, Hh.
    + intros nav_href Hh nav_path. split.
      * intro Ha. apply R. unfold bind, parse, nav_points_of.
        rewrite Hd, Hp. cbv beta iota delta [ret]. rewrite Hn, Hh.
        fold nav_path. now rewrite (read_absent _ _ Ha).
      * intros nd Hnd Hnp. apply R. unfold bind, parse, nav_points_of.
        rewrite Hd, Hp. cbv beta iota delta [ret]. rewrite Hn, Hh.
        fold nav_path. rewrite Hnd. unfold bind, parse. now rewrite Hnp.
Qed.

Lemma package_and_navigation_failures_witness :
  convert Sample.lxml (Converter 5) no_package None
  = (inl (KeyError (py "OEBPS/content.opf")), Converter 1, None).
Proof.
  apply (proj1 (package_and_navigation_failures Sample.lxml (Converter 5)
                  no_package None (Path.of_str (py "OEBPS/content.opf"))
                  eq_refl)).
  reflexivity.
Defined.

(** ** More on the navigation parser *)

Section ParserExtras.

Variable nav_rel_dir : Path.t.

Lemma for_child_raise {A} q (body : Node -> result (option A))
      tag attrib cs e :
  for_child q body (Element tag attrib cs) = inl e ->
  exists x, In x cs /\ body x = inl e.
Proof.
  induction cs as [|c cs IH]; intro H.
  - rewrite for_child_nil in H. discriminate.
  - rewrite for_child_cons in H.
    destruct (is_tag q c).
    + destruct (body c) as [e'|[a|]] eqn:B.
      * injection H as <-. exists c. split; [now left | exact B].
      * destruct (for_child q body (Element tag attrib cs)) as [e'|l];
          [|discriminate].
        injection H as <-. destruct (IH eq_refl) as [x [Hx Hb]].
        exists x. split; [now right | exact Hb].
      * destruct (IH H) as [x [Hx Hb]].
        exists x. split; [now right | exact Hb].
    + destruct (IH H) as [x [Hx Hb]].
      exists x. split; [now right | exact Hb].
Qed.

Lemma resolve_src_raise href e :
  resolve_src nav_rel_dir href = inl e ->
  e = TypeError /\ Path.name nav_rel_dir <> [] /\ href = None.
Proof.
  unfold resolve_src, Path.truediv, bind, ret, raise.
  destruct (Path.name nav_rel_dir) as [|c r]; [discriminate|].
  destruct href; [discriminate|].
  intro H. injection H as <-. repeat split. discriminate.
Qed.

Lemma node_raises_type_error n : raises_type_error nav_rel_dir n.
Proof.
  induction n as [tag attrib cs IH| |] using Node_forall_ind.
  - rewrite Forall_forall in IH. split.
    + intros e H. rewrite _parse_nav_level_eq in H.
      apply for_child_raise in H as [x [Hx Hb]].
      exact (proj2 (IH x Hx) e Hb).
    + intros e H. unfold parse_item, bind, ret in H.
      destruct (child (NS.xhtml, py "a") (Element tag attrib cs))
        as [|anchor others]; [discriminate|].
      destruct (resolve_src nav_rel_dir (get anchor (py "href")))
        as [e'|src] eqn:Rs.
      * injection H as <-. apply resolve_src_raise in Rs. tauto.
      * destruct (first_child_In (NS.xhtml, py "ol")
                    (_parse_nav_level nav_rel_dir) (inr [])
                    tag attrib cs) as [E|[x [Hx E]]];
          rewrite E in H; [discriminate|].
        destruct (_parse_nav_level nav_rel_dir x) as [e'|ch] eqn:Px;
          [|discriminate].
        injection H as <-. exact (proj1 (IH x Hx) e' Px).
  - split; intros e H; discriminate.
  - split; intros e H; discriminate.
Qed.

End ParserExtras.

(** X6.  The navigation parser raises nothing but [TypeError], and only
    when the navigation document is in a directory of its own
    ([nav_rel_dir.name] is not empty, so that line 47 joins paths):
    then an anchor without [href] makes [Path / None] fail.  When the
    navigation document is beside the package document every list
    parses. *)
Theorem parser_raises_only_type_error
        (nav_rel_dir : Path.t) (element : Node) :
  (forall e, _parse_nav_level nav_rel_dir element = inl e ->
             e = TypeError /\ Path.name nav_rel_dir <> [])
  /\ (Path.name nav_rel_dir = [] ->
      exists items, _parse_nav_level nav_rel_dir element = inr items).
Proof.
  pose proof (proj1 (node_raises_type_error nav_rel_dir element)) as H.
  split; [exact H|].
  intro Hn. destruct (_parse_nav_level nav_rel_dir element) as [e|items].
  - destruct (H e eq_refl) as [_ Hne]. contradiction.
  - now exists items.
Qed.

Lemma parser_raises_only_type_error_witness :
  exists items,
    _parse_nav_level (Path.of_str (py ".")) Sample.toc_ol = inr items.
Proof.
  apply (proj2 (parser_raises_only_type_error (Path.of_str (py "."))
                  Sample.toc_ol)).
  reflexivity.
Defined.

(** X7.  A child of the list that has no anchor among its own children
    contributes nothing: the list parses as if the child were not
    there.  This holds for a list item whose anchor is wrapped in
    another element, and then the nested list of the item is dropped
    with it. *)
Theorem anchorless_item_skipped
        (nav_rel_dir : Path.t) (tag : qname) (attrib : list (qname * pystr))
        (pre post : list Node) (li : Node) :
  child ANCHOR li = [] ->
  _parse_nav_level nav_rel_dir (Element tag attrib (pre ++ li :: post))
  = _parse_nav_level nav_rel_dir (Element tag attrib (pre ++ post)).
Proof.
  intro Ha.
  rewrite !_parse_nav_level_eq, !for_child_app, for_child_cons.
  destruct (is_tag LI li); [|reflexivity].
  unfold parse_item at 2. fold ANCHOR. now rewrite Ha.
Qed.

Lemma anchorless_item_skipped_witness :
  _parse_nav_level (Path.of_str (py "text"))
    (Sample.H "ol" []
       [Sample.H "li" [] [Sample.anchor "c1.xhtml" "Ch1"]; li_span])
  = inr [Item (py "Ch1") (Some (py "text/c1.xhtml")) []].
Proof.
  etransitivity.
  - exact (anchorless_item_skipped (Path.of_str (py "text"))
             (NS.xhtml, py "ol") []
             [Sample.H "li" [] [Sample.anchor "c1.xhtml" "Ch1"]] []
             li_span eq_refl).
  - vm_compute. reflexivity.
Defined.

(** ** More on the NCX synthesizer *)

Lemma build_loop_app point l1 l2 n :
  build_loop point (l1 ++ l2) n =
  let '(x, n1) := build_loop point l1 n in
  let '(y, n2) := build_loop point l2 n1 in
  (x ++ y, n2).
Proof.
  revert n. induction l1 as [|i l1 IH]; intro n; cbn [app].
  - cbn [build_loop]. now destruct (build_loop point l2 n).
  - rewrite !build_loop_cons. destruct (point i n) as [x n1].
    rewrite IH. destruct (build_loop point l1 n1) as [xs n2].
    destruct (build_loop point l2 n2) as [ys n3].
    now rewrite app_assoc.
Qed.

(** X8.  From any value [n] of the counter, [_build_ncx_points] gives
    the numbers [n], [n+1], ... to the items in pre-order, all
    different, and leaves the counter at [n] plus the number of items
    at all levels; an empty list gives the empty text and leaves the
    counter.  The text for a list in two parts is the text of the
    first part followed by the text of the second, numbered from
    where the first part ends. *)
Theorem build_from_any_counter (nav_items : list NavItem) (n : nat) :
  snd (_build_ncx_points nav_items n) = n + count_items nav_items
  /\ fst (_build_ncx_points nav_items n)
     = render (fst (number_points nav_items n))
  /\ map fst (preorder_points (fst (number_points nav_items n)))
     = seq n (count_items nav_items)
  /\ NoDup (map fst (preorder_points (fst (number_points nav_items n))))
  /\ _build_ncx_points [] n = ([], n)
  /\ (forall l1 l2,
        nav_items = l1 ++ l2 ->
        _build_ncx_points nav_items n
        = (fst (_build_ncx_points l1 n)
           ++ fst (_build_ncx_points l2 (n + count_items l1)),
           n + count_items l1 + count_items l2)).
Proof.
  pose proof (number_points_preorder nav_items n) as [Hn Hp].
  assert (Hs : map fst (preorder_points (fst (number_points nav_items n)))
               = seq n (count_items nav_items)).
  { rewrite Hp. unfold count_items. apply map_fst_combine_seq. }
  split; [now rewrite _build_ncx_points_render|].
  split; [now rewrite _build_ncx_points_render|].
  split; [exact Hs|]. split; [rewrite Hs; apply seq_NoDup|].
  split; [reflexivity|].
  intros l1 l2 ->. unfold _build_ncx_points. rewrite build_loop_app.
  fold (_build_ncx_points l1 n).
  rewrite (_build_ncx_points_render l1 n).
  rewrite (proj1 (number_points_preorder l1 n)).
  fold (_build_ncx_points l2 (n + count_items l1)).
  rewrite (_build_ncx_points_render l2 (n + count_items l1)).
  rewrite (proj1 (number_points_preorder l2 (n + count_items l1))).
  reflexivity.
Qed.

Lemma build_from_any_counter_witness :
  _build_ncx_points spec_nav 5
  = (fst (_build_ncx_points [Item (py "Ch1") (Some (py "c1.xhtml")) []] 5)
     ++ fst (_build_ncx_points
               [Item (py "Ch2") (Some (py "c2.xhtml"))
                     [Item (py "Ch2.1") (Some (py "c2.xhtml#a")) []]]
               (5 + 1)),
     5 + 1 + 2).
Proof.
  apply (proj2 (proj2 (proj2 (proj2 (proj2
           (build_from_any_counter spec_nav 5)))))
           [Item (py "Ch1") (Some (py "c1.xhtml")) []]
           [Item (py "Ch2") (Some (py "c2.xhtml"))
                 [Item (py "Ch2.1") (Some (py "c2.xhtml#a")) []]]).
  reflexivity.
Defined.

(** ** Title and author *)

Section Metadata.

Lemma lstrip_length s : length (lstrip s) <= length s.
Proof.
  induction s as [|c s IH]; [reflexivity|].
  cbn [lstrip]. destruct (isspace c); cbn [length]; lia.
Qed.

Lemma lstrip_idem s : lstrip (lstrip s) = lstrip s.
Proof.
  induction s as [|c s IH]; [reflexivity|].
  cbn [lstrip]. destruct (isspace c) eqn:E; [exact IH|].
  cbn [lstrip]. now rewrite E.
Qed.

Lemma lstrip_suffix s : exists w, s = w ++ lstrip s.
Proof.
  induction s as [|c s [w IH]]; [now exists []|].
  cbn [lstrip]. destruct (isspace c).
  - exists (c :: w). cbn. now rewrite <- IH.
  - now exists [].
Qed.

Lemma lstrip_prefix a b :
  lstrip (a ++ b) = a ++ b -> a <> [] -> lstrip a = a.
Proof.
  destruct a as [|c a]; [contradiction|]. intros H _.
  cbn [app lstrip] in *. destruct (isspace c); [|reflexivity].
  exfalso. pose proof (lstrip_length (a ++ b)) as L.
  rewrite H in L. cbn in L. lia.
Qed.

(** [strip] leaves no white space at either end. *)
Lemma strip_trimmed s : trimmed (strip s).
Proof.
  unfold trimmed, strip. split.
  - destruct (lstrip_suffix (rev (lstrip s))) as [w Hw].
    set (u := lstrip (rev (lstrip s))) in *.
    destruct (rev u) as [|c r] eqn:E; [reflexivity|].
    apply (lstrip_prefix (c :: r) (rev w)); [|discriminate].
    rewrite <- E, <- rev_app_distr, <- Hw, rev_involutive.
    apply lstrip_idem.
  - rewrite rev_involutive. apply lstrip_idem.
Qed.

Lemma _get_metadata_trimmed opf_xml tag :
  trimmed (_get_metadata opf_xml tag).
Proof.
  unfold _get_metadata.
  destruct (text_of (NS.dc, tag) opf_xml); [now split|].
  apply strip_trimmed.
Qed.

Lemma lstrip_nil s : lstrip s = [] <-> forallb isspace s = true.
Proof.
  induction s as [|c s IH]; [now split|].
  cbn [lstrip forallb]. destruct (isspace c); cbn [andb]; [exact IH|].
  split; discriminate.
Qed.

Lemma lstrip_spaces s : forallb isspace (lstrip s) = forallb isspace s.
Proof.
  induction s as [|c s IH]; [reflexivity|].
  cbn [lstrip]. destruct (isspace c) eqn:E; [|reflexivity].
  cbn [forallb]. now rewrite E.
Qed.

Lemma forallb_rev {A} (f : A -> bool) l : forallb f (rev l) = forallb f l.
Proof.
  induction l as [|x l IH]; [reflexivity|].
  cbn [rev forallb]. rewrite forallb_app, IH. cbn [forallb].
  rewrite andb_true_r. apply andb_comm.
Qed.

(** [strip] gives the empty text exactly for white space. *)
Lemma strip_nil s : strip s = [] <-> forallb isspace s = true.
Proof.
  unfold strip. rewrite <- (lstrip_spaces s), <- (forallb_rev isspace).
  rewrite <- lstrip_nil. split.
  - intro H. apply (f_equal (@rev N)) in H. now rewrite rev_involutive in H.
  - now intros ->.
Qed.

End Metadata.

(** X9.  The title and the author that go into the NCX are taken from
    the package document of the archive.  Where it has no [dc:title]
    text, or where the first one is white space only, the title is
    [Untitled]; otherwise it is the first [dc:title] text without the
    white space at its ends.  The author is the first [dc:creator]
    text without the white space at its ends, and empty where there is
    none.  So the title is never empty, and neither has white space at
    its ends. *)
Theorem title_and_author_trimmed
        (fromstring : bytes -> option Node) (zin : ZipFile)
        (opf_path : Path.t) (title author : pystr)
        (nav_points : list NavItem) :
  read_input fromstring zin = inr (opf_path, title, author, nav_points) ->
  exists d opf_xml,
    read zin (Path.as_posix opf_path) = inr d
    /\ fromstring d = Some opf_xml
    /\ (text_of (NS.dc, py "title") opf_xml = [] -> title = py "Untitled")
    /\ (forall r rest,
          text_of (NS.dc, py "title") opf_xml = r :: rest ->
          (forallb isspace r = true -> title = py "Untitled")
          /\ (forallb isspace r = false -> title = strip r))
    /\ (text_of (NS.dc, py "creator") opf_xml = [] -> author = [])
    /\ (forall r rest,
          text_of (NS.dc, py "creator") opf_xml = r :: rest ->
          author = strip r)
    /\ title <> [] /\ trimmed title /\ trimmed author.
Proof.
  unfold read_input, bind, ret.
  destruct (package_path fromstring zin) as [e|p]; [discriminate|].
  destruct (read zin (Path.as_posix p)) as [e|d] eqn:Hd; [discriminate|].
  unfold parse at 1.
  destruct (fromstring d) as [opf_xml|] eqn:Hp; [|discriminate].
  cbv beta iota delta [ret].
  destruct (nav_points_of _ _ _ _); [discriminate|].
  intro H. injection H as <- <- <- _.
  exists d, opf_xml. split; [exact Hd|]. split; [exact Hp|].
  pose proof (_get_metadata_trimmed opf_xml (py "title")) as Ht.
  pose proof (_get_metadata_trimmed opf_xml (py "creator")) as Ha.
  unfold _get_metadata in *.
  split; [now intros ->|]. split.
  { intros r rest ->. split.
    - intro Hs. apply strip_nil in Hs. now rewrite Hs.
    - intro Hs. destruct (strip r) eqn:E; [|reflexivity].
      apply strip_nil in E. congruence. }
  split; [now intros ->|]. split; [now intros r rest ->|].
  split; [|split; [|exact Ha]].
  - destruct (text_of (NS.dc, py "title") opf_xml) as [|r rest];
      [discriminate|].
    destruct (strip r); discriminate.
  - destruct (text_of (NS.dc, py "title") opf_xml) as [|r rest];
      [now split|].
    destruct (strip r) eqn:E; [now split | exact Ht].
Qed.

Lemma title_and_author_trimmed_witness :
  exists d opf_xml,
    read Sample.epub3 (Path.as_posix (Path.of_str (py "OEBPS/content.opf")))
    = inr d
    /\ Sample.lxml d = Some opf_xml
    /\ (text_of (NS.dc, py "title") opf_xml = [] -> py "Book" = py "Untitled")
    /\ (forall r rest,
          text_of (NS.dc, py "title") opf_xml = r :: rest ->
          (forallb isspace r = true -> py "Book" = py "Untitled")
          /\ (forallb isspace r = false -> py "Book" = strip r))
    /\ (text_of (NS.dc, py "creator") opf_xml = [] -> ([] : pystr) = [])
    /\ (forall r rest,
          text_of (NS.dc, py "creator") opf_xml = r :: rest ->
          [] = strip r)
    /\ py "Book" <> [] /\ trimmed (py "Book") /\ trimmed [].
Proof.
  apply (title_and_author_trimmed Sample.lxml Sample.epub3
           (Path.of_str (py "OEBPS/content.opf")) (py "Book") []
           spec_nav_resolved).
  vm_compute. reflexivity.
Defined.

(** ** The batch loop *)

Section Batch.

Variable fromstring : bytes -> option Node.

Lemma convert_file_fresh self file out :
  convert_file fromstring self file out
  = convert_file fromstring (Converter 1) file out.
Proof. destruct file; reflexivity. Qed.

Lemma put_same dir name f : put dir name f name = f.
Proof. unfold put. now rewrite str_eqb_refl. Qed.

Lemma put_other dir name f n : n <> name -> put dir name f n = dir n.
Proof. intro H. unfold put. apply str_eqb_neq in H. now rewrite H. Qed.

Lemma run_files_spec files : forall self out_p log,
  NoDup (map fst files) ->
  let '(_, out_p', log') := run_files fromstring files self out_p log in
  log' = log ++ map (fun f => fst (alone fromstring out_p f)) files
  /\ (forall f, In f files ->
                out_p' (fst f) = snd (alone fromstring out_p f))
  /\ (forall n, ~ In n (map fst files) -> out_p' n = out_p n).
Proof.
  induction files as [|[name file] rest IH]; intros self out_p log Hn.
  - cbn. rewrite app_nil_r. repeat split. intros f [].
  - cbn [map fst] in Hn. inversion Hn as [|? ? Hx Hr]; subst.
    cbn [run_files].
    rewrite (convert_file_fresh self file (out_p name)).
    destruct (convert_file fromstring (Converter 1) file (out_p name))
      as [[r self1] out] eqn:C.
    specialize (IH self1 (put out_p name out) (log ++ [log_line name r]) Hr).
    destruct (run_files fromstring rest self1 (put out_p name out)
                (log ++ [log_line name r])) as [[self' out_p'] log'].
    destruct IH as (Hl & Hf & Ho).
    assert (Ha : forall f, In f rest ->
                   alone fromstring (put out_p name out) f
                   = alone fromstring out_p f).
    { intros [n f] Hi. unfold alone. cbn [fst snd].
      rewrite put_other; [reflexivity|].
      intros ->. apply Hx. now apply (in_map fst) in Hi. }
    repeat split.
    + rewrite Hl, <- app_assoc. cbn [app map]. f_equal.
      unfold alone at 2. cbn [fst snd]. rewrite C. cbn [fst]. f_equal.
      apply map_ext_in. intros f Hi. now rewrite (Ha f Hi).
    + intros f [<-|Hi].
      * cbn [fst]. rewrite (Ho name Hx), put_same.
        unfold alone. cbn [fst snd]. now rewrite C.
      * now rewrite (Hf f Hi), (Ha f Hi).
    + intros n Hni. cbn [map fst] in Hni.
      rewrite Ho; [|intro H; apply Hni; now right].
      apply put_other. intros ->. apply Hni. now left.
Qed.

End Batch.

(** X10.  The batch converts each file as if it were alone: whatever
    the other files and their order, and whatever happened to them
    (also a failure, also a file that is no archive), the log gets for
    each file, in order, the line that the conversion of this file by
    a new converter gives, and the output directory gets under the
    name of this file what this conversion leaves; other names of the
    output directory are left alone.  The loop goes on after a
    failure and ends the log with the closing line; without files the
    log gets the single line that says so and nothing is written. *)
Theorem batch_files_are_independent
        (fromstring : bytes -> option Node)
        (files : list (pystr * option ZipFile))
        (self : EpubConverter) (out_p : Dir) (log : list LogLine) :
  NoDup (map fst files) ->
  let '(_, out_p', log') := _run fromstring files self out_p log in
  log' = log ++ match files with
                | [] => [NoFiles]
                | _ => map (fun f => fst (alone fromstring out_p f)) files
                       ++ [AllDone]
                end
  /\ (forall f, In f files ->
                out_p' (fst f) = snd (alone fromstring out_p f))
  /\ (forall n, ~ In n (map fst files) -> out_p' n = out_p n).
Proof.
  intro Hn. unfold _run. destruct files as [|f rest].
  - repeat split. intros f [].
  - pose proof (run_files_spec fromstring (f :: rest) self out_p log Hn) as H.
    destruct (run_files fromstring (f :: rest) self out_p log)
      as [[self' out_p'] log'].
    destruct H as (Hl & Hf & Ho).
    repeat split; [|exact Hf|exact Ho].
    now rewrite Hl, <- app_assoc.
Qed.

Lemma batch_files_are_independent_witness :
  let '(_, out_p', log') :=
    _run Sample.lxml some_files (Converter 1) (fun _ => None) [] in
  log' = [Failure (py "broken.epub") BadZipFile;
          Success (py "book.epub");
          Failure (py "empty.epub") (KeyError (py "OEBPS/content.opf"));
          AllDone]
  /\ out_p' (py "book.epub") = Some Sample.epub2
  /\ out_p' (py "broken.epub") = None
  /\ out_p' (py "other.epub") = None.
Proof.
  assert (Hn : NoDup (map fst some_files)).
  { cbn. repeat (constructor;
                 [cbn; intro H; repeat destruct H as [H|H];
                  try discriminate H; exact H|]).
    constructor. }
  pose proof (batch_files_are_independent Sample.lxml some_files
                (Converter 1) (fun _ => None) [] Hn) as H.
  destruct (_run Sample.lxml some_files (Converter 1) (fun _ => None) [])
    as [[self' out_p'] log'].
  destruct H as (Hl & Hf & Ho).
  split; [rewrite Hl; vm_compute; reflexivity|].
  split; [|split].
  - etransitivity.
    + exact (Hf (py "book.epub", Some Sample.epub3)
                (or_intror (or_introl eq_refl))).
    + vm_compute. reflexivity.
  - etransitivity.
    + exact (Hf (py "broken.epub", None) (or_introl eq_refl)).
    + reflexivity.
  - apply Ho. cbn. intro H. repeat destruct H as [H|H];
      try discriminate H. exact H.
Defined.

(** ** The codec, and failures of the write phase *)

(** X11.  Decoding and encoding are inverse to each other: the text
    decoded from bytes encodes back to these bytes, and its characters
    are Unicode scalar values; the bytes of an encoded text decode back
    to this text; a text of scalar values can always be encoded. *)
Theorem utf8_round_trip :
  (forall d s, Utf8.decode d = inr s ->
               Utf8.encode s = inr d /\ forallb is_scalar s = true)
  /\ (forall s d, Utf8.encode s = inr d -> Utf8.decode d = inr s)
  /\ (forall s, forallb is_scalar s = true ->
                exists d, Utf8.encode s = inr d).
Proof.
  unfold Utf8.decode, Utf8.encode. split; [|split].
  - intros d s H. destruct (Utf8.decode_opt d) as [s'|] eqn:D;
      [|discriminate].
    injection H as <-. destruct (decode_encode d s' D) as [-> Hs].
    now split.
  - intros s d H. destruct (Utf8.encode_opt s) as [d'|] eqn:E;
      [|discriminate].
    injection H as <-. now rewrite (encode_decode s d' E).
  - intros s H. destruct (encode_scalars s H) as [d ->]. now exists d.
Qed.

Lemma utf8_round_trip_witness :
  Utf8.encode [233; 8364; 128512]%N
  = inr [195; 169; 226; 130; 172; 240; 159; 152; 128]%N
  /\ forallb is_scalar [233; 8364; 128512]%N = true.
Proof.
  apply (proj1 utf8_round_trip
           [195; 169; 226; 130; 172; 240; 159; 152; 128]%N).
  reflexivity.
Defined.

(** X12.  A conversion that fails after its reading fails in one of
    these ways: an entry cannot be read, and the exception is the one
    of [ZipFile.read] (the [mimetype] at line 110, another entry at
    line 114); the bytes of the package document are not UTF-8
    ([UnicodeDecodeError], line 116); an entry to copy has a
    compression method that [zipfile] does not support
    ([NotImplementedError], line 124); the NCX text, made of the
    title, the author and the labels that lxml gave, cannot be encoded
    ([UnicodeEncodeError], line 125).  Writing the patched package
    document (line 122) never fails. *)
Theorem write_phase_failure_causes
        (fromstring : bytes -> option Node) (self self' : EpubConverter)
        (zin : ZipFile) (out out' : option ZipFile) (e : exn)
        (opf_path : Path.t) (title author : pystr)
        (nav_points : list NavItem) :
  read_input fromstring zin = inr (opf_path, title, author, nav_points) ->
  convert fromstring self zin out = (inl e, self', out') ->
  (has_name zin MIMETYPE = true /\ read zin MIMETYPE = inl e)
  \/ (exists item,
        In item zin /\ filename item <> MIMETYPE
        /\ (read zin (filename item) = inl e
            \/ (filename item = Path.as_posix opf_path
                /\ e = UnicodeDecodeError
                /\ exists d, read zin (filename item) = inr d
                             /\ Utf8.decode d = inl UnicodeDecodeError)
            \/ (filename item <> Path.as_posix opf_path
                /\ e = NotImplementedError
                /\ supported (compress_type item) = false)))
  \/ (e = UnicodeEncodeError
      /\ Utf8.encode (ncx_string title author nav_points)
         = inl UnicodeEncodeError).
Proof.
  intros R. rewrite convert_eq, R. cbn zeta.
  destruct (write_archive zin opf_path _ []) as [r z] eqn:W.
  cbn [fst snd]. intro H. injection H as -> _ _.
  apply write_archive_raise in W
    as [(Hm & Hr & _)|[(done & item & rest & ws & Hf & _ & Hw & _)
                      |(ws & _ & -> & He & _)]].
  - left. now split.
  - right. left. exists item.
    assert (Hi : In item (filter (fun i => negb (is_mimetype i)) zin)).
    { rewrite Hf. apply in_or_app. right. now left. }
    apply filter_In in Hi as [Hi Hm].
    split; [exact Hi|]. split.
    { unfold is_mimetype in Hm. now apply negb_true_iff, str_eqb_neq in Hm. }
    destruct (written_cases zin (Path.as_posix opf_path) item)
      as [(e' & He & Hw')
         |(d & Hd & [(_ & _ & Hw')
                    |[(Hn & Hs & Hw')
                     |[(Hn & Hdec & Hw')|(_ & c & b & _ & _ & Hw')]]])];
      rewrite Hw' in Hw; try discriminate; injection Hw as <-.
    + now left.
    + right. right. now repeat split.
    + right. left. split; [exact Hn|]. split; [reflexivity|]. now exists d.
  - right. right. now split.
Qed.

Lemma write_phase_failure_causes_witness :
  (has_name Sample.epub3_damaged MIMETYPE = true
   /\ read Sample.epub3_damaged MIMETYPE = inl BadZipFile)
  \/ (exists item,
        In item Sample.epub3_damaged /\ filename item <> MIMETYPE
        /\ (read Sample.epub3_damaged (filename item) = inl BadZipFile
            \/ (filename item
                = Path.as_posix (Path.of_str (py "OEBPS/content.opf"))
                /\ BadZipFile = UnicodeDecodeError
                /\ exists d,
                     read Sample.epub3_damaged (filename item) = inr d
                     /\ Utf8.decode d = inl UnicodeDecodeError)
            \/ (filename item
                <> Path.as_posix (Path.of_str (py "OEBPS/content.opf"))
                /\ BadZipFile = NotImplementedError
                /\ supported (compress_type item) = false)))
  \/ (BadZipFile = UnicodeEncodeError
      /\ Utf8.encode (ncx_string (py "Book") [] spec_nav_resolved)
         = inl UnicodeEncodeError).
Proof.
  apply (write_phase_failure_causes Sample.lxml (Converter 1) (Converter 4)
           Sample.epub3_damaged None
           (Some [Entry (py "mimetype") Sample.mimetype ZIP_STORED;
                  Entry (py "META-INF/container.xml") Sample.container_xml
                        ZIP_DEFLATED;
                  Entry (py "OEBPS/text/nav.xhtml") Sample.nav_xhtml
                        ZIP_DEFLATED])
           BadZipFile (Path.of_str (py "OEBPS/content.opf"))
           (py "Book") [] spec_nav_resolved);
    vm_compute; reflexivity.
Defined.

(** ** A second registration *)

Section Registration.

(** Where there is an occurrence, the rewritten text has a
    replacement. *)
Lemma Rewritten_has_step redex s t :
  Rewritten redex s t ->
  forall a m new b, redex m new -> m <> [] -> s = a ++ m ++ b ->
  exists x m' new' y, redex m' new' /\ t = x ++ new' ++ y.
Proof.
  induction 1 as [|c s t Hk _ IH|m0 new0 s t Hr _ _ _];
    intros a m new b Hm Hne E.
  - symmetry in E. apply app_eq_nil in E as [_ E].
    apply app_eq_nil in E as [E _]. contradiction.
  - destruct a as [|c' a].
    + exfalso. exact (Hk m new b Hm E).
    + injection E as <- E.
      destruct (IH a m new b Hm Hne E) as (x & m' & new' & y & Hr & ->).
      now exists (c :: x), m', new', y.
  - now exists [], m0, new0, t.
Qed.

Lemma spine_redex_shape m new :
  spine_redex m new ->
  exists body,
    m = (60%N :: body) ++ [62%N]
    /\ new = (60%N :: body) ++ py " toc=`ncx`>".
Proof.
  intros (attrs & -> & _ & ->).
  exists (py "spine" ++ attrs). split.
  - change (py "<spine") with (60%N :: py "spine").
    change (py ">") with [62%N]. cbn [app]. now rewrite <- app_assoc.
  - change (py "<spine") with (60%N :: py "spine").
    cbn [app]. now rewrite <- app_assoc.
Qed.

(** The spine substitution copies a text in front that has no [<]. *)
Lemma spine_keeps_plain_prefix p : forall b t,
  forallb plain p = true ->
  Rewritten spine_redex (p ++ b) t -> exists t', t = p ++ t'.
Proof.
  induction p as [|c p IH]; intros b t Hp H; [now exists t|].
  cbn [forallb] in Hp. apply andb_true_iff in Hp as [Hc Hp].
  cbn [app] in H. inversion H as [|c0 s0 t0 Hk H0|m new s0 t0 Hr Hm H0 E];
    subst.
  - destruct (IH b t0 Hp H0) as [t' ->]. now exists t'.
  - exfalso. apply spine_redex_shape in Hr as (body & -> & _).
    cbn [app] in E. injection E as <- _. discriminate.
Qed.

Lemma plain_no_gt p l :
  forallb plain (l ++ [62%N] ++ p) = true -> False.
Proof.
  rewrite !forallb_app. cbn. rewrite andb_false_r. discriminate.
Qed.

(** The spine substitution keeps every piece of text without [<] and
    [>]: it only adds text in front of a [>]. *)
Lemma spine_keeps_plain s t :
  Rewritten spine_redex s t ->
  forall a p b, s = a ++ p ++ b -> forallb plain p = true ->
  exists a' b', t = a' ++ p ++ b'.
Proof.
  induction 1 as [|c s t Hk H IH|m new s t Hr Hm H IH]; intros a p b E Hp.
  - symmetry in E. apply app_eq_nil in E as [_ E].
    apply app_eq_nil in E as [-> _]. now exists [], [].
  - destruct a as [|c' a].
    + cbn [app] in E.
      destruct (spine_keeps_plain_prefix p b (c :: t) Hp) as [t' ->].
      * rewrite <- E. now apply rw_keep.
      * now exists [], t'.
    + injection E as <- E.
      destruct (IH a p b E Hp) as (a' & b' & ->).
      now exists (c :: a'), b'.
  - apply app_eq_app in E as [l [[-> E]|[-> ->]]].
    + (* the text begins inside the tag, or right behind it *)
      destruct p as [|c p']; [now exists [], (new ++ t)|].
      apply spine_redex_shape in Hr as (body & Em & ->).
      apply app_eq_app in E as [l2 [[Ep ->]|[-> ->]]].
      * (* the tag ends inside the text, or in front of it *)
        destruct l as [|x l].
        -- cbn [app] in Ep. rewrite <- Ep in *.
           destruct (IH [] (c :: p') b eq_refl Hp) as (a' & b' & ->).
           exists (((60%N :: body) ++ py " toc=`ncx`>") ++ a'), b'.
           now rewrite <- !app_assoc.
        -- exfalso.
           destruct (exists_last (l := x :: l) ltac:(discriminate))
             as (l' & z & El).
           rewrite El, app_assoc in Em.
           apply app_inj_tail in Em as [_ ->].
           rewrite Ep, El, <- app_assoc in Hp.
           exact (plain_no_gt l2 l' Hp).
      * (* the text is inside the tag *)
        destruct l2 as [|y l2].
        -- exfalso. rewrite app_nil_r in Em.
           destruct (exists_last (l := c :: p') ltac:(discriminate))
             as (l' & z & El).
           rewrite El, app_assoc in Em.
           apply app_inj_tail in Em as [_ ->].
           rewrite El in Hp.
           rewrite <- (app_nil_r (l' ++ [62%N])), <- app_assoc in Hp.
           exact (plain_no_gt [] l' Hp).
        -- destruct (exists_last (l := y :: l2) ltac:(discriminate))
             as (l' & z & El).
           rewrite El in Em. rewrite !app_assoc in Em.
           apply app_inj_tail in Em as [Em _].
           exists a, (l' ++ py " toc=`ncx`>" ++ t).
           rewrite <- Em, <- !app_assoc. reflexivity.
    + (* the text begins behind the tag *)
      destruct (IH l p b eq_refl Hp) as (a' & b' & ->).
      exists (new ++ a'), b'. now rewrite <- !app_assoc.
Qed.

End Registration.

(** X13.  Lines 118-121 do their work once: on a text that mentions
    [toc.ncx] already, or that has a [</manifest>] in front of which
    the item can go, the text that they give mentions [toc.ncx], so
    that a second pass over it inserts nothing. *)
Theorem registration_is_idempotent (content : pystr) :
  contains content (py "toc.ncx") = true
  \/ contains content (py "</manifest>") = true ->
  contains (register_ncx content) (py "toc.ncx") = true
  /\ register_ncx (register_ncx content) = register_ncx content.
Proof.
  intro H.
  assert (Hc : contains (register_ncx content) (py "toc.ncx") = true).
  { destruct (register_ncx_Rewritten content) as [Ht Hf].
    destruct (contains content (py "toc.ncx")) eqn:E.
    - now rewrite (Ht eq_refl).
    - destruct H as [H|H]; [discriminate|].
      destruct (Hf eq_refl) as (c' & R1 & R2).
      apply contains_iff in H as (a & b & ->).
      destruct (Rewritten_has_step _ _ _ R1 a (py "</manifest>")
                  (item_ncx ++ LF :: py "</manifest>") b)
        as (x & m' & new' & y & [_ ->] & ->);
        [now split | discriminate | reflexivity |].
      destruct (spine_keeps_plain _ _ R2
                  (x ++ py "<item id=`ncx` href=`") (py "toc.ncx")
                  (py "` media-type=`application/x-dtbncx+xml`/>"
                   ++ LF :: py "</manifest>" ++ y))
        as (a' & b' & E').
      + rewrite <- !app_assoc. reflexivity.
      + reflexivity.
      + rewrite E'. apply contains_iff. now exists a', b'. }
  split; [exact Hc|].
  exact (proj1 (register_ncx_Rewritten (register_ncx content)) Hc).
Qed.

Lemma registration_is_idempotent_witness :
  contains (register_ncx (downgrade Sample.content_opf)) (py "toc.ncx") = true
  /\ register_ncx (register_ncx (downgrade Sample.content_opf))
     = register_ncx (downgrade Sample.content_opf).
Proof.
  apply (registration_is_idempotent (downgrade Sample.content_opf)).
  right. vm_compute. reflexivity.
Defined.
